(** * Progression engine of the mission tracker

    A shallow embedding of the mission-generation and progression-reward
    logic of the application:

    - the missions store ([src/stores/missionsStore.ts]):
      [getDifficultyMultiplier], [getXPReward], [getMissionTemplates],
      [selectDifficulty], [checkScheduleAvailability], and the store
      methods [createMission], [updateMission], [markMissionComplete],
      [generateDailyMissions], [trackMissionHistory],
      [fetchMissionHistory];
    - the profile store (it follows the missions store in the same
      file): [updateProfile], [addXP], [calculateLevel];
    - the objectives store (it follows the schedules store in
      [src/stores/schedulesStore.ts]): [updateObjective],
      [incrementProgress];
    - [src/components/MissionsDisplay.tsx]: [handleCompleteMission];
    - the entity types ([src/types]) and the SQL schema of the five
      tables;
    - the rest of the stores: [fetchMissions], [deleteMission],
      [updateStats], the schedules store ([fetchSchedules],
      [createSchedule], [updateSchedule], [deleteSchedule],
      [toggleSchedule]), [fetchObjectives], [createObjective],
      [deleteObjective]; of [MissionsDisplay.tsx],
      [handleGenerateMissions] and the list [pendingMissions]; and the
      handlers of [src/components/ObjectivesManager.tsx]
      ([validateForm], [handleSubmit], [handleIncrement],
      [handleStatusChange], [handleDelete]).

    ** Numbers

    Every number the engine stores (xp, level, stats, rewards, objective
    values) is an integer; they are modelled as [Z].  The fractional
    intermediate values are [xp / 100] and its square root,
    [totalStats / 30], the level multiplier [1 + (level - 1) * 0.1] and
    the product [Math.random() * 3].  The store methods are modelled
    over the exact reading of this arithmetic: exact rationals ([Q]),
    [Math.floor] as [Qfloor].  The module [F64] states the numeric
    functions over IEEE-754 binary64 values (the standard library's
    [SpecFloat]), operation by operation as the source computes them.

    The theorems on the numeric functions themselves are stated over
    [F64], on the values the application stores: every xp of the 32-bit
    [xp] column, all non-negative stats whose total is below [2^53],
    every level from 1 to 5000.  On these values the two readings give
    the same results, which is what ties the store theorems to the
    source; beyond them they need not, as the two lemmas that follow
    theorems C2 and C3 show.  For the product
    [Math.random() * 3] the two readings select the same stat except for
    random values within [2^-52] below [1/3] or [2/3]
    ([F64_pick_stat_exact], [pick_stat_at_margin]). *)

From Stdlib Require Import ZArith QArith Qround Qreals Reals Lra List String Bool Lia.
From Stdlib Require Import SpecFloat.
Import ListNotations.

Local Open Scope Z_scope.

(** ** JavaScript numeric primitives used by the engine *)

Module JS.

(** [a < b] on numbers. *)
Definition lt (a b : Q) : bool := negb (Qle_bool b a).

(** [Math.floor(q)]. *)
Definition Math_floor (q : Q) : Z := Qfloor q.

(** [Math.floor(Math.sqrt(q))].  [Math.sqrt] of a negative number is
    [NaN], and so is its floor: [None].  For [0 <= q] the floor of the
    square root of [q] is the integer square root of the floor of [q]
    (lemma [Math_floor_sqrt_spec] below characterises it). *)
Definition Math_floor_sqrt (q : Q) : option Z :=
  if Qle_bool 0 q then Some (Z.sqrt (Qfloor q)) else None.

(** [a > b] where [a] may be [NaN]: a comparison with [NaN] is false. *)
Definition gt (a : option Z) (b : Z) : bool :=
  match a with
  | Some n => b <? n
  | None => false
  end.

End JS.

(** ** Data model ([src/types]) *)

Inductive Difficulty := easy | medium | hard.
Inductive Category := sport | studies | routine.

Record Stats := mkStats {
  strength : Z;
  intelligence : Z;
  motivation : Z
}.

Inductive StatKey := k_strength | k_intelligence | k_motivation.

Definition StatKey_eqb (a b : StatKey) : bool :=
  match a, b with
  | k_strength, k_strength | k_intelligence, k_intelligence
  | k_motivation, k_motivation => true
  | _, _ => false
  end.

(** [stats[key]] *)
Definition stat_get (s : Stats) (k : StatKey) : Z :=
  match k with
  | k_strength => strength s
  | k_intelligence => intelligence s
  | k_motivation => motivation s
  end.

(** [{ ...stats, [key]: v }] *)
Definition stat_set (s : Stats) (k : StatKey) (v : Z) : Stats :=
  match k with
  | k_strength => mkStats v (intelligence s) (motivation s)
  | k_intelligence => mkStats (strength s) v (motivation s)
  | k_motivation => mkStats (strength s) (intelligence s) v
  end.

(** ** Leveling function ([profileStore.ts], [calculateLevel]) *)

(** [calculateLevel: (xp) => Math.floor(Math.sqrt(xp / 100)) + 1];
    [None] is [NaN] (negative [xp]). *)
Definition calculateLevel (xp : Z) : option Z :=
  option_map (fun n => n + 1) (JS.Math_floor_sqrt (inject_Z xp / 100)).

(** ** Reward calculator ([missionsStore.ts]) *)

Definition getDifficultyMultiplier (difficulty : Difficulty) : Q :=
  match difficulty with
  | easy => 1
  | medium => 3 # 2
  | hard => 2
  end.

(** [const baseXP = { easy: 10, medium: 26, hard: 51 }] *)
Definition baseXP (difficulty : Difficulty) : Z :=
  match difficulty with
  | easy => 10
  | medium => 26
  | hard => 51
  end.

Definition getXPReward (difficulty : Difficulty) (userLevel : Z) : Z :=
  let levelMultiplier := (1 + inject_Z (userLevel - 1) * (1 # 10))%Q in
  let difficultyMultiplier := getDifficultyMultiplier difficulty in
  JS.Math_floor (inject_Z (baseXP difficulty) * levelMultiplier * difficultyMultiplier)%Q.

(** ** Difficulty selector ([missionsStore.ts]) *)

Definition selectDifficulty (userLevel : Z) (stats : Stats) : Difficulty :=
  let totalStats := strength stats + intelligence stats + motivation stats in
  let statLevel := (inject_Z totalStats / 30)%Q in
  if (userLevel <=? 3) || JS.lt statLevel (1 # 2) then easy
  else if (userLevel <=? 7) || JS.lt statLevel (3 # 2) then medium
  else hard.

(** ** Dates

    A time value is a count of milliseconds since the epoch
    ([Date.now()], [new Date()]).  A date-only string ["YYYY-MM-DD"] (the
    [DATE] columns, and the result of [toISOString().split('T')[0]]) is
    modelled by the number of the UTC day it names. *)

Definition msPerHour : Z := 60 * 60 * 1000.
Definition msPerDay : Z := 24 * 60 * 60 * 1000.

Definition DateOnly := Z.

(** [new Date("YYYY-MM-DD")]: a date-only string is read as UTC midnight. *)
Definition Date_parse (d : DateOnly) : Z := d * msPerDay.

(** [new Date(t).toISOString().split('T')[0]] *)
Definition toISODate (t : Z) : DateOnly := t / msPerDay.

(** [new Date(t).getHours()], for a host whose local time is [tza]
    milliseconds ahead of UTC. *)
Definition getHours (tza t : Z) : Z := ((t + tza) / msPerHour) mod 24.

(** ** Schedules and the availability gate ([missionsStore.ts]) *)

Definition Id := nat.

Inductive Frequency := daily | weekly | monthly.

Record Schedule := mkSchedule {
  s_id : Id;
  s_user_id : Id;
  s_title : string;
  s_description : option string;
  frequency : Frequency;
  start_date : DateOnly;
  end_date : option DateOnly;
  is_active : bool
}.

(** The body of the callback given to [schedules.some]. *)
Definition schedule_covers (now currentHour : Z) (schedule : Schedule) : bool :=
  if negb (is_active schedule) then false
  else
    let startDate := Date_parse (start_date schedule) in
    let endDate := option_map Date_parse (end_date schedule) in
    if (now <? startDate)
       || match endDate with Some e => e <? now | None => false end
    then false
    else (8 <=? currentHour) && (currentHour <=? 20).

(** [checkScheduleAvailability(schedules)], with the value of [new Date()]
    and the host's time-zone offset made explicit. *)
Definition checkScheduleAvailability (tza now : Z) (schedules : list Schedule) : bool :=
  let currentHour := getHours tza now in
  existsb (schedule_covers now currentHour) schedules.

(** ** Mission template catalog ([getMissionTemplates]) *)

Record Template := mkTemplate {
  t_title : string;
  t_description : string;
  t_type : string
}.

Definition getMissionTemplates (category : Category) : list Template :=
  match category with
  | sport =>
      [ mkTemplate "Morning Run" "Complete a 30-minute run" "timed";
        mkTemplate "Strength Training" "Do 3 sets of push-ups and squats" "repetition";
        mkTemplate "Yoga Session" "Practice yoga for 20 minutes" "timed";
        mkTemplate "Cardio Workout" "Complete 45 minutes of cardio exercise" "timed";
        mkTemplate "Skill Building" "Learn a new exercise technique" "skill" ]
  | studies =>
      [ mkTemplate "Reading Session" "Read for 45 minutes" "timed";
        mkTemplate "Practice Problems" "Solve 20 math problems" "repetition";
        mkTemplate "Language Learning" "Study vocabulary for 30 minutes" "timed";
        mkTemplate "Research Project" "Work on research for 1 hour" "timed";
        mkTemplate "Skill Practice" "Practice a new study technique" "skill" ]
  | routine =>
      [ mkTemplate "Meal Prep" "Prepare healthy meals for the day" "task";
        mkTemplate "Cleaning Routine" "Clean your living space for 30 minutes" "timed";
        mkTemplate "Meditation" "Meditate for 15 minutes" "timed";
        mkTemplate "Journaling" "Write in your journal for 20 minutes" "timed";
        mkTemplate "Habit Building" "Practice a new daily habit" "skill" ]
  end%string.

(** ** Entities held by the stores *)

Inductive MissionStatus := pending | in_progress | completed | failed.

Definition MissionStatus_eqb (a b : MissionStatus) : bool :=
  match a, b with
  | pending, pending | in_progress, in_progress
  | completed, completed | failed, failed => true
  | _, _ => false
  end.

Inductive HistoryAction :=
  act_created | act_started | act_completed | act_failed | act_updated.

Record UserProfile := mkProfile {
  p_id : Id;
  p_username : option string;
  level : Z;
  xp : Z;
  stats : Stats
}.

(** [Partial<UserProfile>], the argument of [updateProfile]. *)
Record ProfileUpdates := mkProfileUpdates {
  up_username : option string;
  up_level : option Z;
  up_xp : option Z;
  up_stats : option Stats
}.

Record Mission := mkMission {
  m_id : Id;
  m_user_id : Id;
  m_title : string;
  m_description : option string;
  m_category : Category;
  m_difficulty : Difficulty;
  xp_reward : Z;
  m_deadline : option DateOnly;
  m_status : MissionStatus;
  m_objective_id : option Id;
  m_schedule_id : option Id
}.

Record CreateMissionInput := mkCreateMission {
  c_title : string;
  c_description : option string;
  c_category : Category;
  c_difficulty : Difficulty;
  c_xp_reward : Z;
  c_deadline : option DateOnly;
  c_objective_id : option Id;
  c_schedule_id : option Id
}.

(** [UpdateMissionInput = Partial<CreateMissionInput> & { status? }] *)
Record UpdateMissionInput := mkUpdateMission {
  um_title : option string;
  um_description : option string;
  um_category : option Category;
  um_difficulty : option Difficulty;
  um_xp_reward : option Z;
  um_deadline : option DateOnly;
  um_objective_id : option Id;
  um_schedule_id : option Id;
  um_status : option MissionStatus
}.

Definition update_status (s : MissionStatus) : UpdateMissionInput :=
  mkUpdateMission None None None None None None None None (Some s).

Record MissionHistory := mkHistory {
  h_id : Id;
  h_mission_id : Id;
  h_user_id : Id;
  h_action : HistoryAction;
  h_old_status : option MissionStatus;
  h_new_status : option MissionStatus;
  xp_gained : Z;
  h_notes : option string
}.

(** The row [trackMissionHistory] inserts into [mission_history]. *)
Record HistoryInsert := mkHistoryInsert {
  hi_mission_id : Id;
  hi_user_id : Id;
  hi_action : HistoryAction;
  hi_old_status : option MissionStatus;
  hi_new_status : option MissionStatus;
  hi_xp_gained : Z;
  hi_notes : option string
}.

Inductive ObjectiveStatus := obj_active | obj_completed | obj_paused.

Record Objective := mkObjective {
  o_id : Id;
  o_user_id : Id;
  o_title : string;
  o_description : option string;
  target_value : Z;
  current_value : Z;
  o_category : option string;
  o_deadline : option DateOnly;
  o_status : ObjectiveStatus
}.

(** [UpdateObjectiveInput = Partial<CreateObjectiveInput> &
    { current_value?, status? }] *)
Record UpdateObjectiveInput := mkUpdateObjective {
  uo_title : option string;
  uo_description : option string;
  uo_target_value : option Z;
  uo_category : option string;
  uo_deadline : option DateOnly;
  uo_current_value : option Z;
  uo_status : option ObjectiveStatus
}.

Definition update_current_value (v : Z) : UpdateObjectiveInput :=
  mkUpdateObjective None None None None None (Some v) None.

(** ** The remote store

    The hosted database is outside the repository.  The stores only see
    the outcome of each request: the created or updated record, or an
    error message.  The interface below is what the stores call; the
    theorems hold for every implementation of it, and [TableStore]
    further down is a plain table-backed implementation following the
    schema of the repository's SQL file, used to run the stores on
    concrete inputs. *)

Inductive Result (A : Type) :=
| Ok (data : A)
| Err (message : string).
Arguments Ok {A} data.
Arguments Err {A} message.

Class RemoteStore (R : Type) := {
  (** [from('missions').insert({ user_id, ...input }).select().single()] *)
  missions_insert : Id -> CreateMissionInput -> R -> Result Mission * R;
  (** [from('missions').update({...}).eq('id', id).select().single()] *)
  missions_update : Id -> UpdateMissionInput -> R -> Result Mission * R;
  (** [from('mission_history').insert({...})] *)
  mission_history_insert : HistoryInsert -> R -> Result unit * R;
  (** [from('mission_history').select('*').eq('user_id', userId)] *)
  mission_history_select : Id -> R -> Result (list MissionHistory) * R;
  (** [from('profiles').update({...}).eq('id', id)] *)
  profiles_update : Id -> ProfileUpdates -> R -> Result unit * R;
  (** [from('objectives').update({...}).eq('id', id).select().single()] *)
  objectives_update : Id -> UpdateObjectiveInput -> R -> Result Objective * R
}.

(** The requests a run issues, in order. *)
Inductive Request :=
| ReqMissionsInsert (userId : Id) (input : CreateMissionInput)
| ReqMissionsUpdate (id : Id) (updates : UpdateMissionInput)
| ReqHistoryInsert (row : HistoryInsert)
| ReqHistorySelect (userId : Id)
| ReqProfilesUpdate (id : Id) (updates : ProfileUpdates)
| ReqObjectivesUpdate (id : Id) (updates : UpdateObjectiveInput).

Definition is_create_request (r : Request) : bool :=
  match r with
  | ReqMissionsInsert _ _ => true
  | _ => false
  end.

(** ** Store states (the zustand containers) *)

Record MissionsState := mkMissionsState {
  missions : list Mission;
  missionHistory : list MissionHistory;
  m_loading : bool;
  m_error : option string
}.

Record ProfileState := mkProfileState {
  profile : option UserProfile;
  p_loading : bool;
  p_error : option string
}.

Record ObjectivesState := mkObjectivesState {
  objectives : list Objective;
  o_loading : bool;
  o_error : option string
}.

Section Stores.

Context {R : Type} {RS : RemoteStore R}.

(** Everything a store method can read or change: the remote store and
    the log of requests sent to it, the values [Math.random()] will
    return, the clock, and the three containers. *)
Record World := mkWorld {
  remote : R;
  requests : list Request;
  random : list Q;
  clock : Z;
  tza : Z;
  missionsStore : MissionsState;
  profileStore : ProfileState;
  objectivesStore : ObjectivesState
}.

(** *** A small state monad for the store methods *)

Definition Eff (A : Type) : Type := World -> A * World.

Definition ret {A} (a : A) : Eff A := fun w => (a, w).

Definition bind {A B} (c : Eff A) (k : A -> Eff B) : Eff B :=
  fun w => let (a, w') := c w in k a w'.

Notation "x <- c ;; k" := (bind c (fun x => k))
  (at level 61, c at next level, right associativity).
Notation "c ;; k" := (bind c (fun _ => k))
  (at level 61, right associativity).

(** The world after a run. *)
Definition exec {A} (c : Eff A) (w : World) : World := snd (c w).

(** [for (const x of xs) { await f(x) }] *)
Fixpoint for_each {A} (f : A -> Eff unit) (xs : list A) : Eff unit :=
  match xs with
  | [] => ret tt
  | x :: xs' => f x ;; for_each f xs'
  end.

(** *** Platform reads *)

(** [Math.random()]: the next value of the random source. *)
Definition Math_random : Eff Q :=
  fun w =>
    match random w with
    | [] => (0%Q, w)
    | r :: rs =>
        (r, mkWorld (remote w) (requests w) rs (clock w) (tza w)
              (missionsStore w) (profileStore w) (objectivesStore w))
    end.

(** [Date.now()] *)
Definition Date_now : Eff Z := fun w => (clock w, w).

(** [array[i]]: [undefined] (here [None]) outside the array. *)
Definition array_get {A} (l : list A) (i : Z) : option A :=
  if i <? 0 then None else nth_error l (Z.to_nat i).

(** *** Requests to the remote store *)

Definition call {A} (op : R -> Result A * R) (req : Request) : Eff (Result A) :=
  fun w =>
    let (res, r') := op (remote w) in
    (res, mkWorld r' (requests w ++ [req]) (random w) (clock w) (tza w)
            (missionsStore w) (profileStore w) (objectivesStore w)).

(** *** Container access: [get()] and [set(...)] *)

Definition get_missions : Eff MissionsState := fun w => (missionsStore w, w).
Definition get_profile : Eff ProfileState := fun w => (profileStore w, w).
Definition get_objectives : Eff ObjectivesState := fun w => (objectivesStore w, w).

Definition set_missions (f : MissionsState -> MissionsState) : Eff unit :=
  fun w => (tt, mkWorld (remote w) (requests w) (random w) (clock w) (tza w)
                  (f (missionsStore w)) (profileStore w) (objectivesStore w)).

Definition set_profile (f : ProfileState -> ProfileState) : Eff unit :=
  fun w => (tt, mkWorld (remote w) (requests w) (random w) (clock w) (tza w)
                  (missionsStore w) (f (profileStore w)) (objectivesStore w)).

Definition set_objectives (f : ObjectivesState -> ObjectivesState) : Eff unit :=
  fun w => (tt, mkWorld (remote w) (requests w) (random w) (clock w) (tza w)
                  (missionsStore w) (profileStore w) (f (objectivesStore w))).

(** [set({ loading: true, error: null })] *)
Definition m_start (s : MissionsState) : MissionsState :=
  mkMissionsState (missions s) (missionHistory s) true None.
(** [set({ error: error.message, loading: false })] *)
Definition m_fail (msg : string) (s : MissionsState) : MissionsState :=
  mkMissionsState (missions s) (missionHistory s) false (Some msg).
(** [set({ loading: false })] *)
Definition m_done (s : MissionsState) : MissionsState :=
  mkMissionsState (missions s) (missionHistory s) false (m_error s).

(** *** Missions store ([missionsStore.ts]) *)

Definition fetchMissionHistory (userId : Id) : Eff unit :=
  set_missions m_start ;;
  res <- call (mission_history_select userId) (ReqHistorySelect userId) ;;
  match res with
  | Err msg => set_missions (m_fail msg)
  | Ok data =>
      set_missions (fun s => mkMissionsState (missions s) data false (m_error s))
  end.

Definition trackMissionHistory (missionId userId : Id) (action : HistoryAction)
    (oldStatus newStatus : option MissionStatus) (xpGained : Z)
    (notes : option string) : Eff unit :=
  let row := mkHistoryInsert missionId userId action oldStatus newStatus xpGained notes in
  res <- call (mission_history_insert row) (ReqHistoryInsert row) ;;
  match res with
  | Err _ => ret tt                      (* console.error only *)
  | Ok _ => fetchMissionHistory userId   (* refresh history *)
  end.

Definition createMission (userId : Id) (input : CreateMissionInput) : Eff unit :=
  set_missions m_start ;;
  res <- call (missions_insert userId input) (ReqMissionsInsert userId input) ;;
  match res with
  | Err msg => set_missions (m_fail msg)
  | Ok data =>
      set_missions (fun s =>
        mkMissionsState (data :: missions s) (missionHistory s) false (m_error s)) ;;
      trackMissionHistory (m_id data) userId act_created None (Some pending) 0 None
  end.

Definition updateMission (id : Id) (updates : UpdateMissionInput) : Eff unit :=
  set_missions m_start ;;
  st <- get_missions ;;
  match find (fun m => Nat.eqb (m_id m) id) (missions st) with
  | None => ret tt                       (* [return] inside [try] *)
  | Some mission =>
      res <- call (missions_update id updates) (ReqMissionsUpdate id updates) ;;
      match res with
      | Err msg => set_missions (m_fail msg)
      | Ok data =>
          set_missions (fun s =>
            mkMissionsState
              (map (fun m => if Nat.eqb (m_id m) id then data else m) (missions s))
              (missionHistory s) false (m_error s)) ;;
          match um_status updates with
          | Some s =>
              if negb (MissionStatus_eqb s (m_status mission))
              then trackMissionHistory id (m_user_id mission) act_updated
                     (Some (m_status mission)) (Some s) 0 None
              else ret tt
          | None => ret tt
          end
      end
  end.

(** *** Profile store ([profileStore.ts]) *)

(** [{ ...profile, ...updates }] *)
Definition merge_profile (p : UserProfile) (u : ProfileUpdates) : UserProfile :=
  mkProfile (p_id p)
    (match up_username u with Some n => Some n | None => p_username p end)
    (match up_level u with Some l => l | None => level p end)
    (match up_xp u with Some x => x | None => xp p end)
    (match up_stats u with Some s => s | None => stats p end).

Definition updateProfile (updates : ProfileUpdates) : Eff unit :=
  st <- get_profile ;;
  match profile st with
  | None => ret tt
  | Some p =>
      set_profile (fun s => mkProfileState (profile s) true None) ;;
      res <- call (profiles_update (p_id p) updates) (ReqProfilesUpdate (p_id p) updates) ;;
      match res with
      | Err msg =>
          set_profile (fun s => mkProfileState (profile s) false (Some msg))
      | Ok _ =>
          set_profile (fun s =>
            mkProfileState (Some (merge_profile p updates)) false (p_error s))
      end
  end.

(** [const statKeys = ['strength', 'intelligence', 'motivation']] *)
Definition statKeys : list StatKey := [k_strength; k_intelligence; k_motivation].

Definition addXP (amount : Z) : Eff unit :=
  st <- get_profile ;;
  match profile st with
  | None => ret tt
  | Some p =>
      let newXP := xp p + amount in
      let newLevel := calculateLevel newXP in
      if JS.gt newLevel (level p) then
        (* Level up occurred *)
        r <- Math_random ;;
        let randomStat :=
          array_get statKeys
            (JS.Math_floor (r * inject_Z (Z.of_nat (List.length statKeys)))) in
        let newStats :=
          match randomStat with
          | Some k => stat_set (stats p) k (stat_get (stats p) k + 1)
          | None => stats p   (* [statKeys[i]] undefined: no stat field changes *)
          end in
        match newLevel with
        | Some l =>
            updateProfile (mkProfileUpdates None (Some l) (Some newXP) (Some newStats))
        | None => ret tt      (* not reached: [NaN > level] is false *)
        end
      else
        updateProfile (mkProfileUpdates None None (Some newXP) None)
  end.

(** *** Completion ([missionsStore.ts], [markMissionComplete]) *)

Definition markMissionComplete (id : Id) : Eff unit :=
  st <- get_missions ;;
  match find (fun m => Nat.eqb (m_id m) id) (missions st) with
  | None => ret tt
  | Some mission =>
      updateMission id (update_status completed) ;;
      (* Award XP to user profile *)
      addXP (xp_reward mission) ;;
      (* Track completion history *)
      trackMissionHistory id (m_user_id mission) act_completed
        (Some (m_status mission)) (Some completed) (xp_reward mission) None
  end.

(** [handleCompleteMission] of [MissionsDisplay.tsx]; [rendered] is the
    [missions] list the component closed over when it was rendered.
    ([x?.xp_reward || 0] is [0] when the mission is not found, and
    [xp_reward || 0] is [xp_reward] itself otherwise.) *)
Definition handleCompleteMission (rendered : list Mission) (missionId : Id) : Eff unit :=
  markMissionComplete missionId ;;
  (* Add XP to profile *)
  addXP (match find (fun m => Nat.eqb (m_id m) missionId) rendered with
         | Some m => xp_reward m
         | None => 0
         end).

(** *** Mission generation ([missionsStore.ts], [generateDailyMissions]) *)

Definition categories : list Category := [sport; studies; routine].

(** One turn of the first loop: the input pushed on [newMissions];
    [None] when [randomTemplate] is [undefined], where reading
    [randomTemplate.title] throws. *)
Definition draft_mission (profile : UserProfile) (category : Category)
  : Eff (option CreateMissionInput) :=
  let templates := getMissionTemplates category in
  r <- Math_random ;;
  let randomTemplate :=
    array_get templates
      (JS.Math_floor (r * inject_Z (Z.of_nat (List.length templates)))) in
  let difficulty := selectDifficulty (level profile) (stats profile) in
  let xpReward := getXPReward difficulty (level profile) in
  now <- Date_now ;;
  ret (match randomTemplate with
       | None => None
       | Some t =>
           Some (mkCreateMission (t_title t) (Some (t_description t)) category
                   difficulty xpReward
                   (Some (toISODate (now + 24 * 60 * 60 * 1000)))  (* Tomorrow *)
                   None None)
       end).

(** The first loop over [categories]; [None] when a turn throws. *)
Fixpoint draft_missions (profile : UserProfile) (cs : list Category)
  : Eff (option (list CreateMissionInput)) :=
  match cs with
  | [] => ret (Some [])
  | c :: cs' =>
      d <- draft_mission profile c ;;
      match d with
      | None => ret None
      | Some input =>
          rest <- draft_missions profile cs' ;;
          ret (option_map (cons input) rest)
      end
  end.

Definition generateDailyMissions (userId : Id) (profile : UserProfile)
    (objectives : list Objective) (schedules : list Schedule) : Eff unit :=
  set_missions m_start ;;
  now <- Date_now ;;
  tz <- (fun w => (tza w, w)) ;;
  (* Check schedule availability *)
  if negb (checkScheduleAvailability tz now schedules) then
    set_missions m_done
  else
    drafted <- draft_missions profile categories ;;
    match drafted with
    | None => set_missions (m_fail "TypeError")
    | Some newMissions =>
        (* Create missions *)
        for_each (createMission userId) newMissions ;;
        set_missions m_done
    end.

(** *** Objectives store ([objectivesStore.ts]) *)

Definition updateObjective (id : Id) (updates : UpdateObjectiveInput) : Eff unit :=
  set_objectives (fun s => mkObjectivesState (objectives s) true None) ;;
  res <- call (objectives_update id updates) (ReqObjectivesUpdate id updates) ;;
  match res with
  | Err msg =>
      set_objectives (fun s => mkObjectivesState (objectives s) false (Some msg))
  | Ok data =>
      set_objectives (fun s =>
        mkObjectivesState
          (map (fun obj => if Nat.eqb (o_id obj) id then data else obj) (objectives s))
          false (o_error s))
  end.

Definition incrementProgress (id : Id) (amount : Z) : Eff unit :=
  st <- get_objectives ;;
  match find (fun obj => Nat.eqb (o_id obj) id) (objectives st) with
  | None => ret tt
  | Some objective =>
      let newValue := Z.min (current_value objective + amount) (target_value objective) in
      updateObjective id (update_current_value newValue)
  end.

End Stores.

Arguments World R : clear implicits.

(** ** A table-backed remote store

    Five tables as the SQL schema declares them: no [CHECK] constraint on
    [xp], [level], [current_value] or [target_value], a fresh key for an
    inserted row, [status] defaulting to [pending].  [tb_online = false]
    makes every request fail, as a network outage does. *)

Record Tables := mkTables {
  tb_missions : list Mission;
  tb_history : list MissionHistory;
  tb_profiles : list UserProfile;
  tb_objectives : list Objective;
  tb_next_id : Id;
  tb_online : bool
}.

Definition or_else {A} (o : option A) (d : A) : A :=
  match o with Some a => a | None => d end.

Definition or_keep {A} (o : option A) (d : option A) : option A :=
  match o with Some a => Some a | None => d end.

Definition apply_mission_update (m : Mission) (u : UpdateMissionInput) : Mission :=
  mkMission (m_id m) (m_user_id m)
    (or_else (um_title u) (m_title m))
    (or_keep (um_description u) (m_description m))
    (or_else (um_category u) (m_category m))
    (or_else (um_difficulty u) (m_difficulty m))
    (or_else (um_xp_reward u) (xp_reward m))
    (or_keep (um_deadline u) (m_deadline m))
    (or_else (um_status u) (m_status m))
    (or_keep (um_objective_id u) (m_objective_id m))
    (or_keep (um_schedule_id u) (m_schedule_id m)).

Definition apply_objective_update (o : Objective) (u : UpdateObjectiveInput) : Objective :=
  mkObjective (o_id o) (o_user_id o)
    (or_else (uo_title u) (o_title o))
    (or_keep (uo_description u) (o_description o))
    (or_else (uo_target_value u) (target_value o))
    (or_else (uo_current_value u) (current_value o))
    (or_keep (uo_category u) (o_category o))
    (or_keep (uo_deadline u) (o_deadline o))
    (or_else (uo_status u) (o_status o)).

Definition apply_profile_update (p : UserProfile) (u : ProfileUpdates) : UserProfile :=
  mkProfile (p_id p)
    (or_keep (up_username u) (p_username p))
    (or_else (up_level u) (level p))
    (or_else (up_xp u) (xp p))
    (or_else (up_stats u) (stats p)).

Module TableStore.

Definition offline {A} (t : Tables) : Result A * Tables := (Err "network error"%string, t).

Definition missions_insert (userId : Id) (input : CreateMissionInput) (t : Tables)
  : Result Mission * Tables :=
  if tb_online t then
    let row := mkMission (tb_next_id t) userId (c_title input) (c_description input)
                 (c_category input) (c_difficulty input) (c_xp_reward input)
                 (c_deadline input) pending (c_objective_id input) (c_schedule_id input) in
    (Ok row, mkTables (row :: tb_missions t) (tb_history t) (tb_profiles t)
               (tb_objectives t) (S (tb_next_id t)) true)
  else offline t.

Definition missions_update (id : Id) (u : UpdateMissionInput) (t : Tables)
  : Result Mission * Tables :=
  if tb_online t then
    match find (fun m => Nat.eqb (m_id m) id) (tb_missions t) with
    | None => (Err "no rows returned"%string, t)
    | Some m =>
        let row := apply_mission_update m u in
        (Ok row,
         mkTables (map (fun x => if Nat.eqb (m_id x) id then row else x) (tb_missions t))
           (tb_history t) (tb_profiles t) (tb_objectives t) (tb_next_id t) true)
    end
  else offline t.

Definition mission_history_insert (h : HistoryInsert) (t : Tables)
  : Result unit * Tables :=
  if tb_online t then
    let row := mkHistory (tb_next_id t) (hi_mission_id h) (hi_user_id h) (hi_action h)
                 (hi_old_status h) (hi_new_status h) (hi_xp_gained h) (hi_notes h) in
    (Ok tt, mkTables (tb_missions t) (row :: tb_history t) (tb_profiles t)
              (tb_objectives t) (S (tb_next_id t)) true)
  else offline t.

Definition mission_history_select (userId : Id) (t : Tables)
  : Result (list MissionHistory) * Tables :=
  if tb_online t then
    (Ok (filter (fun h => Nat.eqb (h_user_id h) userId) (tb_history t)), t)
  else offline t.

Definition profiles_update (id : Id) (u : ProfileUpdates) (t : Tables)
  : Result unit * Tables :=
  if tb_online t then
    (Ok tt,
     mkTables (tb_missions t) (tb_history t)
       (map (fun p => if Nat.eqb (p_id p) id then apply_profile_update p u else p)
            (tb_profiles t))
       (tb_objectives t) (tb_next_id t) true)
  else offline t.

Definition objectives_update (id : Id) (u : UpdateObjectiveInput) (t : Tables)
  : Result Objective * Tables :=
  if tb_online t then
    match find (fun o => Nat.eqb (o_id o) id) (tb_objectives t) with
    | None => (Err "no rows returned"%string, t)
    | Some o =>
        let row := apply_objective_update o u in
        (Ok row,
         mkTables (tb_missions t) (tb_history t) (tb_profiles t)
           (map (fun x => if Nat.eqb (o_id x) id then row else x) (tb_objectives t))
           (tb_next_id t) true)
    end
  else offline t.

End TableStore.

#[export] Instance TableStore_RemoteStore : RemoteStore Tables := {
  missions_insert := TableStore.missions_insert;
  missions_update := TableStore.missions_update;
  mission_history_insert := TableStore.mission_history_insert;
  mission_history_select := TableStore.mission_history_select;
  profiles_update := TableStore.profiles_update;
  objectives_update := TableStore.objectives_update
}.

(** ** The numeric functions over binary64

    JavaScript numbers are IEEE-754 binary64 values.  [SpecFloat] is the
    standard library's executable specification of binary floating-point
    arithmetic with round-to-nearest-even; [prec = 53] and [emax = 1024]
    give binary64.  The functions below follow the source operation by
    operation, each operation rounding as the hardware does. *)

Module F64.

Definition prec : Z := 53.
Definition emax : Z := 1024.

Definition float := spec_float.

(** An integer literal or integer-valued variable (rounded to the
    nearest binary64 value when it has more than 53 significant bits). *)
Definition of_Z (n : Z) : float := binary_normalize prec emax n 0 false.

Definition add : float -> float -> float := SFadd prec emax.
Definition mul : float -> float -> float := SFmul prec emax.
Definition div : float -> float -> float := SFdiv prec emax.
Definition sqrt : float -> float := SFsqrt prec emax.
Definition ltb : float -> float -> bool := SFltb.

(** [Math.floor], read back as an integer; [None] for [NaN] and the
    infinities. *)
Definition floor (x : float) : option Z :=
  match x with
  | S754_zero _ => Some 0
  | S754_finite s m e =>
      let v := if s then Z.neg m else Z.pos m in
      Some (if 0 <=? e then v * 2 ^ e else v / 2 ^ (- e))
  | _ => None
  end.

(** The literals [0.1], [0.5], [1.5]: the binary64 values nearest to
    1/10, 1/2 and 3/2 (a correctly rounded division of two small
    integers yields exactly that value). *)
Definition lit_0_1 : float := div (of_Z 1) (of_Z 10).
Definition lit_0_5 : float := div (of_Z 1) (of_Z 2).
Definition lit_1_5 : float := div (of_Z 3) (of_Z 2).

Definition calculateLevel (xp : Z) : option Z :=
  option_map (fun n => n + 1) (floor (sqrt (div (of_Z xp) (of_Z 100)))).

Definition getDifficultyMultiplier (difficulty : Difficulty) : float :=
  match difficulty with
  | easy => of_Z 1
  | medium => lit_1_5
  | hard => of_Z 2
  end.

Definition getXPReward (difficulty : Difficulty) (userLevel : Z) : option Z :=
  let levelMultiplier := add (of_Z 1) (mul (of_Z (userLevel - 1)) lit_0_1) in
  let difficultyMultiplier := getDifficultyMultiplier difficulty in
  floor (mul (mul (of_Z (baseXP difficulty)) levelMultiplier) difficultyMultiplier).

Definition selectDifficulty (userLevel : Z) (stats : Stats) : Difficulty :=
  let totalStats :=
    add (add (of_Z (strength stats)) (of_Z (intelligence stats)))
      (of_Z (motivation stats)) in
  let statLevel := div totalStats (of_Z 30) in
  if (userLevel <=? 3) || ltb statLevel lit_0_5 then easy
  else if (userLevel <=? 7) || ltb statLevel lit_1_5 then medium
  else hard.

(** [statKeys[Math.floor(r * statKeys.length)]] for a binary64 random
    value [r]: the stat [addXP] increments on a level-up. *)
Definition pick_stat (r : float) : option StatKey :=
  match floor (mul r (of_Z (Z.of_nat (List.length statKeys)))) with
  | Some i => array_get statKeys i
  | None => None
  end.

(** The value of a finite binary64 number, as a rational. *)
Definition to_Q (x : float) : Q :=
  match x with
  | S754_finite s m e =>
      let v := if s then Z.neg m else Z.pos m in
      if 0 <=? e then inject_Z (v * 2 ^ e) else v # Z.to_pos (2 ^ (- e))
  | _ => 0
  end.

(** A positive binary64 value in normal form: 53 significant bits. *)
Definition normal (pm : positive) : Prop := 2 ^ 52 <= Z.pos pm < 2 ^ 53.

(** A binary64 value of [0, 1) that is zero or normal, that is, not
    below [2^-1022]. *)
Definition unit_normal (r : float) : Prop :=
  r = S754_zero false
  \/ exists m e, r = S754_finite false m e /\ normal m /\ -1074 <= e <= -53.

(** The second half of [binary_round_aux]: the mantissa [m1] obtained by
    rounding is brought back to 53 bits if the rounding carried. *)
Definition finish (sx : bool) (m1 e1 : Z) : spec_float :=
  let '(mrs'', e'') := shr_fexp prec emax m1 e1 loc_Exact in
  match shr_m mrs'' with
  | Z0 => S754_zero sx
  | Zpos m => if Z.leb e'' (emax - prec) then S754_finite sx m e'' else S754_infinity sx
  | _ => S754_nan
  end.

(** [a] is the number [b]. *)
Definition option_Z_eqb (a : option Z) (b : Z) : bool :=
  match a with
  | Some v => v =? b
  | None => false
  end.

(** [forall n in lo .. lo + count - 1, p n], as a computation. *)
Fixpoint all_from (p : Z -> bool) (lo : Z) (count : nat) : bool :=
  match count with
  | O => true
  | S k => p lo && all_from p (lo + 1) k
  end.

End F64.

(** ** The specification's formulas

    The formulas of the specification, written over the real numbers
    exactly as it words them; the theorems compare the functions of the
    source with these. *)

Module Spec.

Local Open Scope R_scope.

(** [level = floor(sqrt(xp / 100)) + 1] *)
Definition levelFromXP (xp : Z) : Z :=
  (Int_part (sqrt (IZR xp / 100)) + 1)%Z.

(** Base values: easy=10, medium=26, hard=51. *)
Definition base (d : Difficulty) : R :=
  match d with easy => 10 | medium => 26 | hard => 51 end.

(** Difficulty multiplier: easy=1, medium=1.5, hard=2. *)
Definition mult (d : Difficulty) : R :=
  match d with easy => 1 | medium => 1.5 | hard => 2 end.

(** [floor(base[difficulty] * (1 + (level-1) * 0.1) * mult[difficulty])] *)
Definition xpReward (d : Difficulty) (level : Z) : Z :=
  Int_part (base d * (1 + (IZR level - 1) * 0.1) * mult d).

(** [statLevel = (strength+intelligence+motivation) / 30] *)
Definition statLevel (st : Stats) : R :=
  IZR (strength st + intelligence st + motivation st) / 30.

(** A schedule that makes missions available at time [now], whose
    hour of day is [hour]. *)
Definition available (now hour : Z) (s : Schedule) : Prop :=
  (is_active s = true
   /\ Date_parse (start_date s) <= now
   /\ (end_date s = None \/ exists e, end_date s = Some e /\ now <= Date_parse e)
   /\ 8 <= hour <= 20)%Z.

End Spec.

(** ** A concrete world

    One user at level 1 with no xp, one pending hard mission worth 102 xp,
    one objective at 2 of 5, backed by the table store. *)

Module Demo.

Definition user : Id := 1%nat.

Definition hunter : UserProfile :=
  mkProfile user (Some "hunter"%string) 1 0 (mkStats 0 0 0).

Definition raid : Mission :=
  mkMission 10%nat user "Cardio Workout"%string
    (Some "Complete 45 minutes of cardio exercise"%string)
    sport hard 102 (Some 20000) pending None None.

Definition reading : Objective :=
  mkObjective 20%nat user "Read ten books"%string None 5 2 None None obj_active.

Definition week : Schedule :=
  mkSchedule 30%nat user "Weekdays"%string None daily 19990 None true.

Definition tables : Tables :=
  mkTables [raid] [] [hunter] [reading] 100%nat true.

(** Noon UTC of day 20000, on a host in UTC. *)
Definition noon : Z := 20000 * msPerDay + 12 * msPerHour.

Definition world : World Tables :=
  mkWorld tables [] [1 # 2; 1 # 10; 9 # 10; 1 # 3]%Q noon 0
    (mkMissionsState [raid] [] false None)
    (mkProfileState (Some hunter) false None)
    (mkObjectivesState [reading] false None).

(** The same world at 03:00. *)
Definition night : World Tables :=
  mkWorld tables [] [1 # 2; 1 # 10; 9 # 10; 1 # 3]%Q
    (20000 * msPerDay + 3 * msPerHour) 0
    (mkMissionsState [raid] [] false None)
    (mkProfileState (Some hunter) false None)
    (mkObjectivesState [reading] false None).

End Demo.

(** ** Vocabulary of the store theorems *)

Section Vocabulary.

Context {R : Type} {RS : RemoteStore R}.

(** The value the next call of [Math.random()] returns, and the world
    after that call. *)
Definition next_random (w : World R) : Q :=
  match random w with
  | [] => 0%Q
  | r :: _ => r
  end.

Definition after_random (w : World R) : World R :=
  snd (Math_random w).

(** [Math.random()] returns a value in [0, 1). *)
Definition unit_interval (r : Q) : Prop := (0 <= r)%Q /\ (r < 1)%Q.

(** The stat [addXP] picks for the random value [r]:
    [statKeys[Math.floor(r * statKeys.length)]]. *)
Definition pick_stat (r : Q) : option StatKey :=
  array_get statKeys (JS.Math_floor (r * inject_Z (Z.of_nat (List.length statKeys)))).

(** [2^-52], the spacing of the binary64 values between 1 and 2.  The
    product [r * 3] is rounded to a binary64 value before [Math.floor]
    is applied; for a random value within this distance below [1/3] or
    [2/3] the rounded product can reach the next integer. *)
Definition thirds_margin : Q := 1 # 4503599627370496.

(** The two payloads [addXP] hands to [updateProfile]. *)
Definition xp_only (newXP : Z) : ProfileUpdates :=
  mkProfileUpdates None None (Some newXP) None.

Definition level_up (newLevel newXP : Z) (newStats : Stats) : ProfileUpdates :=
  mkProfileUpdates None (Some newLevel) (Some newXP) (Some newStats).

(** The profile invariant: the level is the level of the xp. *)
Definition level_matches_xp (p : UserProfile) : Prop :=
  calculateLevel (xp p) = Some (level p).

(** The profile currently loaded, if any. *)
Definition current_profile (w : World R) : option UserProfile :=
  profile (profileStore w).

(** The objective invariant of the specification. *)
Definition within_bounds (o : Objective) : Prop :=
  0 <= current_value o <= target_value o.

(** What the specification asks of the mission input generated for a
    category: a template of that category's catalog, the difficulty
    and reward computed from the profile, a deadline one day after
    [now]. *)
Definition generated_for (p : UserProfile) (now : Z) (c : Category)
    (input : CreateMissionInput) : Prop :=
  c_category input = c
  /\ (exists t, In t (getMissionTemplates c)
                /\ c_title input = t_title t
                /\ c_description input = Some (t_description t))
  /\ c_difficulty input = selectDifficulty (level p) (stats p)
  /\ c_xp_reward input = getXPReward (c_difficulty input) (level p)
  /\ c_deadline input = Some (toISODate (now + msPerDay)).

(** [w'] differs from [w] by requests that create no mission and by
    the missions container only. *)
Definition history_only (w w' : World R) : Prop :=
  exists l,
    requests w' = requests w ++ l
    /\ filter is_create_request l = []
    /\ random w' = random w /\ clock w' = clock w /\ tza w' = tza w
    /\ missions (missionsStore w') = missions (missionsStore w)
    /\ profileStore w' = profileStore w
    /\ objectivesStore w' = objectivesStore w.

(** The world after [n] calls of [Math.random()]. *)
Fixpoint after_randoms (n : nat) (w : World R) : World R :=
  match n with
  | O => w
  | S k => after_randoms k (after_random w)
  end.

End Vocabulary.

(** ** The rest of the stores

    The store methods the progression engine does not call itself: the
    reads and deletions of the missions store, [updateStats] of the
    profile store, the schedules store and the creation, reading and
    deletion of objectives; and the two pieces of
    [src/components/MissionsDisplay.tsx] that drive the engine, the list
    of missions it offers for completion and [handleGenerateMissions]. *)

(** [CreateObjectiveInput] of [src/types]. *)
Record CreateObjectiveInput := mkCreateObjective {
  co_title : string;
  co_description : option string;
  co_target_value : Z;
  co_category : option string;
  co_deadline : option DateOnly
}.

(** [CreateScheduleInput] of [src/types]. *)
Record CreateScheduleInput := mkCreateSchedule {
  cs_title : string;
  cs_description : option string;
  cs_frequency : Frequency;
  cs_start_date : DateOnly;
  cs_end_date : option DateOnly
}.

(** [UpdateScheduleInput = Partial<CreateScheduleInput> & { is_active? }] *)
Record UpdateScheduleInput := mkUpdateSchedule {
  us_title : option string;
  us_description : option string;
  us_frequency : option Frequency;
  us_start_date : option DateOnly;
  us_end_date : option DateOnly;
  us_is_active : option bool
}.

(** [{ is_active: b }] *)
Definition update_is_active (b : bool) : UpdateScheduleInput :=
  mkUpdateSchedule None None None None None (Some b).

Record SchedulesState := mkSchedulesState {
  schedules : list Schedule;
  s_loading : bool;
  s_error : option string
}.

(** The requests of these methods.  A [select] answers with the rows of
    the user, newest first; [data || []] makes a missing answer the empty
    list. *)
Class RemoteQueries (R : Type) := {
  (** [from('missions').select('*').eq('user_id', userId)] *)
  missions_select : Id -> R -> Result (list Mission) * R;
  (** [from('missions').delete().eq('id', id)] *)
  missions_delete : Id -> R -> Result unit * R;
  (** [from('objectives').select('*').eq('user_id', userId)] *)
  objectives_select : Id -> R -> Result (list Objective) * R;
  (** [from('objectives').insert({ user_id, ...input }).select().single()] *)
  objectives_insert : Id -> CreateObjectiveInput -> R -> Result Objective * R;
  (** [from('objectives').delete().eq('id', id)] *)
  objectives_delete : Id -> R -> Result unit * R;
  (** [from('schedules').select('*').eq('user_id', userId)] *)
  schedules_select : Id -> R -> Result (list Schedule) * R;
  (** [from('schedules').insert({ user_id, ...input }).select().single()] *)
  schedules_insert : Id -> CreateScheduleInput -> R -> Result Schedule * R;
  (** [from('schedules').update({...}).eq('id', id).select().single()] *)
  schedules_update : Id -> UpdateScheduleInput -> R -> Result Schedule * R;
  (** [from('schedules').delete().eq('id', id)] *)
  schedules_delete : Id -> R -> Result unit * R
}.

(** These requests, as a run issues them, in order. *)
Inductive Query :=
| QMissionsSelect (userId : Id)
| QMissionsDelete (id : Id)
| QObjectivesSelect (userId : Id)
| QObjectivesInsert (userId : Id) (input : CreateObjectiveInput)
| QObjectivesDelete (id : Id)
| QSchedulesSelect (userId : Id)
| QSchedulesInsert (userId : Id) (input : CreateScheduleInput)
| QSchedulesUpdate (id : Id) (updates : UpdateScheduleInput)
| QSchedulesDelete (id : Id).

(** *** What [MissionsDisplay] offers for completion

    [const pendingMissions = missions.filter(m => m.status === 'pending'
    || m.status === 'in_progress')]: the missions that are rendered with
    a Complete button. *)
Definition pendingMissions (ms : list Mission) : list Mission :=
  filter (fun m => MissionStatus_eqb (m_status m) pending
                   || MissionStatus_eqb (m_status m) in_progress) ms.

Section ProfileStats.

Context {R : Type} {RS : RemoteStore R}.

(** *** Profile store: [updateStats] *)

Definition updateStats (stat : StatKey) (value : Z) : @Eff R unit :=
  bind get_profile (fun st =>
    match profile st with
    | None => ret tt
    | Some p =>
        let newStats := stat_set (stats p) stat value in
        updateProfile (mkProfileUpdates None None None (Some newStats))
    end).

End ProfileStats.

Section Application.

Context {R : Type} {RS : RemoteStore R} {RQ : RemoteQueries R}.

(** The whole application: the world of the progression engine, the
    schedules container, and the log of the requests above. *)
Record App := mkApp {
  app_world : World R;
  queries : list Query;
  schedulesStore : SchedulesState
}.

Definition Act (A : Type) : Type := App -> A * App.

Definition act_ret {A} (a : A) : Act A := fun s => (a, s).

Definition act_bind {A B} (c : Act A) (k : A -> Act B) : Act B :=
  fun s => let (a, s') := c s in k a s'.

Notation "x <- c ;; k" := (act_bind c (fun x => k))
  (at level 61, c at next level, right associativity).
Notation "c ;; k" := (act_bind c (fun _ => k))
  (at level 61, right associativity).

(** The application after a run. *)
Definition run {A} (c : Act A) (s : App) : App := snd (c s).

(** A method of the missions, profile or objectives store, run inside
    the application. *)
Definition lift {A} (c : @Eff R A) : Act A :=
  fun s =>
    let (a, w') := c (app_world s) in
    (a, mkApp w' (queries s) (schedulesStore s)).

Definition query {A} (op : R -> Result A * R) (q : Query) : Act (Result A) :=
  fun s =>
    let w := app_world s in
    let (res, r') := op (remote w) in
    (res, mkApp (mkWorld r' (requests w) (random w) (clock w) (tza w)
                   (missionsStore w) (profileStore w) (objectivesStore w))
            (queries s ++ [q]) (schedulesStore s)).

Definition get_schedules : Act SchedulesState := fun s => (schedulesStore s, s).

Definition set_schedules (f : SchedulesState -> SchedulesState) : Act unit :=
  fun s => (tt, mkApp (app_world s) (queries s) (f (schedulesStore s))).

(** *** Missions store: [fetchMissions], [deleteMission] *)

Definition fetchMissions (userId : Id) : Act unit :=
  lift (set_missions m_start) ;;
  res <- query (missions_select userId) (QMissionsSelect userId) ;;
  match res with
  | Err msg => lift (set_missions (m_fail msg))
  | Ok data =>
      lift (set_missions (fun s =>
        mkMissionsState data (missionHistory s) false (m_error s)))
  end.

Definition deleteMission (id : Id) : Act unit :=
  lift (set_missions m_start) ;;
  res <- query (missions_delete id) (QMissionsDelete id) ;;
  match res with
  | Err msg => lift (set_missions (m_fail msg))
  | Ok _ =>
      lift (set_missions (fun s =>
        mkMissionsState (filter (fun m => negb (Nat.eqb (m_id m) id)) (missions s))
          (missionHistory s) false (m_error s)))
  end.

(** [handleGenerateMissions] of [MissionsDisplay.tsx]; [profile],
    [objectives] and [schedules] are the values the component read from
    the stores when it was rendered (an array is never falsy, so the test
    is on [profile] alone). *)
Definition handleGenerateMissions (userId : Id) (profile : option UserProfile)
    (objectives : list Objective) (schedules : list Schedule) : Act unit :=
  match profile with
  | Some p =>
      lift (generateDailyMissions userId p objectives schedules) ;;
      fetchMissions userId
  | None => act_ret tt
  end.

(** *** Objectives store: [fetchObjectives], [createObjective],
    [deleteObjective] *)

(** [set({ loading: true, error: null })] *)
Definition o_start (s : ObjectivesState) : ObjectivesState :=
  mkObjectivesState (objectives s) true None.
(** [set({ error: error.message, loading: false })] *)
Definition o_fail (msg : string) (s : ObjectivesState) : ObjectivesState :=
  mkObjectivesState (objectives s) false (Some msg).

Definition fetchObjectives (userId : Id) : Act unit :=
  lift (set_objectives o_start) ;;
  res <- query (objectives_select userId) (QObjectivesSelect userId) ;;
  match res with
  | Err msg => lift (set_objectives (o_fail msg))
  | Ok data =>
      lift (set_objectives (fun s => mkObjectivesState data false (o_error s)))
  end.

Definition createObjective (userId : Id) (input : CreateObjectiveInput) : Act unit :=
  lift (set_objectives o_start) ;;
  res <- query (objectives_insert userId input) (QObjectivesInsert userId input) ;;
  match res with
  | Err msg => lift (set_objectives (o_fail msg))
  | Ok data =>
      lift (set_objectives (fun s =>
        mkObjectivesState (data :: objectives s) false (o_error s)))
  end.

Definition deleteObjective (id : Id) : Act unit :=
  lift (set_objectives o_start) ;;
  res <- query (objectives_delete id) (QObjectivesDelete id) ;;
  match res with
  | Err msg => lift (set_objectives (o_fail msg))
  | Ok _ =>
      lift (set_objectives (fun s =>
        mkObjectivesState (filter (fun obj => negb (Nat.eqb (o_id obj) id)) (objectives s))
          false (o_error s)))
  end.

(** *** Schedules store ([schedulesStore.ts]) *)

(** [set({ loading: true, error: null })] *)
Definition s_start (s : SchedulesState) : SchedulesState :=
  mkSchedulesState (schedules s) true None.
(** [set({ error: error.message, loading: false })] *)
Definition s_fail (msg : string) (s : SchedulesState) : SchedulesState :=
  mkSchedulesState (schedules s) false (Some msg).

Definition fetchSchedules (userId : Id) : Act unit :=
  set_schedules s_start ;;
  res <- query (schedules_select userId) (QSchedulesSelect userId) ;;
  match res with
  | Err msg => set_schedules (s_fail msg)
  | Ok data => set_schedules (fun s => mkSchedulesState data false (s_error s))
  end.

Definition createSchedule (userId : Id) (input : CreateScheduleInput) : Act unit :=
  set_schedules s_start ;;
  res <- query (schedules_insert userId input) (QSchedulesInsert userId input) ;;
  match res with
  | Err msg => set_schedules (s_fail msg)
  | Ok data =>
      set_schedules (fun s => mkSchedulesState (data :: schedules s) false (s_error s))
  end.

Definition updateSchedule (id : Id) (updates : UpdateScheduleInput) : Act unit :=
  set_schedules s_start ;;
  res <- query (schedules_update id updates) (QSchedulesUpdate id updates) ;;
  match res with
  | Err msg => set_schedules (s_fail msg)
  | Ok data =>
      set_schedules (fun s =>
        mkSchedulesState
          (map (fun schedule => if Nat.eqb (s_id schedule) id then data else schedule)
               (schedules s))
          false (s_error s))
  end.

Definition deleteSchedule (id : Id) : Act unit :=
  set_schedules s_start ;;
  res <- query (schedules_delete id) (QSchedulesDelete id) ;;
  match res with
  | Err msg => set_schedules (s_fail msg)
  | Ok _ =>
      set_schedules (fun s =>
        mkSchedulesState
          (filter (fun schedule => negb (Nat.eqb (s_id schedule) id)) (schedules s))
          false (s_error s))
  end.

Definition toggleSchedule (id : Id) : Act unit :=
  st <- get_schedules ;;
  match find (fun s => Nat.eqb (s_id s) id) (schedules st) with
  | None => act_ret tt
  | Some schedule => updateSchedule id (update_is_active (negb (is_active schedule)))
  end.

End Application.

Arguments App R : clear implicits.

(** ** The objectives manager ([src/components/ObjectivesManager.tsx])

    The handlers through which the component calls the objectives
    store.  The component's own state (the form being filled in and its
    error messages) is not modelled; [validateForm] is its result, and
    [handleSubmit] is given the form it validates. *)

Definition ObjectiveStatus_eqb (a b : ObjectiveStatus) : bool :=
  match a, b with
  | obj_active, obj_active | obj_completed, obj_completed
  | obj_paused, obj_paused => true
  | _, _ => false
  end.

(** [{ status }] *)
Definition update_objective_status (status : ObjectiveStatus) : UpdateObjectiveInput :=
  mkUpdateObjective None None None None None None (Some status).

(** The condition under which the "+1 Progress" button of an objective
    is rendered:
    [objective.status === 'active' &&
     objective.current_value < objective.target_value]. *)
Definition canIncrement (objective : Objective) : bool :=
  ObjectiveStatus_eqb (o_status objective) obj_active
  && (current_value objective <? target_value objective).

Section ObjectivesManager.

Context {R : Type} {RS : RemoteStore R} {RQ : RemoteQueries R}.

(** [String.prototype.trim] *)
Variable String_trim : string -> string.

(** [validateForm()]: true when no error was found.  An empty
    [deadline] is falsy, and the test on it is skipped. *)
Definition validateForm (now : Z) (formData : CreateObjectiveInput) : bool :=
  let title_error := String.eqb (String_trim (co_title formData)) "" in
  let target_error := co_target_value formData <? 1 in
  let deadline_error :=
    match co_deadline formData with
    | Some d => Date_parse d <? now
    | None => false
    end in
  negb (title_error || target_error || deadline_error).

Definition handleSubmit (userId : Id) (formData : CreateObjectiveInput) : @Act R unit :=
  act_bind (lift Date_now) (fun now =>
    if negb (validateForm now formData) then act_ret tt
    else createObjective userId formData).

(** [incrementProgress(id)]: the amount is left to its default, 1. *)
Definition handleIncrement (id : Id) : @Act R unit :=
  lift (incrementProgress id 1).

Definition handleStatusChange (id : Id) (status : ObjectiveStatus) : @Act R unit :=
  lift (updateObjective id (update_objective_status status)).

(** [confirmed] is the answer to [window.confirm]. *)
Definition handleDelete (id : Id) (confirmed : bool) : @Act R unit :=
  if confirmed then deleteObjective id else act_ret tt.

(** What a user can do in the manager, and the handler each action
    runs. *)
Inductive ManagerAction :=
| Submit (formData : CreateObjectiveInput)
| ClickIncrement (id : Id)
| ChangeStatus (id : Id) (status : ObjectiveStatus)
| ClickDelete (id : Id) (confirmed : bool).

Definition perform (userId : Id) (a : ManagerAction) : @Act R unit :=
  match a with
  | Submit formData => handleSubmit userId formData
  | ClickIncrement id => handleIncrement id
  | ChangeStatus id status => handleStatusChange id status
  | ClickDelete id confirmed => handleDelete id confirmed
  end.

(** The actions of a session, one after the other. *)
Fixpoint session (userId : Id) (actions : list ManagerAction) : @Act R unit :=
  match actions with
  | [] => act_ret tt
  | a :: rest => act_bind (perform userId a) (fun _ => session userId rest)
  end.

End ObjectivesManager.

(** ** A table-backed store for all five tables

    [Tables] above with the [schedules] table beside it; defaults as the
    SQL schema declares them ([current_value] 0 and [status] active for a
    new objective, [is_active] true for a new schedule).  A [delete] that
    matches no row is not an error. *)

Record Database := mkDatabase {
  db_tables : Tables;
  db_schedules : list Schedule
}.

Definition apply_schedule_update (s : Schedule) (u : UpdateScheduleInput) : Schedule :=
  mkSchedule (s_id s) (s_user_id s)
    (or_else (us_title u) (s_title s))
    (or_keep (us_description u) (s_description s))
    (or_else (us_frequency u) (frequency s))
    (or_else (us_start_date u) (start_date s))
    (or_keep (us_end_date u) (end_date s))
    (or_else (us_is_active u) (is_active s)).

Module DatabaseStore.

Definition online (d : Database) : bool := tb_online (db_tables d).

Definition offline {A} (d : Database) : Result A * Database :=
  (Err "network error"%string, d).

(** A request on one of the four tables of [Tables]. *)
Definition on_tables {A} (op : Tables -> Result A * Tables) (d : Database)
  : Result A * Database :=
  let (res, t') := op (db_tables d) in (res, mkDatabase t' (db_schedules d)).

(** The tables with [next_id] advanced. *)
Definition bump (t : Tables) : Tables :=
  mkTables (tb_missions t) (tb_history t) (tb_profiles t) (tb_objectives t)
    (S (tb_next_id t)) (tb_online t).

Definition missions_select (userId : Id) (d : Database)
  : Result (list Mission) * Database :=
  if online d then
    (Ok (filter (fun m => Nat.eqb (m_user_id m) userId) (tb_missions (db_tables d))), d)
  else offline d.

Definition missions_delete (id : Id) (d : Database) : Result unit * Database :=
  if online d then
    let t := db_tables d in
    (Ok tt,
     mkDatabase
       (mkTables (filter (fun m => negb (Nat.eqb (m_id m) id)) (tb_missions t))
          (tb_history t) (tb_profiles t) (tb_objectives t) (tb_next_id t) (tb_online t))
       (db_schedules d))
  else offline d.

Definition objectives_select (userId : Id) (d : Database)
  : Result (list Objective) * Database :=
  if online d then
    (Ok (filter (fun o => Nat.eqb (o_user_id o) userId) (tb_objectives (db_tables d))), d)
  else offline d.

Definition objectives_insert (userId : Id) (input : CreateObjectiveInput) (d : Database)
  : Result Objective * Database :=
  if online d then
    let t := db_tables d in
    let row := mkObjective (tb_next_id t) userId (co_title input) (co_description input)
                 (co_target_value input) 0 (co_category input) (co_deadline input)
                 obj_active in
    (Ok row,
     mkDatabase
       (mkTables (tb_missions t) (tb_history t) (tb_profiles t) (row :: tb_objectives t)
          (S (tb_next_id t)) (tb_online t))
       (db_schedules d))
  else offline d.

Definition objectives_delete (id : Id) (d : Database) : Result unit * Database :=
  if online d then
    let t := db_tables d in
    (Ok tt,
     mkDatabase
       (mkTables (tb_missions t) (tb_history t) (tb_profiles t)
          (filter (fun o => negb (Nat.eqb (o_id o) id)) (tb_objectives t))
          (tb_next_id t) (tb_online t))
       (db_schedules d))
  else offline d.

Definition schedules_select (userId : Id) (d : Database)
  : Result (list Schedule) * Database :=
  if online d then
    (Ok (filter (fun s => Nat.eqb (s_user_id s) userId) (db_schedules d)), d)
  else offline d.

Definition schedules_insert (userId : Id) (input : CreateScheduleInput) (d : Database)
  : Result Schedule * Database :=
  if online d then
    let row := mkSchedule (tb_next_id (db_tables d)) userId (cs_title input)
                 (cs_description input) (cs_frequency input) (cs_start_date input)
                 (cs_end_date input) true in
    (Ok row, mkDatabase (bump (db_tables d)) (row :: db_schedules d))
  else offline d.

Definition schedules_update (id : Id) (u : UpdateScheduleInput) (d : Database)
  : Result Schedule * Database :=
  if online d then
    match find (fun s => Nat.eqb (s_id s) id) (db_schedules d) with
    | None => (Err "no rows returned"%string, d)
    | Some s =>
        let row := apply_schedule_update s u in
        (Ok row,
         mkDatabase (db_tables d)
           (map (fun x => if Nat.eqb (s_id x) id then row else x) (db_schedules d)))
    end
  else offline d.

Definition schedules_delete (id : Id) (d : Database) : Result unit * Database :=
  if online d then
    (Ok tt,
     mkDatabase (db_tables d)
       (filter (fun s => negb (Nat.eqb (s_id s) id)) (db_schedules d)))
  else offline d.

End DatabaseStore.

#[export] Instance Database_RemoteStore : RemoteStore Database := {
  missions_insert userId input := DatabaseStore.on_tables (TableStore.missions_insert userId input);
  missions_update id u := DatabaseStore.on_tables (TableStore.missions_update id u);
  mission_history_insert h := DatabaseStore.on_tables (TableStore.mission_history_insert h);
  mission_history_select userId := DatabaseStore.on_tables (TableStore.mission_history_select userId);
  profiles_update id u := DatabaseStore.on_tables (TableStore.profiles_update id u);
  objectives_update id u := DatabaseStore.on_tables (TableStore.objectives_update id u)
}.

#[export] Instance Database_RemoteQueries : RemoteQueries Database := {
  missions_select := DatabaseStore.missions_select;
  missions_delete := DatabaseStore.missions_delete;
  objectives_select := DatabaseStore.objectives_select;
  objectives_insert := DatabaseStore.objectives_insert;
  objectives_delete := DatabaseStore.objectives_delete;
  schedules_select := DatabaseStore.schedules_select;
  schedules_insert := DatabaseStore.schedules_insert;
  schedules_update := DatabaseStore.schedules_update;
  schedules_delete := DatabaseStore.schedules_delete
}.

(** ** A concrete application

    [Demo.world] over the five tables, with the schedule [Demo.week]
    loaded. *)

Module DemoApp.

Definition database : Database := mkDatabase Demo.tables [Demo.week].

Definition world : World Database :=
  mkWorld database [] [1 # 2; 1 # 10; 9 # 10; 1 # 3]%Q Demo.noon 0
    (mkMissionsState [Demo.raid] [] false None)
    (mkProfileState (Some Demo.hunter) false None)
    (mkObjectivesState [Demo.reading] false None).

Definition app : App Database :=
  mkApp world [] (mkSchedulesState [Demo.week] false None).

(** The application before anything is loaded. *)
Definition signed_out : World Database :=
  mkWorld database [] [] Demo.noon 0
    (mkMissionsState [] [] false None)
    (mkProfileState None false None)
    (mkObjectivesState [] false None).

End DemoApp.

(** ** Vocabulary of the further theorems *)

(** The order easy < medium < hard. *)
Definition difficulty_rank (d : Difficulty) : Z :=
  match d with
  | easy => 0
  | medium => 1
  | hard => 2
  end.

(** [strength + intelligence + motivation] *)
Definition total_stats (st : Stats) : Z :=
  strength st + intelligence st + motivation st.

(** The time of day of [now], in milliseconds after local midnight, on a
    host [tza] milliseconds ahead of UTC. *)
Definition time_of_day (tza now : Z) : Z := (now + tza) mod msPerDay.

(** The objectives the manager shows are those of the table, and each
    of them is within bounds. *)
Definition manager_invariant (s : App Database) : Prop :=
  objectives (objectivesStore (app_world s))
  = tb_objectives (db_tables (remote (app_world s)))
  /\ Forall within_bounds (objectives (objectivesStore (app_world s))).

(** The history row [updateMission] records for mission [m]: one row,
    with the old and the new status, when the update carries a status
    other than the mission's. *)
Definition status_rows (id : Id) (m : Mission) (updates : UpdateMissionInput)
  : list Request :=
  match um_status updates with
  | Some s =>
      if MissionStatus_eqb s (m_status m) then []
      else [ReqHistoryInsert
              (mkHistoryInsert id (m_user_id m) act_updated
                 (Some (m_status m)) (Some s) 0 None)]
  | None => []
  end.

(** [row] is the record of a mission created for [userId] from
    [input]: the fields of the input, and the status [pending]. *)
Definition created_from (userId : Id) (input : CreateMissionInput) (row : Mission) : Prop :=
  m_user_id row = userId
  /\ m_title row = c_title input
  /\ m_description row = c_description input
  /\ m_category row = c_category input
  /\ m_difficulty row = c_difficulty input
  /\ xp_reward row = c_xp_reward input
  /\ m_deadline row = c_deadline input
  /\ m_status row = pending.

Section MoreVocabulary.

Context {R : Type}.

(** [w'] is [w] after the requests [l]; of the containers, only the
    history, the loading flag and the error of the missions store may
    differ. *)
Definition missions_kept (w w' : World R) (l : list Request) : Prop :=
  requests w' = requests w ++ l
  /\ random w' = random w /\ clock w' = clock w /\ tza w' = tza w
  /\ missions (missionsStore w') = missions (missionsStore w)
  /\ profileStore w' = profileStore w
  /\ objectivesStore w' = objectivesStore w.

(** Between [s] and [s'] only the remote store, the log of queries and
    the one container named may differ. *)
Definition only_missions_differ (s s' : App R) : Prop :=
  requests (app_world s') = requests (app_world s)
  /\ random (app_world s') = random (app_world s)
  /\ profileStore (app_world s') = profileStore (app_world s)
  /\ objectivesStore (app_world s') = objectivesStore (app_world s)
  /\ schedulesStore s' = schedulesStore s.

Definition only_objectives_differ (s s' : App R) : Prop :=
  requests (app_world s') = requests (app_world s)
  /\ random (app_world s') = random (app_world s)
  /\ missionsStore (app_world s') = missionsStore (app_world s)
  /\ profileStore (app_world s') = profileStore (app_world s)
  /\ schedulesStore s' = schedulesStore s.

Definition only_schedules_differ (s s' : App R) : Prop :=
  requests (app_world s') = requests (app_world s)
  /\ random (app_world s') = random (app_world s)
  /\ missionsStore (app_world s') = missionsStore (app_world s)
  /\ profileStore (app_world s') = profileStore (app_world s)
  /\ objectivesStore (app_world s') = objectivesStore (app_world s).

End MoreVocabulary.

(** * Theorems *)

(** ** Rationals, reals and floors *)

Lemma Q2R_inject_Z (z : Z) : Q2R (inject_Z z) = IZR z.
Proof. unfold Q2R; simpl. field. Qed.

Lemma Qfloor_Int_part (q : Q) : Qfloor q = Int_part (Q2R q).
Proof.
  apply Int_part_spec.
  pose proof (Qle_Rle _ _ (Qfloor_le q)) as Hlo.
  pose proof (Qlt_Rlt _ _ (Qlt_floor q)) as Hhi.
  rewrite Q2R_inject_Z in Hlo, Hhi.
  rewrite plus_IZR in Hhi.
  split; lra.
Qed.

Lemma Qfloor_div_100 (xp : Z) : Qfloor (inject_Z xp / 100) = xp / 100.
Proof. symmetry. apply (Zdiv_Qdiv xp 100). Qed.

(** [Math_floor_sqrt] is the floor of the square root: it returns the
    one natural number whose square is at most [q] and whose successor's
    square exceeds [q]. *)
Lemma Math_floor_sqrt_spec (q : Q) :
  (0 <= q)%Q ->
  exists n, JS.Math_floor_sqrt q = Some n
            /\ 0 <= n
            /\ (inject_Z (n * n) <= q)%Q
            /\ (q < inject_Z ((n + 1) * (n + 1)))%Q.
Proof.
  intros Hq. unfold JS.Math_floor_sqrt.
  apply Qle_bool_iff in Hq as Hb. rewrite Hb.
  assert (Hf : 0 <= Qfloor q).
  { change 0 with (Qfloor 0). now apply Qfloor_resp_le. }
  exists (Z.sqrt (Qfloor q)). split; [reflexivity|].
  pose proof (Z.sqrt_spec (Qfloor q) Hf) as [Hlo Hhi].
  pose proof (Z.sqrt_nonneg (Qfloor q)) as Hn.
  split; [assumption|]. split.
  - apply Qle_trans with (inject_Z (Qfloor q)); [|apply Qfloor_le].
    rewrite <- Zle_Qle. exact Hlo.
  - apply Qlt_le_trans with (inject_Z (Qfloor q + 1)); [apply Qlt_floor|].
    rewrite <- Zle_Qle. unfold Z.succ in Hhi. lia.
Qed.

(** ** Binary64 arithmetic

    The source computes [xp / 100] and its square root, the level
    multiplier and the reward, and [totalStats / 30] in binary64.  The
    lemmas of this part establish, from the definitions of [SpecFloat],
    what the theorems on the numeric functions need: an integer below
    [2^53] is represented exactly, and so is the sum of two non-negative
    integers that stays below [2^53]; a correctly rounded quotient or
    square root never crosses a value that is itself representable on
    the grid of the result. *)

(** *** Bit lengths *)

Lemma digits2_pos_bounds (p : positive) :
  2 ^ (Z.pos (digits2_pos p) - 1) <= Z.pos p < 2 ^ Z.pos (digits2_pos p).
Proof.
  induction p as [p IH|p IH|]; cbn [digits2_pos].
  - rewrite Pos2Z.inj_succ.
    replace (Z.succ (Z.pos (digits2_pos p)) - 1)
      with (Z.succ (Z.pos (digits2_pos p) - 1)) by lia.
    rewrite !Z.pow_succ_r by lia. lia.
  - rewrite Pos2Z.inj_succ.
    replace (Z.succ (Z.pos (digits2_pos p)) - 1)
      with (Z.succ (Z.pos (digits2_pos p) - 1)) by lia.
    rewrite !Z.pow_succ_r by lia. lia.
  - cbn. lia.
Qed.

Lemma digits2_pos_unique (p : positive) (n : Z) :
  2 ^ (n - 1) <= Z.pos p < 2 ^ n -> Z.pos (digits2_pos p) = n.
Proof.
  intros [Hlo Hhi].
  pose proof (digits2_pos_bounds p) as [Dlo Dhi].
  set (d := Z.pos (digits2_pos p)) in *.
  assert (Hd : 0 < d) by (subst d; lia).
  assert (Hn : 0 < n).
  { destruct (Z.ltb_spec 0 n); [assumption|].
    assert (2 ^ n <= 1).
    { destruct (Z.eq_dec n 0) as [->|]; [cbn; lia|]. rewrite Z.pow_neg_r by lia. lia. }
    lia. }
  assert (d - 1 < n).
  { apply (Z.pow_lt_mono_r_iff 2); lia. }
  assert (n - 1 < d).
  { apply (Z.pow_lt_mono_r_iff 2); lia. }
  lia.
Qed.

(** *** The rounding step of [SpecFloat]

    [binary_round_aux] shifts the mantissa right until it has 53 bits,
    rounds to nearest even on the bits shifted out, and shifts once more
    if the rounding carried into a 54th bit. *)

Lemma loc_of_record (m : Z) (l : location) :
  loc_of_shr_record (shr_record_of_loc m l) = l /\ shr_m (shr_record_of_loc m l) = m.
Proof. destruct l as [|[]]; split; reflexivity. Qed.

Lemma fexp_normal (e : Z) : -1021 <= e -> fexp F64.prec F64.emax e = e - 53.
Proof. unfold fexp, emin, F64.prec, F64.emax. lia. Qed.

Lemma shr_fexp_53 (p : positive) (ex : Z) (l : location) :
  2 ^ 52 <= Z.pos p < 2 ^ 53 -> -1074 <= ex ->
  shr_fexp F64.prec F64.emax (Z.pos p) ex l = (shr_record_of_loc (Z.pos p) l, ex).
Proof.
  intros Hp Hex. unfold shr_fexp. cbn [Zdigits2].
  rewrite (digits2_pos_unique p 53) by exact Hp.
  rewrite fexp_normal by lia.
  replace (53 + ex - 53 - ex) with 0 by lia. reflexivity.
Qed.

Lemma shr_fexp_54 (p : positive) (ex : Z) (l : location) :
  2 ^ 53 <= Z.pos p < 2 ^ 54 -> -1075 <= ex ->
  shr_fexp F64.prec F64.emax (Z.pos p) ex l = (shr_1 (shr_record_of_loc (Z.pos p) l), ex + 1).
Proof.
  intros Hp Hex. unfold shr_fexp. cbn [Zdigits2].
  rewrite (digits2_pos_unique p 54) by exact Hp.
  rewrite fexp_normal by lia.
  replace (54 + ex - 53 - ex) with 1 by lia. reflexivity.
Qed.

Lemma binary_round_aux_finish sx mx ex lx :
  binary_round_aux F64.prec F64.emax sx mx ex lx
  = let '(mrs', e') := shr_fexp F64.prec F64.emax mx ex lx in
    F64.finish sx (round_nearest_even (shr_m mrs') (loc_of_shr_record mrs')) e'.
Proof. reflexivity. Qed.

Lemma finish_spec (m1 e1 : Z) :
  2 ^ 52 <= m1 <= 2 ^ 53 -> -1074 <= e1 <= 970 ->
  exists pm e,
    F64.finish false m1 e1 = S754_finite false pm e
    /\ 2 ^ 52 <= Z.pos pm < 2 ^ 53
    /\ e1 <= e <= e1 + 1
    /\ Z.pos pm * 2 ^ (e - e1) = m1.
Proof.
  intros Hm He.
  destruct m1 as [|p|p]; try (exfalso; lia).
  destruct (Z.eq_dec (Z.pos p) (2 ^ 53)) as [E|N].
  - unfold F64.finish. rewrite shr_fexp_54 by lia.
    rewrite E. cbn [shr_record_of_loc].
    change (2 ^ 53) with (Z.pos (Pos.iter xO 1%positive 53)).
    cbn [Pos.iter shr_1 shr_m].
    assert (Hle : (e1 + 1 <=? F64.emax - F64.prec) = true)
      by (apply Z.leb_le; unfold F64.emax, F64.prec; lia).
    rewrite Hle. eexists _, (e1 + 1). split; [reflexivity|].
    replace (e1 + 1 - e1) with 1 by lia. repeat split; try lia; reflexivity.
  - unfold F64.finish. rewrite shr_fexp_53 by lia.
    cbn [shr_record_of_loc shr_m].
    assert (Hle : (e1 <=? F64.emax - F64.prec) = true)
      by (apply Z.leb_le; unfold F64.emax, F64.prec; lia).
    rewrite Hle. exists p, e1. split; [reflexivity|].
    rewrite Z.sub_diag. repeat split; lia.
Qed.

Lemma round_nearest_even_range (m : Z) (l : location) :
  (round_nearest_even m l = m \/ round_nearest_even m l = m + 1)
  /\ (l = loc_Exact -> round_nearest_even m l = m).
Proof.
  destruct l as [|[]]; cbn; try destruct (Z.even m); split; auto; discriminate.
Qed.

(** The rounding step, for a mantissa of 53 or 54 bits at exponent [ex]
    and a location [lx] of the exact value between [mx] and [mx + 1]:
    the result, measured in units of [2 ^ ex], lies between the even
    integers around the exact value. *)
Lemma round_aux_bracket (mx ex : Z) (lx : location) :
  2 ^ 52 <= mx < 2 ^ 54 -> -1074 <= ex <= 968 ->
  exists pm e,
    binary_round_aux F64.prec F64.emax false mx ex lx = S754_finite false pm e
    /\ 2 ^ 52 <= Z.pos pm < 2 ^ 53
    /\ ex <= e <= ex + 2
    /\ (forall L, Z.even L = true -> L <= mx -> L <= Z.pos pm * 2 ^ (e - ex))
    /\ (forall U, Z.even U = true -> mx < U -> Z.pos pm * 2 ^ (e - ex) <= U)
    /\ (lx = loc_Exact -> mx < 2 ^ 53 \/ Z.even mx = true ->
        Z.pos pm * 2 ^ (e - ex) = mx).
Proof.
  intros Hm He. rewrite binary_round_aux_finish.
  destruct mx as [|p|p]; try (exfalso; lia).
  destruct (Z.ltb_spec (Z.pos p) (2 ^ 53)) as [Hlt|Hge].
  - rewrite shr_fexp_53 by lia.
    destruct (loc_of_record (Z.pos p) lx) as [-> ->].
    destruct (round_nearest_even_range (Z.pos p) lx) as [Hr Hx].
    set (m1 := round_nearest_even (Z.pos p) lx) in *.
    destruct (finish_spec m1 ex) as (pm & e & Hf & Hpm & Hee & Hv); [lia | lia |].
    exists pm, e. split; [exact Hf|]. split; [exact Hpm|]. split; [lia|].
    rewrite Hv. repeat split.
    + intros L _ HL. lia.
    + intros U _ HU. lia.
    + intros Hl _. rewrite Hx by assumption. reflexivity.
  - rewrite shr_fexp_54 by lia.
    assert (Hshr : exists t r s,
               shr_1 (shr_record_of_loc (Z.pos p) lx) = Build_shr_record t r s
               /\ Z.pos p = 2 * t + (if r then 1 else 0)
               /\ (lx = loc_Exact -> s = false)).
    { destruct p as [q|q|]; [| |exfalso; cbn in Hge; lia];
        destruct lx as [|[]]; cbn; eexists _, _, _; (split; [reflexivity|]);
        split; try lia; try discriminate; reflexivity. }
    destruct Hshr as (t & r & s & -> & Hpt & Hs).
    cbn [shr_m].
    destruct (round_nearest_even_range t (loc_of_shr_record (Build_shr_record t r s)))
      as [Hr Hx].
    set (m1 := round_nearest_even t _) in *.
    assert (Ht : 2 ^ 52 <= t < 2 ^ 53).
    { change (2 ^ 54) with (2 * 2 ^ 53) in Hm. change (2 ^ 53) with (2 * 2 ^ 52) in Hge.
      destruct r; lia. }
    destruct (finish_spec m1 (ex + 1)) as (pm & e & Hf & Hpm & Hee & Hv); [lia | lia |].
    exists pm, e. split; [exact Hf|]. split; [exact Hpm|]. split; [lia|].
    assert (Hv2 : Z.pos pm * 2 ^ (e - ex) = 2 * m1).
    { replace (e - ex) with (Z.succ (e - (ex + 1))) by lia.
      rewrite Z.pow_succ_r by lia. lia. }
    rewrite Hv2. repeat split.
    + intros L HL HLe. apply Z.even_spec in HL as [c ->]. destruct r; lia.
    + intros U HU HUe. apply Z.even_spec in HU as [c ->]. destruct r; lia.
    + intros Hl [Hlt|Hev]; [lia|]. rewrite (Hs Hl) in Hx.
      destruct r.
      * rewrite Hpt, Z.add_comm, Z.even_add_mul_2 in Hev. discriminate.
      * cbn in Hx. rewrite Hx by reflexivity. lia.
Qed.


(** *** Integers as binary64 values *)

Lemma normal_unique (pm : positive) (j mx : Z) :
  F64.normal pm -> 2 ^ 52 <= mx < 2 ^ 53 -> 0 <= j -> Z.pos pm * 2 ^ j = mx ->
  j = 0 /\ Z.pos pm = mx.
Proof.
  unfold F64.normal. intros Hpm Hmx Hj Hv.
  destruct (Z.eq_dec j 0) as [->|Hne].
  - split; [reflexivity|]. rewrite Z.pow_0_r in Hv. lia.
  - exfalso. assert (2 ^ 1 <= 2 ^ j) by (apply Z.pow_le_mono_r; lia).
    change (2 ^ 1) with 2 in *. change (2 ^ 53) with (2 * 2 ^ 52) in *. nia.
Qed.

Lemma iter_xO (k p : positive) : Z.pos (Pos.iter xO p k) = Z.pos p * 2 ^ Z.pos k.
Proof.
  induction k as [|k IH] using Pos.peano_ind.
  - cbn. lia.
  - rewrite Pos.iter_succ, Pos2Z.inj_xO, IH, Pos2Z.inj_succ, Z.pow_succ_r by lia. lia.
Qed.

(** A positive integer below [2^53] is represented exactly, with its
    bits shifted to the top of a 53-bit mantissa. *)
Lemma of_Z_normal (n : Z) :
  0 < n < 2 ^ 53 ->
  exists pm e,
    F64.of_Z n = S754_finite false pm e
    /\ F64.normal pm /\ -52 <= e <= 0
    /\ Z.pos pm = n * 2 ^ (- e)
    /\ 2 ^ (52 + e) <= n < 2 ^ (53 + e).
Proof.
  intros Hn. destruct n as [|p|p]; try lia.
  unfold F64.of_Z, binary_normalize, binary_round.
  pose proof (digits2_pos_bounds p) as [Dlo Dhi].
  set (d := Z.pos (digits2_pos p)) in *.
  assert (Hd : 1 <= d <= 53).
  { split; [subst d; lia|].
    assert (d - 1 < 53) by (apply (Z.pow_lt_mono_r_iff 2); lia). lia. }
  rewrite fexp_normal by lia.
  assert (Hal : exists mz,
             shl_align p 0 (d + 0 - 53) = (mz, d - 53)
             /\ Z.pos mz = Z.pos p * 2 ^ (53 - d)).
  { unfold shl_align. destruct (d + 0 - 53 - 0) as [|k|k] eqn:Ek; try lia.
    - exists p. replace (d - 53) with 0 by lia. split; [reflexivity|].
      replace (53 - d) with 0 by lia. lia.
    - exists (Pos.iter xO p k). replace (d + 0 - 53) with (d - 53) by lia.
      split; [reflexivity|].
      rewrite iter_xO. f_equal. f_equal. lia. }
  destruct Hal as (mz & -> & Hmz).
  assert (Hrange : 2 ^ 52 <= Z.pos mz < 2 ^ 53).
  { rewrite Hmz.
    assert (E52 : 2 ^ 52 = 2 ^ (d - 1) * 2 ^ (53 - d)).
    { rewrite <- Z.pow_add_r by lia. f_equal. lia. }
    assert (E53 : 2 ^ 53 = 2 ^ d * 2 ^ (53 - d)).
    { rewrite <- Z.pow_add_r by lia. f_equal. lia. }
    assert (0 < 2 ^ (53 - d)) by (apply Z.pow_pos_nonneg; lia).
    split; [rewrite E52 | rewrite E53]; nia. }
  destruct (round_aux_bracket (Z.pos mz) (d - 53) loc_Exact)
    as (pm & e & Hf & Hpm & He & _ & _ & Hx); [lia | lia |].
  specialize (Hx eq_refl (or_introl (proj2 Hrange))).
  destruct (normal_unique pm (e - (d - 53)) (Z.pos mz) Hpm Hrange ltac:(lia) Hx) as [Hj Hv].
  assert (e = d - 53) by lia. subst e.
  exists pm, (d - 53). split; [exact Hf|]. split; [exact Hpm|]. split; [lia|].
  replace (- (d - 53)) with (53 - d) by lia. split; [lia|].
  replace (52 + (d - 53)) with (d - 1) by lia. replace (53 + (d - 53)) with d by lia.
  split; assumption.
Qed.

(** *** Exact results

    A value that has a 53-bit normal form is rounded to that form; hence
    the sum of two non-negative integers is exact as long as it stays
    below [2^53]. *)

(** Shifting out [k] zero bits. *)
Lemma iter_shr_1_zeros (k : positive) :
  forall m, 0 < m ->
    iter_pos shr_1 k (Build_shr_record (m * 2 ^ Z.pos k) false false)
    = Build_shr_record m false false.
Proof.
  assert (H1 : forall m, 0 < m ->
             shr_1 (Build_shr_record (m * 2) false false) = Build_shr_record m false false).
  { intros m Hm. destruct m as [|p|p]; try lia.
    replace (Z.pos p * 2) with (Z.pos (xO p)) by lia. reflexivity. }
  induction k as [k IH|k IH|]; intros m Hm; cbn [iter_pos].
  - replace (m * 2 ^ Z.pos k~1) with ((m * 2 ^ Z.pos k * 2 ^ Z.pos k) * 2).
    + rewrite H1.
      * rewrite IH, IH; [reflexivity | lia |].
        assert (0 < 2 ^ Z.pos k) by (apply Z.pow_pos_nonneg; lia). nia.
      * assert (0 < 2 ^ Z.pos k) by (apply Z.pow_pos_nonneg; lia). nia.
    + replace (Z.pos k~1) with (Z.pos k + Z.pos k + 1) by lia.
      rewrite !Z.pow_add_r, Z.pow_1_r by lia. ring.
  - replace (m * 2 ^ Z.pos k~0) with (m * 2 ^ Z.pos k * 2 ^ Z.pos k).
    + rewrite IH, IH; [reflexivity | lia |].
      assert (0 < 2 ^ Z.pos k) by (apply Z.pow_pos_nonneg; lia). nia.
    + replace (Z.pos k~0) with (Z.pos k + Z.pos k) by lia.
      rewrite Z.pow_add_r by lia. ring.
  - rewrite Z.pow_1_r. now apply H1.
Qed.

(** A value [p * 2^e] that has the normal form [N * 2^E] is rounded to
    it, whatever the sign. *)
Lemma binary_round_exact (sx : bool) (p N : positive) (e E : Z) :
  F64.normal N -> -1074 <= E <= 971 ->
  (e <= E /\ Z.pos p = Z.pos N * 2 ^ (E - e))
  \/ (E <= e /\ Z.pos p * 2 ^ (e - E) = Z.pos N) ->
  binary_round F64.prec F64.emax sx p e = S754_finite sx N E.
Proof.
  intros HN HE Hv. unfold F64.normal in HN.
  assert (Hfin : binary_round_aux F64.prec F64.emax sx (Z.pos N) E loc_Exact
                 = S754_finite sx N E).
  { unfold binary_round_aux. rewrite shr_fexp_53 by lia.
    cbn [shr_record_of_loc shr_m loc_of_shr_record round_nearest_even].
    rewrite shr_fexp_53 by lia. cbn [shr_record_of_loc shr_m].
    assert (Hle : (E <=? F64.emax - F64.prec) = true)
      by (apply Z.leb_le; unfold F64.emax, F64.prec; lia).
    now rewrite Hle. }
  assert (Hd : Z.pos (digits2_pos p) + e = 53 + E).
  { destruct Hv as [[Hee Hp] | [Hee Hp]].
    - assert (Z.pos (digits2_pos p) = 53 + (E - e)); [|lia].
      apply digits2_pos_unique. rewrite Hp.
      replace (53 + (E - e) - 1) with (52 + (E - e)) by lia.
      rewrite !Z.pow_add_r by lia.
      assert (0 < 2 ^ (E - e)) by (apply Z.pow_pos_nonneg; lia). nia.
    - assert (Z.pos (digits2_pos p) = 53 - (e - E)); [|lia].
      pose proof (digits2_pos_bounds p) as [Dlo Dhi].
      set (d := Z.pos (digits2_pos p)) in *.
      assert (Hd0 : 0 < d) by (subst d; lia).
      assert (HP : 0 < 2 ^ (e - E)) by (apply Z.pow_pos_nonneg; lia).
      assert (H1 : 2 ^ (d - 1 + (e - E)) < 2 ^ 53).
      { rewrite Z.pow_add_r by lia. nia. }
      assert (H2 : 2 ^ 52 < 2 ^ (d + (e - E))).
      { rewrite Z.pow_add_r by lia. nia. }
      apply Z.pow_lt_mono_r_iff in H1; [|lia|lia].
      apply Z.pow_lt_mono_r_iff in H2; [|lia|lia].
      lia. }
  unfold binary_round. rewrite Hd, fexp_normal by lia.
  replace (53 + E - 53) with E by lia.
  unfold shl_align.
  destruct Hv as [[Hee Hp] | [Hee Hp]].
  - destruct (E - e) as [|k|k] eqn:Ek; try lia.
    + rewrite Z.pow_0_r, Z.mul_1_r in Hp. injection Hp as ->.
      replace e with E by lia. exact Hfin.
    + (* the mantissa is shifted right by [k] zero bits *)
      unfold binary_round_aux at 1. unfold shr_fexp at 1.
      cbn [Zdigits2]. rewrite Hd, fexp_normal by lia.
      replace (53 + E - 53 - e) with (Z.pos k) by lia.
      cbn [shr shr_record_of_loc]. rewrite Hp, iter_shr_1_zeros by lia.
      cbn [shr_m loc_of_shr_record round_nearest_even].
      replace (e + Z.pos k) with E by lia.
      rewrite shr_fexp_53 by lia. cbn [shr_record_of_loc shr_m].
      assert (Hle : (E <=? F64.emax - F64.prec) = true)
        by (apply Z.leb_le; unfold F64.emax, F64.prec; lia).
      now rewrite Hle.
  - destruct (E - e) as [|k|k] eqn:Ek; try lia.
    + replace (e - E) with 0 in Hp by lia.
      rewrite Z.pow_0_r, Z.mul_1_r in Hp. injection Hp as ->.
      replace e with E by lia. exact Hfin.
    + assert (HN' : Pos.iter xO p k = N).
      { apply Pos2Z.inj. rewrite iter_xO. rewrite <- Hp. f_equal. f_equal. lia. }
      rewrite HN'. exact Hfin.
Qed.

(** [a + b] in binary64, for two non-negative integers whose sum is
    below [2^53]: the operands are aligned on the smaller exponent,
    added as integers, and the sum is rounded; nothing is lost. *)
Lemma add_of_Z (a b : Z) :
  0 <= a -> 0 <= b -> a + b < 2 ^ 53 ->
  F64.add (F64.of_Z a) (F64.of_Z b) = F64.of_Z (a + b).
Proof.
  intros Ha Hb Hab.
  destruct (Z.eq_dec a 0) as [->|Ha0].
  { rewrite Z.add_0_l. change (F64.of_Z 0) with (S754_zero false).
    destruct (Z.eq_dec b 0) as [->|Hb0]; [reflexivity|].
    destruct (of_Z_normal b) as (mb & eb & -> & _); [lia|]. reflexivity. }
  destruct (Z.eq_dec b 0) as [->|Hb0].
  { rewrite Z.add_0_r. change (F64.of_Z 0) with (S754_zero false).
    destruct (of_Z_normal a) as (ma & ea & -> & _); [lia|]. reflexivity. }
  destruct (of_Z_normal a) as (ma & ea & Ea & Hma & Hea & Hva & _); [lia|].
  destruct (of_Z_normal b) as (mb & eb & Eb & Hmb & Heb & Hvb & _); [lia|].
  destruct (of_Z_normal (a + b)) as (mc & ec & Ec & Hmc & Hec & Hvc & _); [lia|].
  rewrite Ea, Eb, Ec. unfold F64.add, SFadd.
  set (ez := Z.min ea eb).
  assert (Hez : -52 <= ez <= 0) by (subst ez; lia).
  assert (Hal : forall (m : positive) (e n : Z),
             ez <= e <= 0 -> Z.pos m = n * 2 ^ (- e) ->
             Z.pos (fst (shl_align m e ez)) = n * 2 ^ (- ez)).
  { intros m e n He Hm. unfold shl_align.
    destruct (ez - e) as [|k|k] eqn:Ek; try lia; cbn [fst].
    - replace ez with e by lia. exact Hm.
    - rewrite iter_xO, Hm, <- Z.mul_assoc, <- Z.pow_add_r by lia.
      f_equal. f_equal. lia. }
  pose proof (Hal ma ea a ltac:(subst ez; lia) Hva) as Sa.
  pose proof (Hal mb eb b ltac:(subst ez; lia) Hvb) as Sb.
  cbn [cond_Zopp Z.add binary_normalize].
  apply binary_round_exact; [exact Hmc | lia |].
  rewrite Pos2Z.inj_add, Sa, Sb, Hvc, <- Z.mul_add_distr_r.
  destruct (Z.le_gt_cases ez ec) as [Hle | Hgt].
  - left. split; [exact Hle|].
    rewrite <- Z.mul_assoc, <- Z.pow_add_r by lia. f_equal. f_equal. lia.
  - right. split; [lia|].
    rewrite <- Z.mul_assoc, <- Z.pow_add_r by lia. f_equal. f_equal. lia.
Qed.

(** [stats.strength + stats.intelligence + stats.motivation] in
    binary64, two additions from left to right, for non-negative stats
    whose total is below [2^53]. *)
Lemma totalStats_of_Z (st : Stats) :
  0 <= strength st -> 0 <= intelligence st -> 0 <= motivation st ->
  strength st + intelligence st + motivation st < 2 ^ 53 ->
  F64.add (F64.add (F64.of_Z (strength st)) (F64.of_Z (intelligence st)))
    (F64.of_Z (motivation st))
  = F64.of_Z (strength st + intelligence st + motivation st).
Proof.
  intros Hs Hi Hm Ht. rewrite !add_of_Z by lia. reflexivity.
Qed.

(** *** Negative operands

    The sign only labels the result of the rounding step. *)

Lemma binary_round_aux_opp mx ex lx :
  binary_round_aux F64.prec F64.emax true mx ex lx
  = SFopp (binary_round_aux F64.prec F64.emax false mx ex lx).
Proof.
  unfold binary_round_aux.
  destruct (shr_fexp F64.prec F64.emax mx ex lx) as [mrs' e'].
  destruct (shr_fexp F64.prec F64.emax _ e' loc_Exact) as [mrs'' e''].
  destruct (shr_m mrs''); try reflexivity.
  destruct (e'' <=? F64.emax - F64.prec); reflexivity.
Qed.

Lemma of_Z_opp (n : Z) : n <> 0 -> F64.of_Z (- n) = SFopp (F64.of_Z n).
Proof.
  intros Hn. destruct n as [|p|p]; [contradiction | |];
    unfold F64.of_Z, binary_normalize, binary_round; cbn [Z.opp];
    destruct (shl_align _ _ _) as [mz ez]; rewrite binary_round_aux_opp.
  - reflexivity.
  - destruct (binary_round_aux _ _ false _ _ _) as [[]|[]| |[] ? ?]; reflexivity.
Qed.

(** *** Division and square root

    In both lemmas the result is measured in units of [2 ^ eu], where
    [eu] is the exponent the operation computes with; a bound that is an
    even number of such units is never crossed by the rounding. *)

Lemma new_location_exact (nb k : Z) :
  new_location nb k = loc_Exact <-> k = 0.
Proof.
  unfold new_location, new_location_even, new_location_odd.
  destruct (Z.even nb); destruct (Z.eqb_spec k 0); split; intros H;
    try reflexivity; try assumption; try discriminate; contradiction.
Qed.

Lemma SFdiv_bracket (m1 m2 : positive) (e1 e2 : Z) :
  F64.normal m1 -> F64.normal m2 -> -1021 <= e1 - e2 <= 1021 ->
  exists pm e,
    SFdiv F64.prec F64.emax (S754_finite false m1 e1) (S754_finite false m2 e2)
    = S754_finite false pm e
    /\ F64.normal pm
    /\ e1 - e2 - 53 <= e <= e1 - e2 - 51
    /\ (forall L, Z.even L = true -> L * Z.pos m2 <= Z.pos m1 * 2 ^ 53 ->
                  L <= Z.pos pm * 2 ^ (e - (e1 - e2 - 53)))
    /\ (forall U, Z.even U = true -> Z.pos m1 * 2 ^ 53 <= U * Z.pos m2 ->
                  Z.pos pm * 2 ^ (e - (e1 - e2 - 53)) <= U).
Proof.
  unfold F64.normal. intros H1 H2 He.
  unfold SFdiv, SFdiv_core_binary. cbn [xorb Zdigits2].
  rewrite (digits2_pos_unique m1 53), (digits2_pos_unique m2 53) by assumption.
  rewrite fexp_normal by lia.
  replace (53 + e1 - (53 + e2) - 53) with (e1 - e2 - 53) by lia.
  rewrite Z.min_l by lia.
  replace (e1 - e2 - (e1 - e2 - 53)) with 53 by lia.
  rewrite Z.shiftl_mul_pow2 by lia.
  pose proof (Z_div_mod (Z.pos m1 * 2 ^ 53) (Z.pos m2) ltac:(lia)) as Hdm.
  destruct (Z.div_eucl (Z.pos m1 * 2 ^ 53) (Z.pos m2)) as [q r].
  destruct Hdm as [Hq Hr].
  assert (Hqr : 2 ^ 52 <= q < 2 ^ 54).
  { change (2 ^ 54) with (2 * 2 ^ 53). change (2 ^ 53) with (2 * 2 ^ 52) in *. nia. }
  destruct (round_aux_bracket q (e1 - e2 - 53) (new_location (Z.pos m2) r))
    as (pm & e & Hf & Hpm & Hee & HL & HU & HX); [assumption | lia |].
  exists pm, e. split; [exact Hf|]. split; [exact Hpm|]. split; [lia|]. split.
  - intros L HLe HLb. apply HL; [assumption | nia].
  - intros U HUe HUb.
    destruct (Z.eq_dec r 0) as [->|Hr0].
    + destruct (Z.eq_dec q U) as [->|Hne].
      * rewrite HX; [lia | now apply new_location_exact | now right].
      * apply HU; [assumption | nia].
    + apply HU; [assumption | nia].
Qed.

Lemma SFsqrt_bracket (m : positive) (E : Z) :
  F64.normal m -> -1000 <= E <= 900 ->
  exists pm e,
    SFsqrt F64.prec F64.emax (S754_finite false m E) = S754_finite false pm e
    /\ F64.normal pm
    /\ Z.div2 E - 26 <= e <= Z.div2 E - 24
    /\ (forall L, Z.even L = true ->
                  L * L <= Z.pos m * 2 ^ (E - 2 * (Z.div2 E - 26)) ->
                  L <= Z.pos pm * 2 ^ (e - (Z.div2 E - 26)))
    /\ (forall U, Z.even U = true -> 0 <= U ->
                  Z.pos m * 2 ^ (E - 2 * (Z.div2 E - 26)) <= U * U ->
                  Z.pos pm * 2 ^ (e - (Z.div2 E - 26)) <= U).
Proof.
  unfold F64.normal. intros Hm HE.
  unfold SFsqrt, SFsqrt_core_binary. cbn [Zdigits2].
  rewrite (digits2_pos_unique m 53) by assumption.
  assert (Hd2 : Z.div2 (53 + E + 1) = Z.div2 E + 27).
  { rewrite !Z.div2_div. replace (53 + E + 1) with (E + 27 * 2) by lia.
    now rewrite Z.div_add by lia. }
  rewrite Hd2.
  pose proof (Z.div2_div E) as Hdiv. pose proof (Z.div_mod E 2 ltac:(lia)) as Hmod.
  pose proof (Z.mod_pos_bound E 2 ltac:(lia)) as Hmb.
  rewrite fexp_normal by lia.
  replace (Z.div2 E + 27 - 53) with (Z.div2 E - 26) by lia.
  rewrite Z.min_l by lia.
  set (e' := Z.div2 E - 26) in *.
  set (s := E - 2 * e').
  assert (Hs : s = 52 \/ s = 53) by (subst s e'; lia).
  assert (Hshift : match s with
                   | 0 => Z.pos m
                   | Z.pos _ => Z.shiftl (Z.pos m) s
                   | Z.neg _ => 0
                   end = Z.pos m * 2 ^ s).
  { destruct Hs as [-> | ->]; rewrite Z.shiftl_mul_pow2 by lia; reflexivity. }
  rewrite Hshift.
  assert (Hm' : 2 ^ 104 <= Z.pos m * 2 ^ s < 2 ^ 106).
  { destruct Hs as [-> | ->].
    - change (2 ^ 104) with (2 ^ 52 * 2 ^ 52). change (2 ^ 106) with (2 ^ 53 * 2 ^ 53).
      change (2 ^ 53) with (2 * 2 ^ 52) in *. lia.
    - change (2 ^ 104) with (2 ^ 52 * 2 ^ 52). change (2 ^ 106) with (2 ^ 53 * 2 ^ 53).
      change (2 ^ 53) with (2 * 2 ^ 52) in *. lia. }
  set (m' := Z.pos m * 2 ^ s) in *.
  pose proof (Z.sqrtrem_spec m' ltac:(lia)) as Hsr.
  destruct (Z.sqrtrem m') as [q r]. destruct Hsr as [Hq Hr].
  assert (Hq0 : 0 <= q) by lia.
  assert (Hqr : 2 ^ 52 <= q < 2 ^ 53).
  { change (2 ^ 104) with (2 ^ 52 * 2 ^ 52) in Hm'.
    change (2 ^ 106) with (2 ^ 53 * 2 ^ 53) in Hm'. nia. }
  match goal with |- context [binary_round_aux _ _ _ _ _ ?l] => set (loc := l) end.
  assert (Hloc : r = 0 -> loc = loc_Exact).
  { intros ->. reflexivity. }
  destruct (round_aux_bracket q e' loc)
    as (pm & e & Hf & Hpm & Hee & HL & HU & HX); [lia | subst e'; lia |].
  exists pm, e. split; [exact Hf|]. split; [exact Hpm|]. split; [lia|]. split.
  - intros L HLe HLb. apply HL; [assumption | nia].
  - intros U HUe HU0 HUb.
    destruct (Z.lt_ge_cases q U) as [Hlt|Hge].
    + apply HU; assumption.
    + assert (r = 0 /\ q = U) as [-> ->] by nia.
      rewrite HX; [lia | now apply Hloc | left; lia].
Qed.

(** *** [Math.floor(Math.sqrt(xp / 100))] in binary64 *)

Lemma even_mul_pow2 (x n : Z) : 0 < n -> Z.even (x * 2 ^ n) = true.
Proof.
  intros Hn. replace n with (Z.succ (n - 1)) by lia.
  rewrite Z.pow_succ_r by lia.
  rewrite Z.even_mul, (Z.even_mul 2). cbn. now rewrite orb_true_r.
Qed.

Lemma pow2_pos (n : Z) : 0 <= n -> 0 < 2 ^ n.
Proof. intros. apply Z.pow_pos_nonneg; lia. Qed.

(** With [k] the integer square root of [xp / 100]: the quotient lies
    between [k^2] and [(k+1)^2 - 2^-10], both on the grid of the rounded
    quotient, and its square root between [k] and [k + 1 - 2^-24], both
    on the grid of the rounded root; so the floor is [k]. *)
Lemma floor_sqrt_div_100 (xp : Z) :
  0 < xp < 2 ^ 31 ->
  F64.floor (F64.sqrt (F64.div (F64.of_Z xp) (F64.of_Z 100))) = Some (Z.sqrt (xp / 100)).
Proof.
  intros Hxp.
  set (k := Z.sqrt (xp / 100)).
  assert (Hq : 0 <= xp / 100) by (apply Z.div_pos; lia).
  pose proof (Z.sqrt_spec (xp / 100) Hq) as [Hklo Hkhi]. fold k in Hklo, Hkhi.
  pose proof (Z.sqrt_nonneg (xp / 100)) as Hk0. fold k in Hk0.
  assert (Hlo : 100 * (k * k) <= xp).
  { pose proof (Z.mul_div_le xp 100). lia. }
  assert (Hhi : xp + 1 <= 100 * ((k + 1) * (k + 1))).
  { pose proof (Z.mod_pos_bound xp 100). pose proof (Z.div_mod xp 100).
    unfold Z.succ in Hkhi. lia. }
  assert (Hk : k + 1 <= 2 ^ 13).
  { change (2 ^ 31) with 2147483648 in Hxp. change (2 ^ 13) with 8192. nia. }
  clearbody k. clear Hklo Hkhi Hq.
  (* the operands *)
  destruct (of_Z_normal xp) as (m1 & e1 & -> & Hm1 & He1 & Hv1 & Hr1);
    [change (2 ^ 53) with 9007199254740992; change (2 ^ 31) with 2147483648 in Hxp; lia|].
  assert (Ha : e1 <= -22).
  { destruct (Z.le_gt_cases e1 (-22)); [assumption|].
    assert (2 ^ 31 <= 2 ^ (52 + e1)) by (apply Z.pow_le_mono_r; lia). lia. }
  set (a := - e1) in *.
  replace e1 with (- a) in * by (subst a; lia).
  change (F64.of_Z 100) with (S754_finite false 7036874417766400 (-46)).
  (* the quotient *)
  unfold F64.div.
  destruct (SFdiv_bracket m1 7036874417766400 (- a) (-46) Hm1)
    as (pm & e & -> & Hpm & He & HL & HU); [unfold F64.normal; lia | lia |].
  replace (- a - -46 - 53) with (- (a + 7)) in * by lia.
  set (c := a + 7) in *.
  assert (Hc : 29 <= c <= 59) by (subst c a; lia).
  set (j := e - - c) in *.
  assert (Hj : 0 <= j <= 2) by (subst j; lia).
  assert (HPc : 0 < 2 ^ c) by (apply pow2_pos; lia).
  assert (HPa : 2 ^ c = 2 ^ a * 2 ^ 7).
  { subst c. rewrite Z.pow_add_r by lia. reflexivity. }
  assert (HLk : k * k * 2 ^ c <= Z.pos pm * 2 ^ j).
  { apply HL; [apply even_mul_pow2; lia|].
    rewrite HPa, Hv1. change (2 ^ 7) with 128. change (2 ^ 53) with 9007199254740992.
    replace (- - a) with a by lia.
    assert (0 < 2 ^ a) by (apply pow2_pos; lia). nia. }
  assert (HUk : Z.pos pm * 2 ^ j <= ((k + 1) * (k + 1) * 2 ^ 10 - 1) * 2 ^ (c - 10)).
  { apply HU; [apply even_mul_pow2; lia|].
    rewrite Hv1. replace (- - a) with a by lia.
    replace a with ((c - 10) + 3) at 1 by (subst c; lia).
    rewrite Z.pow_add_r by lia.
    assert (0 < 2 ^ (c - 10)) by (apply pow2_pos; lia).
    change (2 ^ 3) with 8. change (2 ^ 53) with 9007199254740992. change (2 ^ 10) with 1024.
    nia. }
  clear HL HU.
  (* the square root *)
  unfold F64.sqrt.
  destruct (SFsqrt_bracket pm e Hpm) as (pm2 & e2 & -> & Hpm2 & He2 & HL2 & HU2); [lia|].
  set (h := - (Z.div2 e - 26)) in *.
  replace (Z.div2 e - 26) with (- h) in * by (subst h; lia).
  pose proof (Z.div2_div e) as Hdiv. pose proof (Z.div_mod e 2 ltac:(lia)) as Hmod.
  pose proof (Z.mod_pos_bound e 2 ltac:(lia)) as Hmb.
  set (s := e - 2 * - h) in *.
  assert (Hs : 52 <= s <= 53) by (subst s h; lia).
  assert (Hh : 2 * h = s + c - j) by (subst s j; lia).
  assert (Hh40 : 40 <= h) by lia.
  set (i := e2 - - h) in *.
  assert (Hi : 0 <= i <= 2) by (subst i; lia).
  (* 2^(2h) = 2^c * 2^(2h - c), 2^s = 2^j * 2^(2h - c) *)
  set (g := 2 * h - c).
  assert (Hg : 20 <= g) by (subst g; lia).
  assert (HPg : 0 < 2 ^ g) by (apply pow2_pos; lia).
  assert (Ehh : 2 ^ h * 2 ^ h = 2 ^ c * 2 ^ g).
  { rewrite <- !Z.pow_add_r by lia. f_equal. subst g. lia. }
  assert (Es : 2 ^ s = 2 ^ j * 2 ^ g).
  { rewrite <- Z.pow_add_r by lia. f_equal. subst g. lia. }
  assert (HL2k : k * 2 ^ h <= Z.pos pm2 * 2 ^ i).
  { apply HL2; [apply even_mul_pow2; lia|].
    rewrite Es. 
    replace (k * 2 ^ h * (k * 2 ^ h)) with (k * k * (2 ^ h * 2 ^ h)) by ring.
    rewrite Ehh. nia. }
  assert (Eh : 2 ^ h = 2 ^ 24 * 2 ^ (h - 24)).
  { rewrite <- Z.pow_add_r by lia. f_equal. lia. }
  assert (HPh : 0 < 2 ^ (h - 24)) by (apply pow2_pos; lia).
  assert (HU2k : Z.pos pm2 * 2 ^ i <= ((k + 1) * 2 ^ 24 - 1) * 2 ^ (h - 24)).
  { apply HU2; [apply even_mul_pow2; lia | change (2 ^ 24) with 16777216; nia |].
    rewrite Es.
    (* pm * 2^j * 2^g <= ((k+1)^2 2^10 - 1) 2^(c-10) 2^g *)
    assert (Ec : 2 ^ (c - 10) * 2 ^ g = 2 ^ 38 * (2 ^ (h - 24) * 2 ^ (h - 24))).
    { rewrite <- !Z.pow_add_r by lia. f_equal. subst g. lia. }
    assert (H1 : Z.pos pm * (2 ^ j * 2 ^ g)
                 <= ((k + 1) * (k + 1) * 2 ^ 10 - 1) * (2 ^ (c - 10) * 2 ^ g)) by nia.
    rewrite Ec in H1.
    eapply Z.le_trans; [exact H1|].
    set (T := 2 ^ (h - 24) * 2 ^ (h - 24)).
    assert (0 < T) by (subst T; nia).
    replace (((k + 1) * 2 ^ 24 - 1) * 2 ^ (h - 24)
             * (((k + 1) * 2 ^ 24 - 1) * 2 ^ (h - 24)))
      with ((((k + 1) * 2 ^ 24 - 1) * ((k + 1) * 2 ^ 24 - 1)) * T)
      by (subst T; ring).
    change (2 ^ 10) with 1024. change (2 ^ 38) with 274877906944.
    change (2 ^ 24) with 16777216. change (2 ^ 13) with 8192 in Hk.
    nia. }
  (* the F64.floor *)
  unfold F64.floor.
  assert (He2neg : e2 < 0) by lia.
  destruct (Z.leb_spec 0 e2); [lia|].
  f_equal.
  assert (Ehi : 2 ^ h = 2 ^ (- e2) * 2 ^ i).
  { rewrite <- Z.pow_add_r by lia. f_equal. subst i. lia. }
  assert (HPe : 0 < 2 ^ (- e2)) by (apply pow2_pos; lia).
  assert (HPi : 0 < 2 ^ i) by (apply pow2_pos; lia).
  assert (Hlow : k * 2 ^ (- e2) <= Z.pos pm2).
  { rewrite Ehi in HL2k. nia. }
  assert (Hupp : Z.pos pm2 < (k + 1) * 2 ^ (- e2)).
  { assert (Z.pos pm2 * 2 ^ i < (k + 1) * 2 ^ h).
    { rewrite Eh. change (2 ^ 24) with 16777216 in *. nia. }
    rewrite Ehi in H0. nia. }
  symmetry. apply Z.div_unique with (r := Z.pos pm2 - k * 2 ^ (- e2)); [|lia].
  left. lia.
Qed.

(** The level of a negative xp is [NaN]: the quotient is negative and
    has no square root. *)
Lemma F64_calculateLevel_negative (xp : Z) :
  - 2 ^ 53 < xp < 0 -> F64.calculateLevel xp = None.
Proof.
  intros Hxp. unfold F64.calculateLevel.
  pose proof (of_Z_opp (- xp) ltac:(lia)) as E.
  rewrite Z.opp_involutive in E. rewrite E.
  destruct (of_Z_normal (- xp)) as (m1 & e1 & -> & Hm1 & He1 & _); [lia|].
  change (F64.of_Z 100) with (S754_finite false 7036874417766400 (-46)).
  destruct (SFdiv_bracket m1 7036874417766400 e1 (-46) Hm1)
    as (pm & e & Hdiv & _); [unfold F64.normal; lia | lia |].
  cbn [SFopp negb]. unfold F64.div, SFdiv in *. cbn [xorb] in *.
  destruct (SFdiv_core_binary _ _ _ _ _ _) as [[mz ez] lz].
  rewrite binary_round_aux_opp, Hdiv. reflexivity.
Qed.

(** *** The product [r * 3]

    [Math.random() * statKeys.length] for a normal [r = m * 2^e] below
    1.  The mantissa of the product has 105 or 106 bits, of which the
    last 51 are zero; the rounding step shifts them out and rounds on
    the one or two bits that remain. *)

Lemma iter_pos_52 {A} (f : A -> A) (x : A) :
  iter_pos f 52 x = f (iter_pos f 51 x).
Proof. reflexivity. Qed.

Lemma iter_pos_53 {A} (f : A -> A) (x : A) :
  iter_pos f 53 x = f (f (iter_pos f 51 x)).
Proof. reflexivity. Qed.

Lemma binary_round_aux_shr_fexp sx mx ex lx mx' ex' lx' :
  shr_fexp F64.prec F64.emax mx ex lx = shr_fexp F64.prec F64.emax mx' ex' lx' ->
  binary_round_aux F64.prec F64.emax sx mx ex lx
  = binary_round_aux F64.prec F64.emax sx mx' ex' lx'.
Proof. intros H. unfold binary_round_aux. now rewrite H. Qed.

(** The product of a normal value [m * 2^e] by 3, measured in units of
    [2^e]: the rounding never crosses a multiple of 4 units. *)
Lemma mul_3_bracket (m : positive) (e : Z) :
  F64.normal m -> -1074 <= e <= 900 ->
  exists pm e',
    F64.mul (S754_finite false m e) (F64.of_Z 3) = S754_finite false pm e'
    /\ F64.normal pm
    /\ e <= e' <= e + 3
    /\ (forall L, Z.even L = true -> Z.even (L / 2) = true -> L <= 3 * Z.pos m ->
                  L <= Z.pos pm * 2 ^ (e' - e))
    /\ (forall U, Z.even U = true -> Z.even (U / 2) = true -> 3 * Z.pos m < U ->
                  Z.pos pm * 2 ^ (e' - e) <= U).
Proof.
  unfold F64.normal. intros Hm He.
  change (F64.of_Z 3) with (S754_finite false 6755399441055744 (-51)).
  unfold F64.mul, SFmul. cbn [xorb].
  set (T := (3 * m)%positive).
  assert (HT : Z.pos T = 3 * Z.pos m) by (subst T; lia).
  assert (HM : Z.pos (m * 6755399441055744) = Z.pos T * 2 ^ 51).
  { rewrite Pos2Z.inj_mul, HT. change (2 ^ 51) with 2251799813685248. lia. }
  rewrite <- HT.
  assert (HTr : 2 ^ 53 <= Z.pos T < 2 ^ 55).
  { rewrite HT. change (2 ^ 53) with (2 * 2 ^ 52) in *. change (2 ^ 55) with (8 * 2 ^ 52). lia. }
  clearbody T.
  destruct (Z.ltb_spec (Z.pos T) (2 ^ 54)) as [Hlt | Hge].
  - (* 54 bits *)
    assert (E : binary_round_aux F64.prec F64.emax false
                  (Z.pos (m * 6755399441055744)) (e + -51) loc_Exact
                = binary_round_aux F64.prec F64.emax false (Z.pos T) e loc_Exact).
    { apply binary_round_aux_shr_fexp. unfold shr_fexp. cbn [Zdigits2].
      rewrite (digits2_pos_unique (m * 6755399441055744) 105).
      2:{ rewrite HM. change (2 ^ (105 - 1)) with (2 ^ 53 * 2 ^ 51).
          change (2 ^ 105) with (2 ^ 54 * 2 ^ 51). nia. }
      rewrite (digits2_pos_unique T 54) by (split; [apply HTr | exact Hlt]).
      rewrite !fexp_normal by lia.
      replace (105 + (e + -51) - 53 - (e + -51)) with 52 by lia.
      replace (54 + e - 53 - e) with 1 by lia.
      cbn [shr shr_record_of_loc]. rewrite iter_pos_52.
      rewrite HM. change 51 with (Z.pos 51). rewrite iter_shr_1_zeros by lia.
      f_equal. lia. }
    rewrite E.
    destruct (round_aux_bracket (Z.pos T) e loc_Exact)
      as (pm & e' & Hf & Hpm & Hee & HL & HU & _); [lia | lia |].
    exists pm, e'. split; [exact Hf|]. split; [exact Hpm|]. split; [lia|]. split.
    + intros L HL1 _ HL2. now apply HL.
    + intros U HU1 _ HU2. now apply HU.
  - (* 55 bits *)
    destruct T as [q|q|]; [| |lia].
    + (* odd *)
      assert (Hq : 2 ^ 53 <= Z.pos q < 2 ^ 54).
      { change (2 ^ 54) with (2 * 2 ^ 53) in *. change (2 ^ 55) with (4 * 2 ^ 53) in *. lia. }
      assert (E : binary_round_aux F64.prec F64.emax false
                    (Z.pos (m * 6755399441055744)) (e + -51) loc_Exact
                  = binary_round_aux F64.prec F64.emax false (Z.pos q) (e + 1)
                      (loc_Inexact Eq)).
      { apply binary_round_aux_shr_fexp. unfold shr_fexp. cbn [Zdigits2].
        rewrite (digits2_pos_unique (m * 6755399441055744) 106).
        2:{ rewrite HM. change (2 ^ (106 - 1)) with (2 ^ 54 * 2 ^ 51).
            change (2 ^ 106) with (2 ^ 55 * 2 ^ 51). nia. }
        rewrite (digits2_pos_unique q 54) by exact Hq.
        rewrite !fexp_normal by lia.
        replace (106 + (e + -51) - 53 - (e + -51)) with 53 by lia.
        replace (54 + (e + 1) - 53 - (e + 1)) with 1 by lia.
        cbn [shr shr_record_of_loc]. rewrite iter_pos_53.
        rewrite HM. change 51 with (Z.pos 51). rewrite iter_shr_1_zeros by lia.
        cbn [iter_pos]. f_equal. lia. }
      rewrite E.
      destruct (round_aux_bracket (Z.pos q) (e + 1) (loc_Inexact Eq))
        as (pm & e' & Hf & Hpm & Hee & HL & HU & _); [lia | lia |].
      exists pm, e'. split; [exact Hf|]. split; [exact Hpm|]. split; [lia|].
      assert (HP : 2 ^ (e' - e) = 2 * 2 ^ (e' - (e + 1))).
      { replace (e' - e) with (Z.succ (e' - (e + 1))) by lia.
        rewrite Z.pow_succ_r by lia. reflexivity. }
      rewrite HP. split.
      * intros L HL1 HL2 HL3. apply Z.even_spec in HL1 as [c ->].
        rewrite Z.mul_comm, Z.div_mul in HL2 by lia.
        specialize (HL c HL2 ltac:(lia)). lia.
      * intros U HU1 HU2 HU3. apply Z.even_spec in HU1 as [c ->].
        rewrite Z.mul_comm, Z.div_mul in HU2 by lia.
        specialize (HU c HU2 ltac:(lia)). lia.
    + (* even *)
      assert (Hq : 2 ^ 53 <= Z.pos q < 2 ^ 54).
      { change (2 ^ 54) with (2 * 2 ^ 53) in *. change (2 ^ 55) with (4 * 2 ^ 53) in *. lia. }
      assert (E : binary_round_aux F64.prec F64.emax false
                    (Z.pos (m * 6755399441055744)) (e + -51) loc_Exact
                  = binary_round_aux F64.prec F64.emax false (Z.pos q) (e + 1) loc_Exact).
      { apply binary_round_aux_shr_fexp. unfold shr_fexp. cbn [Zdigits2].
        rewrite (digits2_pos_unique (m * 6755399441055744) 106).
        2:{ rewrite HM. change (2 ^ (106 - 1)) with (2 ^ 54 * 2 ^ 51).
            change (2 ^ 106) with (2 ^ 55 * 2 ^ 51). nia. }
        rewrite (digits2_pos_unique q 54) by exact Hq.
        rewrite !fexp_normal by lia.
        replace (106 + (e + -51) - 53 - (e + -51)) with 53 by lia.
        replace (54 + (e + 1) - 53 - (e + 1)) with 1 by lia.
        cbn [shr shr_record_of_loc]. rewrite iter_pos_53.
        rewrite HM. change 51 with (Z.pos 51). rewrite iter_shr_1_zeros by lia.
        cbn [iter_pos]. f_equal. lia. }
      rewrite E.
      destruct (round_aux_bracket (Z.pos q) (e + 1) loc_Exact)
        as (pm & e' & Hf & Hpm & Hee & HL & HU & _); [lia | lia |].
      exists pm, e'. split; [exact Hf|]. split; [exact Hpm|]. split; [lia|].
      assert (HP : 2 ^ (e' - e) = 2 * 2 ^ (e' - (e + 1))).
      { replace (e' - e) with (Z.succ (e' - (e + 1))) by lia.
        rewrite Z.pow_succ_r by lia. reflexivity. }
      rewrite HP. split.
      * intros L HL1 HL2 HL3. apply Z.even_spec in HL1 as [c ->].
        rewrite Z.mul_comm, Z.div_mul in HL2 by lia.
        specialize (HL c HL2 ltac:(lia)). lia.
      * intros U HU1 HU2 HU3. apply Z.even_spec in HU1 as [c ->].
        rewrite Z.mul_comm, Z.div_mul in HU2 by lia.
        specialize (HU c HU2 ltac:(lia)). lia.
Qed.

Lemma even_4 (k : Z) : Z.even (4 * k) = true /\ Z.even (4 * k / 2) = true.
Proof.
  split.
  - replace (4 * k) with (2 * (2 * k)) by lia. now rewrite Z.even_mul.
  - replace (4 * k) with (2 * k * 2) by lia. rewrite Z.div_mul by lia.
    now rewrite Z.even_mul.
Qed.

(** [Math.floor(r * 3)] for a normal [r = m * 2^e] below 1, with [W]
    the number of units of [2^e] in 1 and [A = W / 2^53]; [4 * k] is a
    bound the product stays below. *)
Lemma floor_mul_3_below (m : positive) (e k : Z) :
  F64.normal m -> -1074 <= e <= -53 ->
  let A := 2 ^ (- e - 53) in
  let W := 2 ^ 53 * A in
  3 * Z.pos m < 4 * k -> 4 * k < 3 * W ->
  exists i,
    F64.floor (F64.mul (S754_finite false m e) (F64.of_Z 3)) = Some i
    /\ 0 <= i <= 2
    /\ (3 * Z.pos m <= W - 6 * A -> i = 0)
    /\ (W <= 3 * Z.pos m -> 3 * Z.pos m <= 2 * W - 6 * A -> i = 1)
    /\ (2 * W <= 3 * Z.pos m -> i = 2).
Proof.
  intros Hm He A W Hk1 Hk2.
  assert (HA : 1 <= A).
  { subst A. change 1 with (2 ^ 0). apply Z.pow_le_mono_r; lia. }
  destruct (mul_3_bracket m e Hm ltac:(lia)) as (pm & e' & -> & Hpm & Hee & HL & HU).
  unfold F64.floor. destruct (Z.leb_spec 0 e'); [lia|].
  set (P := 2 ^ (- e')). set (c := 2 ^ (e' - e)) in *.
  assert (HP : 0 < P) by (subst P; apply pow2_pos; lia).
  assert (Hc : 0 < c) by (subst c; apply pow2_pos; lia).
  assert (HW : W = P * c).
  { subst W A P c. rewrite <- !Z.pow_add_r by lia. f_equal. lia. }
  set (V := Z.pos pm * c) in *.
  assert (Hdiv : forall j, j * W <= V -> V < (j + 1) * W -> Z.pos pm / P = j).
  { intros j H1 H2. symmetry.
    apply Z.div_unique with (r := Z.pos pm - j * P); [left; subst V; nia | lia]. }
  assert (Hcap : V < 3 * W).
  { destruct (even_4 k) as [E1 E2]. specialize (HU (4 * k) E1 E2 Hk1). lia. }
  assert (H0 : 0 <= V) by (subst V; nia).
  assert (Hlow : forall j, 0 <= j -> j * W <= 3 * Z.pos m -> j * W <= V).
  { intros j Hj H1. replace (j * W) with (4 * (j * 2 ^ 51 * A)) in *
      by (subst W; change (2 ^ 53) with (4 * 2 ^ 51); ring).
    destruct (even_4 (j * 2 ^ 51 * A)) as [E1 E2]. now apply HL. }
  assert (Hupp : forall j, 0 <= j -> 3 * Z.pos m <= (j + 1) * W - 6 * A ->
                           V < (j + 1) * W).
  { intros j Hj H1.
    assert (E : (j + 1) * W - 4 * A = 4 * ((j + 1) * 2 ^ 51 * A - A))
      by (subst W; change (2 ^ 53) with (4 * 2 ^ 51); ring).
    destruct (even_4 ((j + 1) * 2 ^ 51 * A - A)) as [E1 E2].
    rewrite <- E in E1, E2.
    specialize (HU ((j + 1) * W - 4 * A) E1 E2 ltac:(lia)). lia. }
  exists (Z.pos pm / P). split; [reflexivity|].
  split; [|split; [|split]].
  - destruct (Z.lt_ge_cases V W); [rewrite (Hdiv 0); lia|].
    destruct (Z.lt_ge_cases V (2 * W)); [rewrite (Hdiv 1); lia|].
    rewrite (Hdiv 2); lia.
  - intros H1. apply (Hdiv 0); [lia|]. apply (Hupp 0); lia.
  - intros H1 H2. apply (Hdiv 1); [|apply (Hupp 1); lia].
    specialize (Hlow 1 ltac:(lia) ltac:(lia)). lia.
  - intros H1. apply (Hdiv 2); [|lia].
    specialize (Hlow 2 ltac:(lia) ltac:(lia)). lia.
Qed.

Lemma floor_mul_3 (m : positive) (e : Z) :
  F64.normal m -> -1074 <= e <= -53 ->
  let A := 2 ^ (- e - 53) in
  let W := 2 ^ 53 * A in
  exists i,
    F64.floor (F64.mul (S754_finite false m e) (F64.of_Z 3)) = Some i
    /\ 0 <= i <= 2
    /\ (3 * Z.pos m <= W - 6 * A -> i = 0)
    /\ (W <= 3 * Z.pos m -> 3 * Z.pos m <= 2 * W - 6 * A -> i = 1)
    /\ (2 * W <= 3 * Z.pos m -> i = 2).
Proof.
  intros Hm He A W. pose proof Hm as Hm'. unfold F64.normal in Hm'.
  destruct (Z.eq_dec e (-53)) as [-> | Ne].
  - destruct (Z.eq_dec (Z.pos m) (2 ^ 53 - 1)) as [Emax | Nmax].
    + (* the largest value below 1 *)
      assert (m = 9007199254740991%positive) as -> by (apply Pos2Z.inj; exact Emax).
      exists 2. split; [vm_compute; reflexivity|].
      subst W A. cbn. repeat split; intros; lia.
    + apply (floor_mul_3_below m (-53) (3 * 2 ^ 51 - 1) Hm He);
        change (2 ^ (- -53 - 53)) with 1;
        change (2 ^ 53) with 9007199254740992 in *;
        change (2 ^ 51) with 2251799813685248; lia.
  - assert (HA : 2 <= 2 ^ (- e - 53)).
    { change 2 with (2 ^ 1) at 1. apply Z.pow_le_mono_r; lia. }
    apply (floor_mul_3_below m e (2 ^ 52 * 2 ^ (- e - 53)) Hm He);
      change (2 ^ 53) with 9007199254740992 in *;
      change (2 ^ 52) with 4503599627370496 in *; lia.
Qed.

(** *** [totalStats / 30] against the thresholds in binary64 *)

Lemma ltb_finite_ge (pm pb : positive) (e eb : Z) :
  eb < e \/ (e = eb /\ Z.pos pb <= Z.pos pm) ->
  F64.ltb (S754_finite false pm e) (S754_finite false pb eb) = false.
Proof.
  intros H. unfold F64.ltb, SFltb, SFcompare.
  destruct H as [H | [-> H]].
  - apply Z.compare_gt_iff in H. now rewrite H.
  - rewrite Z.compare_refl.
    change (Pos.compare_cont Eq pm pb) with (Pos.compare pm pb).
    destruct (Pos.compare_spec pm pb); try reflexivity. lia.
Qed.

(** The quotient [t / 30] in binary64 is at least [c * 2^-1] as soon as
    [t >= 15 c], for [c = 1] and [c = 3]. *)
Lemma div_30_ge (t c : Z) (pb : positive) (eb : Z) :
  0 < t < 2 ^ 53 -> 15 * c <= t ->
  (c = 1 /\ Z.pos pb = 2 ^ 52 /\ eb = -53)
  \/ (c = 3 /\ Z.pos pb = 3 * 2 ^ 51 /\ eb = -52) ->
  F64.ltb (F64.div (F64.of_Z t) (F64.of_Z 30)) (S754_finite false pb eb) = false.
Proof.
  intros Ht Hc Hb.
  destruct (of_Z_normal t Ht) as (m1 & e1 & -> & Hm1 & He1 & Hv1 & _).
  change (F64.of_Z 30) with (S754_finite false 8444249301319680 (-48)).
  unfold F64.div.
  destruct (SFdiv_bracket m1 8444249301319680 e1 (-48) Hm1)
    as (pm & e & -> & Hpm & He & HL & _); [unfold F64.normal; lia | lia |].
  apply ltb_finite_ge.
  replace (e1 - -48 - 53) with (e1 - 5) in * by lia.
  set (j := e - (e1 - 5)) in *.
  assert (Hj : 0 <= j <= 2) by (subst j; lia).
  set (a := - e1) in *.
  assert (Ha : 0 <= a <= 52) by (subst a; lia).
  assert (HPa : 0 < 2 ^ a) by (apply pow2_pos; lia).
  assert (HLc : c * 2 ^ 4 * 2 ^ a <= Z.pos pm * 2 ^ j).
  { apply HL.
    - rewrite <- Z.mul_assoc, Z.mul_comm, <- Z.mul_assoc.
      rewrite Z.even_mul. change (Z.even (2 ^ 4)) with true. reflexivity.
    - rewrite Hv1. change (2 ^ 4) with 16. change (2 ^ 53) with 9007199254740992. nia. }
  unfold F64.normal in Hpm.
  assert (He1a : e1 = - a) by (subst a; lia).
  assert (Hee : e = - a - 5 + j) by (subst j; lia).
  clearbody j a. subst e1 e. clear HL Hv1 Hm1 He1 He.
  assert (Hj3 : j = 0 \/ j = 1 \/ j = 2) by lia.
  destruct Hb as [(-> & Hpb & ->) | (-> & Hpb & ->)]; rewrite Hpb.
  - (* 0.5 *)
    destruct (Z.le_gt_cases a (48 + j)) as [Hle|Hgt]; [|exfalso].
    + destruct (Z.eq_dec a (48 + j)) as [->|]; [right; split; lia | left; lia].
    + assert (2 ^ (49 + j) <= 2 ^ a) by (apply Z.pow_le_mono_r; lia).
      change (2 ^ 4) with 16 in *. change (2 ^ 53) with 9007199254740992 in *.
      destruct Hj3 as [-> | [-> | ->]]; cbn in H; lia.
  - (* 1.5 *)
    destruct (Z.le_gt_cases a (46 + j)) as [Hle|Hgt]; [left; lia|].
    destruct (Z.eq_dec a (47 + j)) as [->|Hne].
    + right. split; [lia|].
      rewrite Z.pow_add_r in HLc by lia.
      change (2 ^ 4) with 16 in *. change (2 ^ 47) with 140737488355328 in *.
      change (2 ^ 51) with 2251799813685248.
      assert (0 < 2 ^ j) by (apply pow2_pos; lia). nia.
    + exfalso.
      assert (2 ^ (48 + j) <= 2 ^ a) by (apply Z.pow_le_mono_r; lia).
      change (2 ^ 4) with 16 in *. change (2 ^ 53) with 9007199254740992 in *.
      destruct Hj3 as [-> | [-> | ->]]; cbn in H; lia.
Qed.

Lemma all_from_spec (p : Z -> bool) (count : nat) :
  forall lo, F64.all_from p lo count = true ->
  forall n, lo <= n < lo + Z.of_nat count -> p n = true.
Proof.
  induction count as [|k IH]; intros lo H n Hn; [lia|].
  cbn [F64.all_from] in H. apply andb_true_iff in H as [H0 Hrest].
  destruct (Z.eq_dec n lo) as [->|Hne]; [assumption|].
  apply (IH (lo + 1)); [assumption | lia].
Qed.

Lemma option_Z_eqb_eq (a : option Z) (b : Z) : F64.option_Z_eqb a b = true -> a = Some b.
Proof.
  destruct a as [v|]; cbn; [|discriminate]. intros H. apply Z.eqb_eq in H. now subst.
Qed.

(** ** C2: the leveling function *)

Lemma calculateLevel_isqrt (xp : Z) :
  0 <= xp -> calculateLevel xp = Some (Z.sqrt (xp / 100) + 1).
Proof.
  intros Hxp. unfold calculateLevel, JS.Math_floor_sqrt.
  assert (Hb : Qle_bool 0 (inject_Z xp / 100) = true).
  { apply Qle_bool_iff. unfold Qle; simpl. lia. }
  rewrite Hb, Qfloor_div_100. reflexivity.
Qed.

Lemma calculateLevel_negative (xp : Z) : xp < 0 -> calculateLevel xp = None.
Proof.
  intros Hxp. unfold calculateLevel, JS.Math_floor_sqrt.
  assert (Hb : Qle_bool 0 (inject_Z xp / 100) = false).
  { apply not_true_is_false. rewrite Qle_bool_iff. unfold Qle; simpl. lia. }
  now rewrite Hb.
Qed.

(** The integer square root of [xp / 100] is the floor of the real
    square root of the real quotient. *)
Lemma floor_sqrt_real (xp : Z) :
  0 <= xp -> Int_part (sqrt (IZR xp / 100)) = Z.sqrt (xp / 100).
Proof.
  intros Hxp. symmetry. apply Int_part_spec.
  set (k := Z.sqrt (xp / 100)).
  assert (Hq : 0 <= xp / 100) by (apply Z.div_pos; lia).
  pose proof (Z.sqrt_spec (xp / 100) Hq) as [Hlo Hhi]. fold k in Hlo, Hhi.
  pose proof (Z.sqrt_nonneg (xp / 100)) as Hk. fold k in Hk.
  assert (Hlo' : 100 * (k * k) <= xp).
  { pose proof (Z.mul_div_le xp 100). lia. }
  assert (Hhi' : xp < 100 * ((k + 1) * (k + 1))).
  { pose proof (Z.mod_pos_bound xp 100). pose proof (Z.div_mod xp 100).
    unfold Z.succ in Hhi. lia. }
  apply IZR_le in Hlo', Hk. apply IZR_lt in Hhi'.
  rewrite !mult_IZR in Hlo', Hhi'. rewrite !plus_IZR in Hhi'.
  assert (H1 : (IZR k <= sqrt (IZR xp / 100))%R).
  { rewrite <- (sqrt_square (IZR k)) by assumption.
    apply sqrt_le_1_alt. lra. }
  assert (H2 : (sqrt (IZR xp / 100) < IZR k + 1)%R).
  { rewrite <- (sqrt_square (IZR k + 1)) by lra.
    apply sqrt_lt_1_alt. split.
    { apply IZR_le in Hxp. lra. }
    lra. }
  split; lra.
Qed.

Lemma calculateLevel_mono (a b : Z) :
  0 <= a <= b ->
  exists la lb, calculateLevel a = Some la /\ calculateLevel b = Some lb /\ la <= lb.
Proof.
  intros [Ha Hab].
  exists (Z.sqrt (a / 100) + 1), (Z.sqrt (b / 100) + 1).
  repeat split; try (apply calculateLevel_isqrt; lia).
  apply Z.add_le_mono_r, Z.sqrt_le_mono, Z.div_le_mono; lia.
Qed.

(** On the xp of the 32-bit [xp] column, binary64 arithmetic gives the
    level of the exact reading. *)
Lemma F64_calculateLevel_isqrt (xp : Z) :
  0 <= xp < 2 ^ 31 -> F64.calculateLevel xp = Some (Z.sqrt (xp / 100) + 1).
Proof.
  intros Hxp. destruct (Z.eq_dec xp 0) as [->|Hne]; [reflexivity|].
  unfold F64.calculateLevel. rewrite floor_sqrt_div_100 by lia. reflexivity.
Qed.

Lemma F64_calculateLevel_exact (xp : Z) :
  - 2 ^ 31 <= xp < 2 ^ 31 -> F64.calculateLevel xp = calculateLevel xp.
Proof.
  intros Hxp. destruct (Z.lt_ge_cases xp 0).
  - rewrite calculateLevel_negative, F64_calculateLevel_negative; [reflexivity | | lia].
    change (2 ^ 31) with 2147483648 in Hxp. change (2 ^ 53) with 9007199254740992. lia.
  - rewrite calculateLevel_isqrt, F64_calculateLevel_isqrt by lia. reflexivity.
Qed.

(** C2.  For every integer [xp] from 0 to [2^31 - 1], the range of the
    [xp] column, [calculateLevel xp], computed in binary64 as the source
    computes it, is [floor(sqrt(xp / 100)) + 1] (the floor and the
    square root taken over the reals); on that range it is monotonic
    non-decreasing in [xp]; and [calculateLevel 0 = 1],
    [calculateLevel 100 = 2], [calculateLevel 400 = 3]. *)
Theorem calculateLevel_formula :
  (forall xp, 0 <= xp < 2 ^ 31 -> F64.calculateLevel xp = Some (Spec.levelFromXP xp))
  /\ (forall a b, 0 <= a <= b -> b < 2 ^ 31 ->
        exists la lb,
          F64.calculateLevel a = Some la /\ F64.calculateLevel b = Some lb /\ la <= lb)
  /\ F64.calculateLevel 0 = Some 1
  /\ F64.calculateLevel 100 = Some 2
  /\ F64.calculateLevel 400 = Some 3.
Proof.
  split; [|split; [|repeat split]].
  - intros xp Hxp. rewrite (F64_calculateLevel_isqrt xp Hxp).
    unfold Spec.levelFromXP. now rewrite floor_sqrt_real.
  - intros a b Hab Hb.
    exists (Z.sqrt (a / 100) + 1), (Z.sqrt (b / 100) + 1).
    repeat split; try (apply F64_calculateLevel_isqrt; lia).
    apply Z.add_le_mono_r, Z.sqrt_le_mono, Z.div_le_mono; lia.
Qed.

Lemma calculateLevel_formula_witness :
  0 <= 102 < 2 ^ 31 /\ F64.calculateLevel 102 = Some (Spec.levelFromXP 102).
Proof.
  assert (H : 0 <= 102 < 2 ^ 31) by (cbn; lia).
  split; [exact H|]. apply (proj1 calculateLevel_formula 102 H).
Defined.

(** Beyond that range the formula does not hold for every xp.  At
    [xp = 7049825671297599], one less than [100 * 8396324^2], the
    quotient [xp / 100] has no room left for two decimals in 53 bits and
    the rounded square root is the integer 8396324 itself: the source
    returns level 8396325 where [floor(sqrt(xp / 100)) + 1] is
    8396324. *)
Lemma calculateLevel_formula_beyond_range :
  0 <= 7049825671297599
  /\ F64.calculateLevel 7049825671297599 = Some 8396325
  /\ Spec.levelFromXP 7049825671297599 = 8396324
  /\ F64.calculateLevel 7049825671297599
     <> Some (Spec.levelFromXP 7049825671297599).
Proof.
  assert (Hs : Spec.levelFromXP 7049825671297599 = 8396324).
  { unfold Spec.levelFromXP. rewrite floor_sqrt_real by lia. reflexivity. }
  assert (Hf : F64.calculateLevel 7049825671297599 = Some 8396325)
    by (vm_compute; reflexivity).
  repeat split; try assumption; try lia.
  rewrite Hs, Hf. intros E. injection E as E. lia.
Qed.

(** ** C3: the reward calculator *)

Lemma Q2R_getDifficultyMultiplier (d : Difficulty) :
  Q2R (getDifficultyMultiplier d) = Spec.mult d.
Proof. destruct d; unfold Q2R; simpl; lra. Qed.

Lemma IZR_baseXP (d : Difficulty) : IZR (baseXP d) = Spec.base d.
Proof. destruct d; reflexivity. Qed.

Lemma getXPReward_real (d : Difficulty) (l : Z) :
  getXPReward d l = Spec.xpReward d l.
Proof.
  unfold getXPReward, JS.Math_floor, Spec.xpReward.
  rewrite Qfloor_Int_part. f_equal.
  rewrite !Q2R_mult, Q2R_plus, Q2R_mult, !Q2R_inject_Z.
  rewrite Q2R_getDifficultyMultiplier, IZR_baseXP, minus_IZR.
  unfold Q2R; simpl. lra.
Qed.

Ltac qeq_lia :=
  unfold Qeq, Qdiv, Qmult, Qplus, Qinv, inject_Z; cbn [Qnum Qden]; lia.

Lemma getXPReward_integer (d : Difficulty) (l : Z) :
  getXPReward d l
  = match d with
    | easy => l + 9
    | medium => 39 * (l + 9) / 10
    | hard => 102 * (l + 9) / 10
    end.
Proof.
  unfold getXPReward, JS.Math_floor.
  destruct d; cbn [baseXP getDifficultyMultiplier].
  - transitivity (Qfloor (inject_Z (l + 9))); [|apply Qfloor_Z].
    apply Qfloor_comp. qeq_lia.
  - transitivity (Qfloor (inject_Z (39 * (l + 9)) / inject_Z 10)).
    + apply Qfloor_comp. qeq_lia.
    + symmetry. apply Zdiv_Qdiv.
  - transitivity (Qfloor (inject_Z (102 * (l + 9)) / inject_Z 10)).
    + apply Qfloor_comp. qeq_lia.
    + symmetry. apply Zdiv_Qdiv.
Qed.

(** The binary64 reward is the exact one at every level from 1 to
    5000, by evaluation of both at each of these levels. *)
Lemma F64_getXPReward_exact (d : Difficulty) (l : Z) :
  1 <= l <= 5000 -> F64.getXPReward d l = Some (getXPReward d l).
Proof.
  intros Hl. apply option_Z_eqb_eq.
  assert (H : F64.all_from
                (fun l => F64.option_Z_eqb (F64.getXPReward easy l) (getXPReward easy l)
                          && F64.option_Z_eqb (F64.getXPReward medium l) (getXPReward medium l)
                          && F64.option_Z_eqb (F64.getXPReward hard l) (getXPReward hard l))
                1 5000 = true) by (vm_compute; reflexivity).
  pose proof (all_from_spec _ _ _ H l ltac:(lia)) as Hall. cbv beta in Hall.
  apply andb_true_iff in Hall as [Hall Hh]. apply andb_true_iff in Hall as [He Hm].
  destruct d; assumption.
Qed.

(** X2.  The reward in integer arithmetic: at every level from 1 to
    5000 the source, computing in binary64, returns [l + 9] for an easy
    mission, [floor(39 (l + 9) / 10)] for a medium one and
    [floor(102 (l + 9) / 10)] for a hard one. *)
Lemma getXPReward_closed_form (d : Difficulty) (l : Z) :
  1 <= l <= 5000 ->
  F64.getXPReward d l
  = Some match d with
         | easy => l + 9
         | medium => 39 * (l + 9) / 10
         | hard => 102 * (l + 9) / 10
         end.
Proof.
  intros Hl. rewrite (F64_getXPReward_exact d l Hl). f_equal. apply getXPReward_integer.
Qed.

Lemma getXPReward_closed_form_witness :
  F64.getXPReward medium 7 = Some (39 * (7 + 9) / 10).
Proof. apply (getXPReward_closed_form medium 7). lia. Defined.

(** C3.  For every difficulty and every integer level from 1 to 5000
    (the levels of the xp of the 32-bit [xp] column end at 4635),
    [getXPReward difficulty level], computed in binary64 as the source
    computes it, is [floor(base * (1 + (level - 1) * 0.1) * mult)] with
    base easy=10, medium=26, hard=51 and mult easy=1, medium=1.5,
    hard=2, the product and the floor taken over the reals;
    [getXPReward easy 1 = 10] and [getXPReward hard 1 = 102]. *)
Theorem getXPReward_formula :
  (forall d l, 1 <= l <= 5000 -> F64.getXPReward d l = Some (Spec.xpReward d l))
  /\ F64.getXPReward easy 1 = Some 10
  /\ F64.getXPReward hard 1 = Some 102.
Proof.
  split; [|split; vm_compute; reflexivity].
  intros d l Hl. rewrite (F64_getXPReward_exact d l Hl). f_equal. apply getXPReward_real.
Qed.

Lemma getXPReward_formula_witness :
  F64.getXPReward hard 4635 = Some (Spec.xpReward hard 4635).
Proof. apply (proj1 getXPReward_formula hard 4635). lia. Defined.

(** The formula does not hold at every level from 1 on.  The literal
    [0.1] is the binary64 value nearest to one tenth, a little above it,
    and each product is rounded: at level 175932351307625 the source
    returns 1794509983337867 for a hard mission, where
    [floor(51 * (1 + (level - 1) * 0.1) * 2)] is 1794509983337866. *)
Lemma getXPReward_formula_beyond_range :
  1 <= 175932351307625
  /\ F64.getXPReward hard 175932351307625 = Some 1794509983337867
  /\ Spec.xpReward hard 175932351307625 = 1794509983337866
  /\ F64.getXPReward hard 175932351307625
     <> Some (Spec.xpReward hard 175932351307625).
Proof.
  assert (Hs : Spec.xpReward hard 175932351307625 = 1794509983337866).
  { rewrite <- getXPReward_real, getXPReward_integer. reflexivity. }
  assert (Hf : F64.getXPReward hard 175932351307625 = Some 1794509983337867)
    by (vm_compute; reflexivity).
  repeat split; try assumption; try lia.
  rewrite Hs, Hf. intros E. injection E as E. lia.
Qed.

(** ** C4, C5: the difficulty selector *)

Lemma JS_lt_real (a b : Q) : JS.lt a b = true <-> (Q2R a < Q2R b)%R.
Proof.
  unfold JS.lt. rewrite negb_true_iff. split.
  - intros H. apply Qlt_Rlt. apply Qnot_le_lt. intros Hle.
    apply Qle_bool_iff in Hle. congruence.
  - intros H. apply not_true_is_false. intros Hle.
    apply Qle_bool_iff, Qle_Rle in Hle. lra.
Qed.

Lemma Q2R_statLevel (st : Stats) :
  Q2R (inject_Z (strength st + intelligence st + motivation st) / 30) = Spec.statLevel st.
Proof.
  unfold Spec.statLevel, Qdiv. rewrite Q2R_mult, Q2R_inject_Z.
  unfold Q2R; simpl. lra.
Qed.

Lemma statLevel_lt_half (st : Stats) :
  JS.lt (inject_Z (strength st + intelligence st + motivation st) / 30) (1 # 2) = true
  <-> (Spec.statLevel st < 0.5)%R.
Proof.
  rewrite JS_lt_real, Q2R_statLevel.
  replace (Q2R (1 # 2)) with 0.5%R by (unfold Q2R; simpl; lra). tauto.
Qed.

Lemma statLevel_lt_three_halves (st : Stats) :
  JS.lt (inject_Z (strength st + intelligence st + motivation st) / 30) (3 # 2) = true
  <-> (Spec.statLevel st < 1.5)%R.
Proof.
  rewrite JS_lt_real, Q2R_statLevel.
  replace (Q2R (3 # 2)) with 1.5%R by (unfold Q2R; simpl; lra). tauto.
Qed.

(** C4.  [selectDifficulty level stats] follows the OR-based rule
    evaluated in order, with [statLevel = (strength + intelligence +
    motivation) / 30]: easy if [level <= 3] or [statLevel < 0.5]; else
    medium if [level <= 7] or [statLevel < 1.5]; else hard. *)
Theorem selectDifficulty_rule :
  forall (level : Z) (st : Stats),
    let first := level <= 3 \/ (Spec.statLevel st < 0.5)%R in
    let second := level <= 7 \/ (Spec.statLevel st < 1.5)%R in
    (first -> selectDifficulty level st = easy)
    /\ (~ first -> second -> selectDifficulty level st = medium)
    /\ (~ first -> ~ second -> selectDifficulty level st = hard).
Proof.
  intros l st first second. subst first second.
  unfold selectDifficulty.
  pose proof (statLevel_lt_half st) as Hh.
  pose proof (statLevel_lt_three_halves st) as Ht.
  destruct (JS.lt _ (1 # 2)) eqn:E1; destruct (JS.lt _ (3 # 2)) eqn:E2;
    destruct (Z.leb_spec l 3); destruct (Z.leb_spec l 7); simpl;
    repeat split; intros; try reflexivity; try lia;
    try (exfalso; tauto);
    try (exfalso;
         match goal with
         | H : _ \/ _ |- _ => destruct H as [H|H]; [lia|]
         end;
         match goal with
         | H : (_ < _)%R |- _ => first [apply Hh in H | apply Ht in H]; discriminate
         end).
Qed.

Ltac qeq_le_lia :=
  unfold Qle, Qdiv, Qmult, Qplus, Qinv, inject_Z; cbn [Qnum Qden]; lia.

(** The same rule on the stat total: [statLevel < 0.5] is [total < 15]
    and [statLevel < 1.5] is [total < 45]. *)
Lemma selectDifficulty_thresholds (l : Z) (st : Stats) :
  let total := strength st + intelligence st + motivation st in
  selectDifficulty l st
  = if (l <=? 3) || (total <? 15) then easy
    else if (l <=? 7) || (total <? 45) then medium
    else hard.
Proof.
  intros total. unfold selectDifficulty. fold total.
  assert (H1 : JS.lt (inject_Z total / 30) (1 # 2) = (total <? 15)).
  { unfold JS.lt. destruct (Z.ltb_spec total 15).
    - apply negb_true_iff, not_true_is_false. rewrite Qle_bool_iff. qeq_le_lia.
    - apply negb_false_iff. rewrite Qle_bool_iff. qeq_le_lia. }
  assert (H2 : JS.lt (inject_Z total / 30) (3 # 2) = (total <? 45)).
  { unfold JS.lt. destruct (Z.ltb_spec total 45).
    - apply negb_true_iff, not_true_is_false. rewrite Qle_bool_iff. qeq_le_lia.
    - apply negb_false_iff. rewrite Qle_bool_iff. qeq_le_lia. }
  now rewrite H1, H2.
Qed.

(** X3.  The rule of [selectDifficulty] on the stat total: easy if
    [level <= 3] or [total < 15], else medium if [level <= 7] or
    [total < 45], else hard. *)
Theorem selectDifficulty_by_total :
  forall (l : Z) (st : Stats),
    let total := strength st + intelligence st + motivation st in
    selectDifficulty l st
    = if (l <=? 3) || (total <? 15) then easy
      else if (l <=? 7) || (total <? 45) then medium
      else hard.
Proof. exact selectDifficulty_thresholds. Qed.

(** C5, as the code has it.  [selectDifficulty(2, {0, 0, 0})] is easy;
    [selectDifficulty(10, {10, 10, 10})] is medium, because
    [statLevel = 30 / 30 = 1 < 1.5]; hard needs a level above 7 and a stat
    total of at least 45, as in [selectDifficulty(10, {15, 15, 15})]. *)
Theorem selectDifficulty_examples :
  selectDifficulty 2 (mkStats 0 0 0) = easy
  /\ selectDifficulty 10 (mkStats 10 10 10) = medium
  /\ selectDifficulty 10 (mkStats 15 15 15) = hard
  /\ (forall l st, selectDifficulty l st = hard
                   <-> 7 < l /\ 45 <= strength st + intelligence st + motivation st).
Proof.
  repeat split; try reflexivity;
    rewrite selectDifficulty_thresholds in *;
    destruct (Z.leb_spec l 3); destruct (Z.leb_spec l 7);
    destruct (Z.ltb_spec (strength st + intelligence st + motivation st) 15);
    destruct (Z.ltb_spec (strength st + intelligence st + motivation st) 45);
    simpl in *; try discriminate; try lia; try reflexivity;
    match goal with H : _ /\ _ |- _ => destruct H; lia end.
Qed.

(** C5 as stated fails: level 10 with stats {10, 10, 10} is not hard. *)
Lemma selectDifficulty_10_10_10_not_hard :
  selectDifficulty 10 (mkStats 10 10 10) <> hard.
Proof. discriminate. Qed.

(** ** C6: the availability gate *)

Lemma schedule_covers_iff (now hour : Z) (s : Schedule) :
  schedule_covers now hour s = true <-> Spec.available now hour s.
Proof.
  unfold schedule_covers, Spec.available.
  destruct (is_active s); simpl; [|intuition discriminate].
  destruct (end_date s) as [e|]; simpl.
  - destruct (Z.ltb_spec now (Date_parse (start_date s)));
      destruct (Z.ltb_spec (Date_parse e) now); simpl;
      rewrite ?andb_true_iff, ?Z.leb_le; split;
      try (intros H'; discriminate H');
      try (intros (_ & Hs & [Hn | (e' & He & Hle)] & _);
           [try lia; discriminate Hn | try lia; injection He as <-; lia]).
    intros [? ?]. repeat split; try lia. right. exists e. split; [reflexivity | lia].
    intros (_ & _ & _ & ? & ?). split; assumption.
  - destruct (Z.ltb_spec now (Date_parse (start_date s))); simpl;
      rewrite ?andb_true_iff, ?Z.leb_le; split;
      try (intros H'; discriminate H');
      try (intros (_ & Hs & _); lia).
    intros [? ?]. repeat split; try lia. now left.
    intros (_ & _ & _ & ? & ?). split; assumption.
Qed.

(** C6.  The gate is true exactly when some schedule is active, started
    no later than [now], has no end date or one not before [now], and the
    hour of day of [now] lies in [8, 20]; it is false when every schedule
    is inactive, and false outside the 8-20 hour window whatever the
    schedules. *)
Theorem checkScheduleAvailability_spec :
  forall (tza now : Z) (schedules : list Schedule),
    (checkScheduleAvailability tza now schedules = true
     <-> exists s, In s schedules /\ Spec.available now (getHours tza now) s)
    /\ ((forall s, In s schedules -> is_active s = false) ->
        checkScheduleAvailability tza now schedules = false)
    /\ (~ 8 <= getHours tza now <= 20 ->
        checkScheduleAvailability tza now schedules = false).
Proof.
  intros tza now schedules.
  assert (Hiff : checkScheduleAvailability tza now schedules = true
                 <-> exists s, In s schedules /\ Spec.available now (getHours tza now) s).
  { unfold checkScheduleAvailability. rewrite existsb_exists.
    split; intros (s & Hin & Hs); exists s; split; try assumption;
      now apply schedule_covers_iff. }
  split; [exact Hiff|]. split.
  - intros Hall. apply not_true_is_false. intros Ht.
    apply Hiff in Ht as (s & Hin & Hact & _).
    rewrite (Hall s Hin) in Hact. discriminate.
  - intros Hhour. apply not_true_is_false. intros Ht.
    apply Hiff in Ht as (s & _ & _ & _ & _ & Hh). contradiction.
Qed.

(** ** The stores *)

Section StoreTheorems.

Context {R : Type} {RS : RemoteStore R}.

Implicit Type w : World R.

(** *** Profile store *)

Lemma exec_bind {A B} (c : Eff A) (k : A -> Eff B) w :
  exec (bind c k) w = exec (k (fst (c w))) (exec c w).
Proof. unfold exec, bind. destruct (c w); reflexivity. Qed.

Lemma Math_random_run w : Math_random w = (next_random w, after_random w).
Proof.
  unfold after_random, next_random, Math_random. destruct (random w); reflexivity.
Qed.

Lemma after_random_frame w :
  remote (after_random w) = remote w
  /\ requests (after_random w) = requests w
  /\ clock (after_random w) = clock w
  /\ tza (after_random w) = tza w
  /\ missionsStore (after_random w) = missionsStore w
  /\ profileStore (after_random w) = profileStore w
  /\ objectivesStore (after_random w) = objectivesStore w.
Proof.
  unfold after_random, Math_random. destruct (random w); repeat split.
Qed.

(** [updateProfile] sends one request; the local profile takes the
    update when the request succeeds and stays as it was when it
    fails. *)
Lemma updateProfile_run w p u :
  current_profile w = Some p ->
  exec (updateProfile u) w
  = let (res, r') := profiles_update (p_id p) u (remote w) in
    mkWorld r' (requests w ++ [ReqProfilesUpdate (p_id p) u])
      (random w) (clock w) (tza w) (missionsStore w)
      (match res with
       | Ok _ => mkProfileState (Some (merge_profile p u)) false None
       | Err msg => mkProfileState (Some p) false (Some msg)
       end)
      (objectivesStore w).
Proof.
  unfold current_profile. intros Hp.
  unfold exec, updateProfile, bind, get_profile, set_profile, call, ret.
  rewrite Hp. cbn.
  destruct (profiles_update (p_id p) u (remote w)) as [[?|msg] r'];
    cbn; rewrite ?Hp; reflexivity.
Qed.

(** What [addXP] does, by cases on the level test. *)
Lemma addXP_run w p amount :
  current_profile w = Some p ->
  exec (addXP amount) w
  = match calculateLevel (xp p + amount) with
    | Some l =>
        if level p <? l then
          exec (updateProfile
                  (level_up l (xp p + amount)
                     match pick_stat (next_random w) with
                     | Some k => stat_set (stats p) k (stat_get (stats p) k + 1)
                     | None => stats p
                     end))
               (after_random w)
        else exec (updateProfile (xp_only (xp p + amount))) w
    | None => exec (updateProfile (xp_only (xp p + amount))) w
    end.
Proof.
  unfold current_profile. intros Hp.
  unfold exec at 1. unfold addXP, bind at 1, get_profile. rewrite Hp.
  destruct (calculateLevel (xp p + amount)) as [l|] eqn:El; cbn [JS.gt].
  - destruct (level p <? l); [|reflexivity].
    unfold bind. rewrite Math_random_run. reflexivity.
  - reflexivity.
Qed.

Lemma pick_stat_range (r : Q) :
  unit_interval r ->
  exists k, pick_stat r = Some k
    /\ (k = k_strength <-> (r < 1 # 3)%Q)
    /\ (k = k_intelligence <-> (1 # 3 <= r)%Q /\ (r < 2 # 3)%Q)
    /\ (k = k_motivation <-> (2 # 3 <= r)%Q).
Proof.
  intros [H0 H1]. unfold pick_stat, JS.Math_floor.
  change (inject_Z (Z.of_nat (List.length statKeys))) with (inject_Z 3).
  set (i := Qfloor (r * inject_Z 3)).
  assert (Hlo : (inject_Z i <= r * inject_Z 3)%Q) by apply Qfloor_le.
  assert (Hhi : (r * inject_Z 3 < inject_Z (i + 1))%Q) by apply Qlt_floor.
  assert (Hi : 0 <= i < 3).
  { destruct r as [n d]. unfold Qle, Qlt, Qmult, inject_Z in *.
    cbn [Qnum Qden] in *. nia. }
  assert (Hcases : i = 0 \/ i = 1 \/ i = 2) by lia.
  unfold array_get.
  destruct Hcases as [E | [E | E]]; rewrite E in *; cbn;
    [exists k_strength | exists k_intelligence | exists k_motivation];
    (split; [reflexivity|]);
    destruct r as [n d]; unfold Qle, Qlt, Qmult, inject_Z in *;
    cbn [Qnum Qden] in *;
    repeat split; intros; try discriminate; try lia;
    try (match goal with H : _ /\ _ |- _ => destruct H end; lia).
Qed.

(** The same, leaving out the random values within [thirds_margin]
    below [1/3] and below [2/3]. *)
Lemma pick_stat_thirds (r : Q) :
  unit_interval r ->
  exists k, pick_stat r = Some k
    /\ ((r <= (1 # 3) - thirds_margin)%Q -> k = k_strength)
    /\ ((1 # 3 <= r)%Q -> (r <= (2 # 3) - thirds_margin)%Q -> k = k_intelligence)
    /\ ((2 # 3 <= r)%Q -> k = k_motivation).
Proof.
  intros Hr. destruct (pick_stat_range r Hr) as (k & Hk & Hs & Hi & Hm).
  exists k. split; [exact Hk|]. split; [|split].
  - intros H. apply Hs. eapply Qle_lt_trans; [exact H|].
    unfold thirds_margin, Qlt, Qminus, Qplus, Qopp. cbn. lia.
  - intros H1 H2. apply Hi. split; [exact H1|]. eapply Qle_lt_trans; [exact H2|].
    unfold thirds_margin, Qlt, Qminus, Qplus, Qopp. cbn. lia.
  - intros H. now apply Hm.
Qed.

(** The stat the source picks through the binary64 product, for a
    random value that is zero or normal. *)
Lemma F64_pick_stat_thirds (r : F64.float) :
  F64.unit_normal r ->
  let q := F64.to_Q r in
  unit_interval q
  /\ exists k, F64.pick_stat r = Some k
       /\ ((q <= (1 # 3) - thirds_margin)%Q -> k = k_strength)
       /\ ((1 # 3 <= q)%Q -> (q <= (2 # 3) - thirds_margin)%Q -> k = k_intelligence)
       /\ ((2 # 3 <= q)%Q -> k = k_motivation).
Proof.
  intros [-> | (m & e & -> & Hm & He)] q; subst q.
  - split; [split; [unfold Qle | unfold Qlt]; cbn; lia|].
    exists k_strength. split; [reflexivity|].
    split; [reflexivity|]. split; intros H; [intros _|];
      exfalso; revert H; unfold Qle; cbn; lia.
  - pose proof Hm as Hm'. unfold F64.normal in Hm'.
    destruct (floor_mul_3 m e Hm He) as (i & Hi & Hr & H0 & H1 & H2).
    set (A := 2 ^ (- e - 53)) in *. set (W := 2 ^ 53 * A) in *.
    assert (HA : 1 <= A).
    { subst A. change 1 with (2 ^ 0). apply Z.pow_le_mono_r; lia. }
    assert (HW : 2 ^ (- e) = W).
    { subst W A. rewrite <- Z.pow_add_r by lia. f_equal. lia. }
    assert (Hq : F64.to_Q (S754_finite false m e) = Z.pos m # Z.to_pos W).
    { unfold F64.to_Q. destruct (Z.leb_spec 0 e); [lia|]. now rewrite HW. }
    assert (HWp : Z.pos (Z.to_pos W) = W).
    { apply Z2Pos.id. subst W. change (2 ^ 53) with 9007199254740992. lia. }
    rewrite Hq.
    split.
    { split; [unfold Qle | unfold Qlt]; cbn [Qnum Qden]; rewrite ?HWp; [lia|].
      subst W. change (2 ^ 53) with 9007199254740992 in *. nia. }
    unfold F64.pick_stat.
    change (F64.of_Z (Z.of_nat (List.length statKeys))) with (F64.of_Z 3).
    rewrite Hi.
    assert (Hcases : i = 0 \/ i = 1 \/ i = 2) by lia.
    assert (Q0 : ((Z.pos m # Z.to_pos W) <= (1 # 3) - thirds_margin)%Q ->
                 3 * Z.pos m <= W - 6 * A).
    { unfold thirds_margin, Qle, Qminus, Qplus, Qopp. cbn [Qnum Qden].
      rewrite HWp. subst W. change (2 ^ 53) with 9007199254740992 in *. lia. }
    assert (Q1 : ((Z.pos m # Z.to_pos W) <= (2 # 3) - thirds_margin)%Q ->
                 3 * Z.pos m <= 2 * W - 6 * A).
    { unfold thirds_margin, Qle, Qminus, Qplus, Qopp. cbn [Qnum Qden].
      rewrite HWp. subst W. change (2 ^ 53) with 9007199254740992 in *. lia. }
    assert (Q2 : (1 # 3 <= (Z.pos m # Z.to_pos W))%Q -> W <= 3 * Z.pos m).
    { unfold Qle. cbn [Qnum Qden]. rewrite HWp. lia. }
    assert (Q3 : (2 # 3 <= (Z.pos m # Z.to_pos W))%Q -> 2 * W <= 3 * Z.pos m).
    { unfold Qle. cbn [Qnum Qden]. rewrite HWp. lia. }
    destruct Hcases as [-> | [-> | ->]]; cbn [array_get statKeys];
      [exists k_strength | exists k_intelligence | exists k_motivation];
      (split; [reflexivity|]); repeat split; intros;
      try reflexivity; exfalso;
      repeat match goal with
             | H : (_ <= _)%Q |- _ =>
                 first [apply Q0 in H | apply Q1 in H | apply Q2 in H | apply Q3 in H]
             end;
      try (specialize (H0 ltac:(assumption)); lia);
      try (specialize (H1 ltac:(assumption) ltac:(assumption)); lia);
      try (specialize (H2 ltac:(assumption)); lia).
Qed.

(** Outside the two margins the stat the source picks through the
    binary64 product is the stat of the exact reading. *)
Lemma F64_pick_stat_exact (r : F64.float) :
  F64.unit_normal r ->
  let q := F64.to_Q r in
  (q <= (1 # 3) - thirds_margin)%Q
  \/ ((1 # 3 <= q)%Q /\ (q <= (2 # 3) - thirds_margin)%Q)
  \/ (2 # 3 <= q)%Q ->
  F64.pick_stat r = pick_stat q.
Proof.
  intros Hr q Hq.
  destruct (F64_pick_stat_thirds r Hr) as (Hu & k & -> & H0 & H1 & H2).
  destruct (pick_stat_thirds (F64.to_Q r) Hu) as (k' & Hk' & H0' & H1' & H2').
  fold q in H0, H1, H2, H0', H1', H2', Hk'. rewrite Hk'. f_equal.
  destruct Hq as [Hq | [[Hq1 Hq2] | Hq]].
  - now rewrite (H0 Hq), (H0' Hq).
  - now rewrite (H1 Hq1 Hq2), (H1' Hq1 Hq2).
  - now rewrite (H2 Hq), (H2' Hq).
Qed.

Lemma pick_stat_Qeq (a b : Q) : (a == b)%Q -> pick_stat a = pick_stat b.
Proof.
  intros H. unfold pick_stat, JS.Math_floor. f_equal.
  apply Qfloor_comp. now rewrite H.
Qed.

(** The stat picked for the rational [r] is the stat the source picks
    through the binary64 product, when [r] is the value of a binary64
    number outside the two margins. *)
Lemma pick_stat_binary64 (r : Q) (k : StatKey) (f : F64.float) :
  pick_stat r = Some k ->
  F64.unit_normal f -> (F64.to_Q f == r)%Q ->
  (r <= (1 # 3) - thirds_margin)%Q
  \/ ((1 # 3 <= r)%Q /\ (r <= (2 # 3) - thirds_margin)%Q)
  \/ (2 # 3 <= r)%Q ->
  F64.pick_stat f = Some k.
Proof.
  intros Hk Hf Hfr Hr.
  rewrite (F64_pick_stat_exact f Hf), (pick_stat_Qeq _ _ Hfr); [exact Hk|].
  cbv zeta. rewrite Hfr. exact Hr.
Qed.

(** Inside a margin the two can differ: for the binary64 value next
    below [2/3] the product [r * 3] rounds to 2. *)
Lemma pick_stat_at_margin :
  let r := S754_finite false 6004799503160661 (-53) in
  F64.unit_normal r
  /\ (F64.to_Q r < 2 # 3)%Q
  /\ F64.pick_stat r = Some k_motivation
  /\ pick_stat (F64.to_Q r) = Some k_intelligence.
Proof.
  cbv zeta. split; [|split; [|split]].
  - right. exists 6004799503160661%positive, (-53).
    split; [reflexivity|]. split; [unfold F64.normal; cbn|]; lia.
  - unfold Qlt. cbn. lia.
  - vm_compute. reflexivity.
  - vm_compute. reflexivity.
Qed.

Lemma stat_set_get (st : Stats) (k k' : StatKey) (v : Z) :
  stat_get (stat_set st k v) k' = if StatKey_eqb k k' then v else stat_get st k'.
Proof. destruct k, k'; reflexivity. Qed.

(** The profile after [updateProfile u], given the profile before. *)
Lemma updateProfile_profile w p u :
  current_profile w = Some p ->
  current_profile (exec (updateProfile u) w)
  = match fst (profiles_update (p_id p) u (remote w)) with
    | Ok _ => Some (merge_profile p u)
    | Err _ => Some p
    end
  /\ requests (exec (updateProfile u) w)
     = requests w ++ [ReqProfilesUpdate (p_id p) u].
Proof.
  intros Hp. rewrite (updateProfile_run w p u Hp).
  destruct (profiles_update (p_id p) u (remote w)) as [[?|msg] r']; split; reflexivity.
Qed.

(** A profile whose level matches its xp has a non-negative xp (the
    level of a negative xp is [NaN]). *)
Lemma level_matches_xp_nonneg (p : UserProfile) :
  level_matches_xp p -> 0 <= xp p.
Proof.
  unfold level_matches_xp. intros H.
  destruct (Z.lt_ge_cases (xp p) 0) as [Hneg|]; [|assumption].
  rewrite (calculateLevel_negative _ Hneg) in H. discriminate.
Qed.

(** One step of the invariant: from a profile whose level matches its
    xp, a non-negative grant produces a payload that keeps it so. *)
Lemma addXP_payload w p amount :
  current_profile w = Some p ->
  0 <= xp p -> 0 <= amount ->
  level_matches_xp p ->
  exists u,
    requests (exec (addXP amount) w) = requests w ++ [ReqProfilesUpdate (p_id p) u]
    /\ up_xp u = Some (xp p + amount)
    /\ (up_level u = None <-> up_stats u = None)
    /\ level_matches_xp (merge_profile p u)
    /\ current_profile (exec (addXP amount) w)
       = match fst (profiles_update (p_id p) u (remote w)) with
         | Ok _ => Some (merge_profile p u)
         | Err _ => Some p
         end.
Proof.
  intros Hp Hxp Hamt Hinv.
  rewrite (addXP_run w p amount Hp).
  destruct (calculateLevel_mono (xp p) (xp p + amount)) as (la & lb & Ha & Hb & Hle);
    [lia|].
  unfold level_matches_xp in Hinv. rewrite Hinv in Ha. injection Ha as <-.
  rewrite Hb.
  destruct (after_random_frame w) as (Hr & Hq & _ & _ & _ & Hps & _).
  destruct (Z.ltb_spec (level p) lb).
  - set (u := level_up lb (xp p + amount) _).
    assert (Hp' : current_profile (after_random w) = Some p).
    { unfold current_profile. now rewrite Hps. }
    destruct (updateProfile_profile _ p u Hp') as [Hcur Hreq].
    exists u. rewrite Hreq, Hcur, Hq, Hr.
    repeat split; try discriminate.
    unfold level_matches_xp. cbn. exact Hb.
  - set (u := xp_only (xp p + amount)).
    destruct (updateProfile_profile _ p u Hp) as [Hcur Hreq].
    exists u. rewrite Hreq, Hcur.
    repeat split.
    unfold level_matches_xp. cbn. rewrite Hb. f_equal. lia.
Qed.

(** C8.  After an XP grant through [addXP] the profile satisfies
    [level == calculateLevel(xp)]: starting from a profile that
    satisfies it, with a non-negative grant, [addXP] issues exactly one
    profile update; the update always carries the new xp, and carries
    level and stats together or not at all; the profile merged with the
    update satisfies [level == calculateLevel(xp)]; the local profile is
    that merged profile when the remote store accepts the update and
    the profile as it was when it refuses; so in both cases it satisfies
    [level == calculateLevel(xp)].  On the xp of the 32-bit [xp] column
    the level so recomputed is the one binary64 arithmetic gives. *)
Theorem addXP_level_invariant :
  forall w p amount,
    current_profile w = Some p ->
    level_matches_xp p ->
    0 <= amount ->
    let w' := exec (addXP amount) w in
    exists u,
      requests w' = requests w ++ [ReqProfilesUpdate (p_id p) u]
      /\ up_xp u = Some (xp p + amount)
      /\ (up_level u = None <-> up_stats u = None)
      /\ level_matches_xp (merge_profile p u)
      /\ current_profile w'
         = match fst (profiles_update (p_id p) u (remote w)) with
           | Ok _ => Some (merge_profile p u)
           | Err _ => Some p
           end
      /\ (exists p', current_profile w' = Some p' /\ level_matches_xp p')
      /\ (xp p + amount < 2 ^ 31 ->
          F64.calculateLevel (xp (merge_profile p u)) = Some (level (merge_profile p u))).
Proof.
  intros w p amount Hp Hinv Hamt w'. subst w'.
  pose proof (level_matches_xp_nonneg p Hinv) as Hxp.
  destruct (addXP_payload w p amount Hp Hxp Hamt Hinv)
    as (u & Hreq & Hux & Hboth & Hm & Hcur).
  exists u. repeat split; try assumption; try apply Hboth.
  - rewrite Hcur. destruct (fst _); eexists; split; try reflexivity; assumption.
  - intros Hrange. unfold level_matches_xp in Hm. rewrite <- Hm.
    apply F64_calculateLevel_exact.
    unfold merge_profile. cbn [xp]. rewrite Hux.
    change (2 ^ 31) with 2147483648 in *. lia.
Qed.

(** X1.  The invariant along a whole run of grants: from a profile
    whose level matches its xp, any sequence of non-negative grants,
    whatever the random values and the outcomes of the requests, ends in
    a profile whose level matches its xp. *)
Theorem addXP_run_invariant :
  forall (amounts : list Z),
    Forall (fun a => 0 <= a) amounts ->
    forall w p,
      current_profile w = Some p -> level_matches_xp p ->
      exists p', current_profile (exec (for_each addXP amounts) w) = Some p'
                 /\ level_matches_xp p'.
Proof.
  induction 1 as [|a amounts Ha _ IH]; intros w p Hp Hinv;
    pose proof (level_matches_xp_nonneg p Hinv) as Hxp.
  - exists p. now split.
  - change (exec (for_each addXP (a :: amounts)) w)
      with (snd (bind (addXP a) (fun _ => for_each addXP amounts) w)).
    unfold bind. destruct (addXP a w) as [[] w1] eqn:E1.
    assert (Hw1 : w1 = exec (addXP a) w) by (unfold exec; now rewrite E1).
    destruct (addXP_payload w p a Hp Hxp Ha Hinv) as (u & _ & Hux & _ & Hm & Hcur).
    rewrite <- Hw1 in Hcur.
    destruct (fst (profiles_update (p_id p) u (remote w))).
    + apply (IH w1 (merge_profile p u) Hcur). assumption.
    + apply (IH w1 p Hcur). assumption.
Qed.

(** C9.  A grant that raises the level increments exactly one stat by
    exactly 1 and leaves the other two unchanged, and level, xp and
    stats go in one update.  The stat is selected by the random value
    [r], each of the three by one third of the unit interval: strength
    below [1/3], intelligence from [1/3] to below [2/3], motivation from
    [2/3] on; the statement leaves out the values within [2^-52] below
    [1/3] and below [2/3], where the binary64 product [r * 3] can round
    up to the next integer ([pick_stat_at_margin]).  Outside these two
    margins the stat is the one the binary64 product selects, for every
    binary64 number, zero or normal, whose value is [r].  A grant that
    does not raise the level updates xp only.  In both cases the local
    profile is the committed one when the request succeeds and the old
    one when it fails.  For a new xp of the 32-bit [xp] column the level
    compared is the one binary64 arithmetic gives. *)
Theorem addXP_stat_increment :
  forall w p amount,
    current_profile w = Some p ->
    unit_interval (next_random w) ->
    let r := next_random w in
    let newXP := xp p + amount in
    let w' := exec (addXP amount) w in
    (JS.gt (calculateLevel newXP) (level p) = true ->
     exists k l newStats,
       calculateLevel newXP = Some l
       /\ ((r <= (1 # 3) - thirds_margin)%Q -> k = k_strength)
       /\ ((1 # 3 <= r)%Q -> (r <= (2 # 3) - thirds_margin)%Q -> k = k_intelligence)
       /\ ((2 # 3 <= r)%Q -> k = k_motivation)
       /\ (forall f, F64.unit_normal f -> (F64.to_Q f == r)%Q ->
              (r <= (1 # 3) - thirds_margin)%Q
              \/ ((1 # 3 <= r)%Q /\ (r <= (2 # 3) - thirds_margin)%Q)
              \/ (2 # 3 <= r)%Q ->
              F64.pick_stat f = Some k)
       /\ stat_get newStats k = stat_get (stats p) k + 1
       /\ (forall k', k' <> k -> stat_get newStats k' = stat_get (stats p) k')
       /\ requests w'
          = requests w ++ [ReqProfilesUpdate (p_id p) (level_up l newXP newStats)]
       /\ current_profile w'
          = match fst (profiles_update (p_id p) (level_up l newXP newStats) (remote w)) with
            | Ok _ => Some (mkProfile (p_id p) (p_username p) l newXP newStats)
            | Err _ => Some p
            end)
    /\ (JS.gt (calculateLevel newXP) (level p) = false ->
        requests w' = requests w ++ [ReqProfilesUpdate (p_id p) (xp_only newXP)]
        /\ current_profile w'
           = match fst (profiles_update (p_id p) (xp_only newXP) (remote w)) with
             | Ok _ => Some (mkProfile (p_id p) (p_username p) (level p) newXP (stats p))
             | Err _ => Some p
             end)
    /\ (- 2 ^ 31 <= newXP < 2 ^ 31 -> F64.calculateLevel newXP = calculateLevel newXP).
Proof.
  intros w p amount Hp Hr r newXP w'. subst w'.
  rewrite (addXP_run w p amount Hp). fold newXP.
  destruct (after_random_frame w) as (Hrem & Hq & _ & _ & _ & Hps & _).
  split; [|split]; [intros Hgt | intros Hgt | apply F64_calculateLevel_exact].
  - destruct (calculateLevel newXP) as [l|]; [|discriminate].
    cbn in Hgt. rewrite Hgt.
    destruct (pick_stat_thirds r Hr) as (k & Hk & Hs & Hi & Hm).
    fold r. rewrite Hk.
    set (newStats := stat_set (stats p) k (stat_get (stats p) k + 1)).
    assert (Hp' : current_profile (after_random w) = Some p).
    { unfold current_profile. now rewrite Hps. }
    destruct (updateProfile_profile _ p (level_up l newXP newStats) Hp') as [Hcur Hreq].
    exists k, l, newStats. rewrite Hreq, Hcur, Hq, Hrem.
    split; [reflexivity|]. split; [exact Hs|]. split; [exact Hi|]. split; [exact Hm|].
    split; [intros f; apply (pick_stat_binary64 r k f Hk)|].
    split; [|split; [|split; reflexivity]].
    + unfold newStats. rewrite stat_set_get. destruct k; reflexivity.
    + intros k' Hk'. unfold newStats. rewrite stat_set_get.
      destruct k, k'; try reflexivity; contradiction.
  - destruct (updateProfile_profile _ p (xp_only newXP) Hp) as [Hcur Hreq].
    assert (Hexec : match calculateLevel newXP with
                    | Some l =>
                        if level p <? l
                        then exec (updateProfile
                               (level_up l newXP
                                  match pick_stat (next_random w) with
                                  | Some k => stat_set (stats p) k (stat_get (stats p) k + 1)
                                  | None => stats p
                                  end)) (after_random w)
                        else exec (updateProfile (xp_only newXP)) w
                    | None => exec (updateProfile (xp_only newXP)) w
                    end = exec (updateProfile (xp_only newXP)) w).
    { destruct (calculateLevel newXP) as [l|]; [|reflexivity].
      cbn in Hgt. now rewrite Hgt. }
    rewrite Hexec, Hreq, Hcur. split; reflexivity.
Qed.

(** *** Missions store: what a run sends and what it leaves alone *)

Lemma fetchMissionHistory_frame userId w :
  history_only w (exec (fetchMissionHistory userId) w).
Proof.
  unfold exec, fetchMissionHistory, bind, call, set_missions, m_start, m_fail. cbn.
  destruct (mission_history_select userId (remote w)) as [[data|msg] r'];
    exists [ReqHistorySelect userId]; cbn; repeat split.
Qed.

Lemma trackMissionHistory_frame mid uid act old new gained notes w :
  history_only w (exec (trackMissionHistory mid uid act old new gained notes) w).
Proof.
  unfold exec, trackMissionHistory, fetchMissionHistory, bind, call, set_missions,
    m_start, m_fail, ret. cbn.
  destruct (mission_history_insert _ (remote w)) as [[[]|msg] r']; cbn.
  - destruct (mission_history_select uid r') as [[data|msg] r'']; cbn;
      eexists [_; _]; cbn; rewrite <- ?app_assoc; repeat split.
  - eexists [_]; cbn; repeat split.
Qed.

(** [createMission] sends its creation request first, and no other
    creation request. *)
Lemma createMission_requests userId input w :
  exists l,
    requests (exec (createMission userId input) w)
    = requests w ++ ReqMissionsInsert userId input :: l
    /\ filter is_create_request l = [].
Proof.
  unfold exec, createMission, bind, call, set_missions, m_start, m_fail. cbn.
  destruct (missions_insert userId input (remote w)) as [[data|msg] r']; cbn.
  - match goal with
    | |- context [trackMissionHistory ?a ?b ?c ?d ?e ?f ?g ?w0] =>
        destruct (trackMissionHistory_frame a b c d e f g w0) as (l & Hl & Hf & _)
    end.
    unfold exec in Hl. cbn in Hl. exists l. split; [|exact Hf].
    rewrite Hl. now rewrite <- app_assoc.
  - exists []. split; reflexivity.
Qed.

Lemma for_each_createMission_requests userId (inputs : list CreateMissionInput) :
  forall w, exists l,
    requests (exec (for_each (createMission userId) inputs) w) = requests w ++ l
    /\ filter is_create_request l = map (ReqMissionsInsert userId) inputs.
Proof.
  induction inputs as [|i inputs IH]; intros w.
  - exists []. split; [cbn; now rewrite app_nil_r | reflexivity].
  - change (exec (for_each (createMission userId) (i :: inputs)) w)
      with (snd (bind (createMission userId i)
                   (fun _ => for_each (createMission userId) inputs) w)).
    unfold bind. destruct (createMission userId i w) as [[] w1] eqn:E1.
    destruct (createMission_requests userId i w) as (l1 & Hl1 & Hf1).
    unfold exec in Hl1. rewrite E1 in Hl1. cbn in Hl1.
    destruct (IH w1) as (l2 & Hl2 & Hf2). unfold exec in Hl2.
    exists (ReqMissionsInsert userId i :: l1 ++ l2). split.
    + rewrite Hl2, Hl1. rewrite <- app_assoc. reflexivity.
    + cbn. rewrite filter_app, Hf1, Hf2. reflexivity.
Qed.

(** *** Drafting the three missions *)

Lemma array_get_random {A} (l : list A) (r : Q) :
  l <> [] -> unit_interval r ->
  exists a, array_get l (JS.Math_floor (r * inject_Z (Z.of_nat (List.length l)))) = Some a
            /\ In a l.
Proof.
  intros Hne [H0 H1]. unfold array_get, JS.Math_floor.
  set (n := Z.of_nat (List.length l)).
  assert (Hn : 0 < n).
  { subst n. destruct l; [contradiction | cbn; lia]. }
  set (i := Qfloor (r * inject_Z n)).
  assert (Hlo : (inject_Z i <= r * inject_Z n)%Q) by apply Qfloor_le.
  assert (Hhi : (r * inject_Z n < inject_Z (i + 1))%Q) by apply Qlt_floor.
  assert (Hi : 0 <= i < n).
  { destruct r as [a d]. unfold Qle, Qlt, Qmult, inject_Z in *.
    cbn [Qnum Qden] in *. nia. }
  destruct (Z.ltb_spec i 0); [lia|].
  destruct (nth_error l (Z.to_nat i)) as [a|] eqn:E.
  - exists a. split; [reflexivity|]. eapply nth_error_In; eassumption.
  - apply nth_error_None in E. lia.
Qed.

Lemma unit_interval_next w :
  Forall unit_interval (random w) ->
  unit_interval (next_random w) /\ Forall unit_interval (random (after_random w)).
Proof.
  unfold next_random, after_random, Math_random.
  destruct (random w) as [|r rs] eqn:E; cbn; intros H.
  - split; [split; [apply Qle_refl | reflexivity] | rewrite E; constructor].
  - inversion H; subst. split; assumption.
Qed.

Lemma draft_mission_run p c w :
  unit_interval (next_random w) ->
  exists input,
    draft_mission p c w = (Some input, after_random w)
    /\ generated_for p (clock w) c input.
Proof.
  intros Hr. unfold draft_mission, bind, Date_now, ret.
  rewrite Math_random_run.
  destruct (array_get_random (getMissionTemplates c) (next_random w))
    as (t & Ht & Hin); [destruct c; discriminate | assumption |].
  rewrite Ht.
  destruct (after_random_frame w) as (_ & _ & Hc & _).
  eexists. split; [reflexivity|].
  unfold generated_for; cbn. rewrite Hc.
  repeat split. exists t. repeat split. exact Hin.
Qed.

Lemma after_randoms_frame n : forall w,
  remote (after_randoms n w) = remote w
  /\ requests (after_randoms n w) = requests w
  /\ clock (after_randoms n w) = clock w
  /\ tza (after_randoms n w) = tza w
  /\ missionsStore (after_randoms n w) = missionsStore w
  /\ profileStore (after_randoms n w) = profileStore w
  /\ objectivesStore (after_randoms n w) = objectivesStore w.
Proof.
  induction n as [|n IH]; intros w; cbn; [repeat split|].
  destruct (IH (after_random w)) as (-> & -> & -> & -> & -> & -> & ->).
  apply after_random_frame.
Qed.

Lemma draft_missions_run p (cs : list Category) :
  forall w,
    Forall unit_interval (random w) ->
    exists inputs,
      draft_missions p cs w = (Some inputs, after_randoms (List.length cs) w)
      /\ Forall2 (generated_for p (clock w)) cs inputs.
Proof.
  induction cs as [|c cs IH]; intros w Hr.
  - exists []. split; [reflexivity | constructor].
  - destruct (unit_interval_next w Hr) as [Hr1 Hr2].
    destruct (draft_mission_run p c w Hr1) as (input & Hd & Hg).
    destruct (IH (after_random w) Hr2) as (inputs & Hds & Hgs).
    exists (input :: inputs). split.
    + cbn [draft_missions]. unfold bind at 1. rewrite Hd.
      unfold bind at 1. rewrite Hds. reflexivity.
    + constructor; [assumption|].
      destruct (after_random_frame w) as (_ & _ & Hc & _).
      now rewrite Hc in Hgs.
Qed.

(** *** C7: mission generation *)

Lemma generateDailyMissions_closed userId p objs schedules w :
  checkScheduleAvailability (tza w) (clock w) schedules = false ->
  exec (generateDailyMissions userId p objs schedules) w
  = mkWorld (remote w) (requests w) (random w) (clock w) (tza w)
      (mkMissionsState (missions (missionsStore w))
         (missionHistory (missionsStore w)) false None)
      (profileStore w) (objectivesStore w).
Proof.
  intros Hgate.
  unfold exec, generateDailyMissions, bind, set_missions, Date_now, m_start, m_done.
  cbn. rewrite Hgate. reflexivity.
Qed.

Lemma generateDailyMissions_open userId p objs schedules w :
  checkScheduleAvailability (tza w) (clock w) schedules = true ->
  Forall unit_interval (random w) ->
  exists i1 i2 i3 l,
    requests (exec (generateDailyMissions userId p objs schedules) w) = requests w ++ l
    /\ filter is_create_request l
       = [ReqMissionsInsert userId i1; ReqMissionsInsert userId i2;
          ReqMissionsInsert userId i3]
    /\ generated_for p (clock w) sport i1
    /\ generated_for p (clock w) studies i2
    /\ generated_for p (clock w) routine i3.
Proof.
  intros Hgate Hr.
  unfold exec, generateDailyMissions.
  unfold bind at 1. unfold set_missions at 1.
  set (w0 := mkWorld (remote w) (requests w) (random w) (clock w) (tza w)
               (m_start (missionsStore w)) (profileStore w) (objectivesStore w)).
  unfold bind at 1. unfold Date_now at 1. unfold bind at 1.
  change (clock w0) with (clock w). change (tza w0) with (tza w).
  rewrite Hgate. cbn [negb].
  destruct (draft_missions_run p categories w0 Hr) as (inputs & Hd & Hg).
  unfold bind at 1. rewrite Hd.
  change (clock w0) with (clock w) in Hg.
  inversion Hg as [|c1 i1 cs1 is1 G1 Hg1]; subst.
  inversion Hg1 as [|c2 i2 cs2 is2 G2 Hg2]; subst.
  inversion Hg2 as [|c3 i3 cs3 is3 G3 Hg3]; subst.
  inversion Hg3; subst.
  destruct (after_randoms_frame (List.length categories) w0) as (_ & Hq & _).
  change (requests w0) with (requests w) in Hq.
  set (w1 := after_randoms (List.length categories) w0) in *. clearbody w1.
  destruct (for_each_createMission_requests userId [i1; i2; i3] w1) as (l & Hl & Hf).
  unfold exec in Hl. rewrite Hq in Hl.
  unfold bind. destruct (for_each (createMission userId) [i1; i2; i3] w1) as [[] w2].
  cbn in Hl |- *.
  exists i1, i2, i3, l.
  split; [exact Hl | split; [exact Hf | split; [exact G1 | split; [exact G2 | exact G3]]]].
Qed.

(** C7.  [generateDailyMissions]: when the availability gate is false
    no request is sent and no error is recorded; missions, history,
    profile and objectives are unchanged, and the whole state is
    unchanged when the missions store was idle ([loading] false, no
    earlier error), as it is whenever the Generate button is shown.
    When the gate is true, exactly three creation requests are sent, in
    the order sport, studies, routine; each is built from a template of
    its category's catalog, with difficulty
    [selectDifficulty(profile.level, profile.stats)], reward
    [getXPReward(difficulty, profile.level)] and the date of
    [now + 24 hours] as deadline. *)
Theorem generateDailyMissions_spec :
  forall w userId p objs schedules,
    let w' := exec (generateDailyMissions userId p objs schedules) w in
    (checkScheduleAvailability (tza w) (clock w) schedules = false ->
     requests w' = requests w
     /\ remote w' = remote w
     /\ missions (missionsStore w') = missions (missionsStore w)
     /\ missionHistory (missionsStore w') = missionHistory (missionsStore w)
     /\ m_error (missionsStore w') = None
     /\ profileStore w' = profileStore w
     /\ objectivesStore w' = objectivesStore w
     /\ (m_loading (missionsStore w) = false ->
         m_error (missionsStore w) = None -> w' = w))
    /\ (checkScheduleAvailability (tza w) (clock w) schedules = true ->
        Forall unit_interval (random w) ->
        exists i1 i2 i3 l,
          requests w' = requests w ++ l
          /\ filter is_create_request l
             = [ReqMissionsInsert userId i1; ReqMissionsInsert userId i2;
                ReqMissionsInsert userId i3]
          /\ generated_for p (clock w) sport i1
          /\ generated_for p (clock w) studies i2
          /\ generated_for p (clock w) routine i3).
Proof.
  intros w userId p objs schedules w'. subst w'. split.
  - intros Hgate. rewrite (generateDailyMissions_closed _ _ _ _ _ Hgate).
    cbn. repeat split.
    intros Hl He. destruct w as [rm rq rn ck tz [ms mh ml me] ps os].
    cbn in *. subst. reflexivity.
  - apply generateDailyMissions_open.
Qed.

(** *** Completion *)

(** Whatever the amount and the state of the profile, [addXP] on a
    loaded profile sends one update carrying [xp + amount]. *)
Lemma addXP_request w p amount :
  current_profile w = Some p ->
  exists u,
    requests (exec (addXP amount) w) = requests w ++ [ReqProfilesUpdate (p_id p) u]
    /\ up_xp u = Some (xp p + amount)
    /\ (current_profile (exec (addXP amount) w) = Some (merge_profile p u)
        \/ current_profile (exec (addXP amount) w) = Some p).
Proof.
  intros Hp. rewrite (addXP_run w p amount Hp).
  destruct (after_random_frame w) as (Hrem & Hq & _ & _ & _ & Hps & _).
  assert (Hp' : current_profile (after_random w) = Some p).
  { unfold current_profile. now rewrite Hps. }
  assert (Hplain : exists u,
    requests (exec (updateProfile (xp_only (xp p + amount))) w)
    = requests w ++ [ReqProfilesUpdate (p_id p) u]
    /\ up_xp u = Some (xp p + amount)
    /\ (current_profile (exec (updateProfile (xp_only (xp p + amount))) w)
        = Some (merge_profile p u)
        \/ current_profile (exec (updateProfile (xp_only (xp p + amount))) w) = Some p)).
  { destruct (updateProfile_profile w p (xp_only (xp p + amount)) Hp) as [Hcur Hreq].
    eexists. split; [exact Hreq|]. split; [reflexivity|].
    rewrite Hcur. destruct (fst _); [left|right]; reflexivity. }
  destruct (calculateLevel (xp p + amount)) as [l|]; [|exact Hplain].
  destruct (level p <? l); [|exact Hplain].
  match goal with
  | |- context [updateProfile ?u0] =>
      destruct (updateProfile_profile (after_random w) p u0 Hp') as [Hcur Hreq];
      exists u0
  end.
  rewrite Hreq, Hcur, Hq. split; [reflexivity|]. split; [reflexivity|].
  destruct (fst _); [left|right]; reflexivity.
Qed.

Lemma updateMission_frame id updates w :
  profileStore (exec (updateMission id updates) w) = profileStore w
  /\ exists l, requests (exec (updateMission id updates) w) = requests w ++ l.
Proof.
  unfold exec, updateMission, bind, get_missions, set_missions, call, ret, m_start, m_fail.
  cbn.
  destruct (find _ (missions (missionsStore w))) as [m|]; cbn.
  - destruct (missions_update id updates (remote w)) as [[data|msg] r']; cbn.
    + destruct (um_status updates) as [s|]; cbn.
      * destruct (negb (MissionStatus_eqb s (m_status m))); cbn.
        -- match goal with
           | |- context [trackMissionHistory ?a ?b ?c ?d ?e ?f ?g ?w0] =>
               destruct (trackMissionHistory_frame a b c d e f g w0)
                 as (l & Hl & _ & _ & _ & _ & _ & Hp & _)
           end.
           unfold exec in Hl, Hp. cbn in Hl, Hp. split; [exact Hp|].
           eexists. rewrite Hl, <- app_assoc. reflexivity.
        -- split; [reflexivity | eexists; reflexivity].
      * split; [reflexivity | eexists; reflexivity].
    + split; [reflexivity | eexists; reflexivity].
  - split; [reflexivity | exists []; now rewrite app_nil_r].
Qed.

(** What [markMissionComplete] sends for a mission of the local list. *)
Lemma markMissionComplete_requests w id m p :
  find (fun x => Nat.eqb (m_id x) id) (missions (missionsStore w)) = Some m ->
  current_profile w = Some p ->
  exists l1 u l2,
    requests (exec (markMissionComplete id) w)
    = requests w ++ l1 ++ ReqProfilesUpdate (p_id p) u :: l2
    /\ up_xp u = Some (xp p + xp_reward m)
    /\ (current_profile (exec (markMissionComplete id) w) = Some (merge_profile p u)
        \/ current_profile (exec (markMissionComplete id) w) = Some p).
Proof.
  intros Hm Hp.
  assert (Hrun : exec (markMissionComplete id) w
                 = exec (trackMissionHistory id (m_user_id m) act_completed
                           (Some (m_status m)) (Some completed) (xp_reward m) None)
                     (exec (addXP (xp_reward m))
                        (exec (updateMission id (update_status completed)) w))).
  { unfold markMissionComplete. rewrite exec_bind. cbn [get_missions fst exec snd].
    rewrite Hm. now rewrite !exec_bind. }
  rewrite Hrun.
  destruct (updateMission_frame id (update_status completed) w) as (Hps & l1 & Hl1).
  set (w1 := exec (updateMission id (update_status completed)) w) in *.
  assert (Hp1 : current_profile w1 = Some p).
  { unfold current_profile. now rewrite Hps. }
  destruct (addXP_request w1 p (xp_reward m) Hp1) as (u & Hreq & Hux & Hcur).
  set (w2 := exec (addXP (xp_reward m)) w1) in *.
  destruct (trackMissionHistory_frame id (m_user_id m) act_completed
              (Some (m_status m)) (Some completed) (xp_reward m) None w2)
    as (l2 & Hl2 & _ & _ & _ & _ & _ & Hp2 & _).
  exists l1, u, l2. split; [|split; [exact Hux|]].
  - rewrite Hl2, Hreq, Hl1. rewrite <- !app_assoc. reflexivity.
  - unfold current_profile in *. rewrite Hp2. exact Hcur.
Qed.

(** [markMissionComplete] has no test on the mission's status: for
    a mission in the local list, whatever its status, and a loaded
    profile, it sends a profile update carrying
    [xp + mission.xp_reward]. *)
Theorem markMissionComplete_grants :
  forall w id m p,
    find (fun x => Nat.eqb (m_id x) id) (missions (missionsStore w)) = Some m ->
    current_profile w = Some p ->
    exists l1 u l2,
      requests (exec (markMissionComplete id) w)
      = requests w ++ l1 ++ ReqProfilesUpdate (p_id p) u :: l2
      /\ up_xp u = Some (xp p + xp_reward m)
      /\ (current_profile (exec (markMissionComplete id) w) = Some (merge_profile p u)
          \/ current_profile (exec (markMissionComplete id) w) = Some p).
Proof. exact markMissionComplete_requests. Qed.

(** One click on Complete grants the reward twice: for a mission
    found in the store and in the rendered list, and a loaded profile,
    [handleCompleteMission] sends two profile updates; the first carries
    [xp + xp_reward], and the second adds [xp_reward] again to whatever
    the first one left ([xp + 2 * xp_reward] when the first succeeded). *)
Theorem handleCompleteMission_grants_twice :
  forall w rendered id m p,
    find (fun x => Nat.eqb (m_id x) id) (missions (missionsStore w)) = Some m ->
    find (fun x => Nat.eqb (m_id x) id) rendered = Some m ->
    current_profile w = Some p ->
    exists l1 u1 l2 u2,
      requests (exec (handleCompleteMission rendered id) w)
      = requests w ++ l1 ++ ReqProfilesUpdate (p_id p) u1 :: l2
                   ++ [ReqProfilesUpdate (p_id p) u2]
      /\ up_xp u1 = Some (xp p + xp_reward m)
      /\ (up_xp u2 = Some (xp p + xp_reward m + xp_reward m)
          \/ up_xp u2 = Some (xp p + xp_reward m)).
Proof.
  intros w rendered id m p Hm Hr Hp.
  unfold handleCompleteMission. rewrite exec_bind, Hr.
  destruct (markMissionComplete_requests w id m p Hm Hp)
    as (l1 & u1 & l2 & Hreq & Hux & Hcur).
  set (w1 := exec (markMissionComplete id) w) in *.
  destruct Hcur as [Hcur | Hcur].
  - destruct (addXP_request w1 _ (xp_reward m) Hcur) as (u2 & Hreq2 & Hux2 & _).
    exists l1, u1, l2, u2. split; [|split; [exact Hux|left]].
    + rewrite Hreq2, Hreq. cbn [merge_profile p_id].
      rewrite <- !app_assoc. reflexivity.
    + rewrite Hux2. cbn [merge_profile xp]. now rewrite Hux.
  - destruct (addXP_request w1 _ (xp_reward m) Hcur) as (u2 & Hreq2 & Hux2 & _).
    exists l1, u1, l2, u2. split; [|split; [exact Hux|right; exact Hux2]].
    rewrite Hreq2, Hreq. rewrite <- !app_assoc. reflexivity.
Qed.

End StoreTheorems.

(** *** Completion on the concrete world *)

(** C1.  A completion grants the reward more than once.  [Demo.world]
    holds a pending mission worth 102 xp and a profile with no xp.  One
    click on Complete ([handleCompleteMission]) leaves the profile with
    204 xp: [markMissionComplete] awards the reward and the handler
    awards it again.  Calling [markMissionComplete] a second time, on the
    mission that is by then completed, awards it again as well. *)
Theorem completion_grants_reward_twice :
  let xp_of (w : World Tables) := option_map xp (current_profile w) in
  let status_of (w : World Tables) := map m_status (missions (missionsStore w)) in
  let clicked := exec (handleCompleteMission [Demo.raid] 10%nat) Demo.world in
  let once := exec (markMissionComplete 10%nat) Demo.world in
  let twice := exec (markMissionComplete 10%nat) once in
  xp_of Demo.world = Some 0
  /\ status_of Demo.world = [pending]
  /\ xp_of clicked = Some 204
  /\ status_of once = [completed]
  /\ xp_of once = Some 102
  /\ status_of twice = [completed]
  /\ xp_of twice = Some 204.
Proof. vm_compute. repeat split. Qed.

(** *** C10: objective bounds *)

Section ObjectiveTheorems.

Context {R : Type} {RS : RemoteStore R}.

Implicit Type w : World R.

(** [updateObjective] sends the caller's values as they are and stores
    the record the remote store returns. *)
Lemma updateObjective_run id updates w :
  exec (updateObjective id updates) w
  = let (res, r') := objectives_update id updates (remote w) in
    mkWorld r' (requests w ++ [ReqObjectivesUpdate id updates])
      (random w) (clock w) (tza w) (missionsStore w) (profileStore w)
      (match res with
       | Ok data =>
           mkObjectivesState
             (map (fun obj => if Nat.eqb (o_id obj) id then data else obj)
                  (objectives (objectivesStore w)))
             false None
       | Err msg =>
           mkObjectivesState (objectives (objectivesStore w)) false (Some msg)
       end).
Proof.
  unfold exec, updateObjective, bind, call, set_objectives. cbn.
  destruct (objectives_update id updates (remote w)) as [[data|msg] r']; reflexivity.
Qed.

Lemma incrementProgress_run id amount w o :
  find (fun obj => Nat.eqb (o_id obj) id) (objectives (objectivesStore w)) = Some o ->
  exec (incrementProgress id amount) w
  = exec (updateObjective id
            (update_current_value
               (Z.min (current_value o + amount) (target_value o)))) w.
Proof.
  intros Hf. unfold incrementProgress. rewrite exec_bind.
  cbn [get_objectives fst exec snd]. now rewrite Hf.
Qed.

(** C10, as the code has it.  [incrementProgress] with a non-negative
    amount, on an objective within bounds, requests
    [min(current_value + amount, target_value)], a value within
    [0, target_value] that equals [target_value] as soon as the sum
    reaches it; and the local objectives stay within bounds when the
    remote store answers with the objective so updated, or with an
    error. *)
Theorem incrementProgress_clamps :
  forall w id o amount,
    find (fun obj => Nat.eqb (o_id obj) id) (objectives (objectivesStore w)) = Some o ->
    Forall within_bounds (objectives (objectivesStore w)) ->
    0 <= amount ->
    let v := Z.min (current_value o + amount) (target_value o) in
    let w' := exec (incrementProgress id amount) w in
    0 <= v <= target_value o
    /\ (target_value o <= current_value o + amount -> v = target_value o)
    /\ requests w' = requests w ++ [ReqObjectivesUpdate id (update_current_value v)]
    /\ ((forall data,
            fst (objectives_update id (update_current_value v) (remote w)) = Ok data ->
            data = apply_objective_update o (update_current_value v)) ->
        Forall within_bounds (objectives (objectivesStore w'))).
Proof.
  intros w id o amount Hf Hall Hamt v w'. subst w'.
  assert (Ho : within_bounds o).
  { apply find_some in Hf as [Hin _]. rewrite Forall_forall in Hall. now apply Hall. }
  unfold within_bounds in Ho.
  assert (Hv : 0 <= v <= target_value o) by (subst v; lia).
  rewrite (incrementProgress_run id amount w o Hf). fold v.
  rewrite updateObjective_run.
  split; [exact Hv|]. split; [subst v; lia|].
  destruct (objectives_update id (update_current_value v) (remote w))
    as [[data|msg] r'] eqn:E; cbn; (split; [reflexivity|]); intros Hresp.
  - specialize (Hresp data eq_refl). subst data.
    apply Forall_map. rewrite Forall_forall in Hall |- *.
    intros obj Hin. destruct (Nat.eqb (o_id obj) id).
    + unfold within_bounds; cbn. exact Hv.
    + now apply Hall.
  - exact Hall.
Qed.

End ObjectiveTheorems.

Lemma out_of_bounds_values (l : list Objective) (c t : Z) :
  map (fun o => (current_value o, target_value o)) l = [(c, t)] ->
  ~ 0 <= c <= t ->
  ~ Forall within_bounds l.
Proof.
  destruct l as [|o [|o' l]]; try discriminate. cbn.
  intros E Hn H. inversion H as [|? ? Hb _]; subst.
  injection E as <- <-. contradiction.
Qed.

(** C10 as stated fails on [Demo.world], whose one objective stands at 2
    of 5: [updateObjective] with [current_value = 9] leaves it at 9 of 5,
    and [incrementProgress] with amount -5 leaves it at -3 of 5. *)
Lemma objective_bounds_broken :
  let values (w : World Tables) :=
    map (fun o => (current_value o, target_value o)) (objectives (objectivesStore w)) in
  values Demo.world = [(2, 5)]
  /\ values (exec (updateObjective 20%nat (update_current_value 9)) Demo.world) = [(9, 5)]
  /\ values (exec (incrementProgress 20%nat (-5)) Demo.world) = [(-3, 5)]
  /\ ~ Forall within_bounds
        (objectives (objectivesStore
           (exec (updateObjective 20%nat (update_current_value 9)) Demo.world)))
  /\ ~ Forall within_bounds
        (objectives (objectivesStore (exec (incrementProgress 20%nat (-5)) Demo.world))).
Proof.
  repeat split; try reflexivity.
  - apply (out_of_bounds_values _ 9 5); [reflexivity | lia].
  - apply (out_of_bounds_values _ (-3) 5); [reflexivity | lia].
Qed.

(** ** Witnesses: the theorems at [Demo.world] *)

Lemma selectDifficulty_rule_witness :
  selectDifficulty 9 (mkStats 20 15 10) = hard.
Proof.
  apply (proj2 (proj2 (selectDifficulty_rule 9 (mkStats 20 15 10)))).
  - intros [H | H]; [lia | unfold Spec.statLevel in H; cbn in H; lra].
  - intros [H | H]; [lia | unfold Spec.statLevel in H; cbn in H; lra].
Defined.

Lemma checkScheduleAvailability_spec_witness :
  checkScheduleAvailability 0 Demo.noon [Demo.week] = true
  /\ checkScheduleAvailability 0 (20000 * msPerDay + 3 * msPerHour) [Demo.week] = false.
Proof.
  split.
  - apply (proj1 (checkScheduleAvailability_spec 0 Demo.noon [Demo.week])).
    exists Demo.week. split; [now left|].
    unfold Spec.available. cbn. repeat split; try (now left); try lia; discriminate.
  - apply (proj2 (proj2 (checkScheduleAvailability_spec 0
                           (20000 * msPerDay + 3 * msPerHour) [Demo.week]))).
    cbn. lia.
Defined.

Lemma incrementProgress_clamps_witness :
  0 <= Z.min (2 + 7) 5 <= 5
  /\ (5 <= 2 + 7 -> Z.min (2 + 7) 5 = 5)
  /\ requests (exec (incrementProgress 20%nat 7) Demo.world)
     = [ReqObjectivesUpdate 20%nat (update_current_value (Z.min (2 + 7) 5))]
  /\ ((forall data,
          fst (objectives_update 20%nat (update_current_value (Z.min (2 + 7) 5)) Demo.tables)
          = Ok data ->
          data = apply_objective_update Demo.reading (update_current_value (Z.min (2 + 7) 5))) ->
      Forall within_bounds
        (objectives (objectivesStore (exec (incrementProgress 20%nat 7) Demo.world)))).
Proof.
  apply (incrementProgress_clamps Demo.world 20%nat Demo.reading 7).
  - reflexivity.
  - repeat constructor; unfold within_bounds; cbn; lia.
  - lia.
Defined.

Lemma addXP_level_invariant_witness :
  exists u,
    requests (exec (addXP 102) Demo.world) = [] ++ [ReqProfilesUpdate Demo.user u]
    /\ up_xp u = Some (0 + 102)
    /\ (up_level u = None <-> up_stats u = None)
    /\ level_matches_xp (merge_profile Demo.hunter u)
    /\ current_profile (exec (addXP 102) Demo.world)
       = match fst (profiles_update Demo.user u Demo.tables) with
         | Ok _ => Some (merge_profile Demo.hunter u)
         | Err _ => Some Demo.hunter
         end
    /\ (exists p', current_profile (exec (addXP 102) Demo.world) = Some p'
                   /\ level_matches_xp p')
    /\ (0 + 102 < 2 ^ 31 ->
        F64.calculateLevel (xp (merge_profile Demo.hunter u))
        = Some (level (merge_profile Demo.hunter u))).
Proof.
  apply (addXP_level_invariant Demo.world Demo.hunter 102).
  - reflexivity.
  - reflexivity.
  - lia.
Defined.

Lemma addXP_stat_increment_witness :
  unit_interval (next_random Demo.world)
  /\ exists l newStats,
       calculateLevel (0 + 102) = Some l
       /\ F64.pick_stat (S754_finite false 4503599627370496 (-53)) = Some k_intelligence
       /\ stat_get newStats k_intelligence = stat_get (stats Demo.hunter) k_intelligence + 1
       /\ (forall k', k' <> k_intelligence ->
                      stat_get newStats k' = stat_get (stats Demo.hunter) k')
       /\ requests (exec (addXP 102) Demo.world)
          = [] ++ [ReqProfilesUpdate Demo.user (level_up l (0 + 102) newStats)].
Proof.
  assert (Hr : unit_interval (next_random Demo.world)).
  { split; [unfold Qle | unfold Qlt]; cbn; lia. }
  split; [exact Hr|].
  destruct (addXP_stat_increment Demo.world Demo.hunter 102 eq_refl Hr) as [Hup _].
  destruct (Hup eq_refl) as (k & l & st & H1 & _ & Hi & _ & Hf & H5 & H6 & H7 & _).
  assert (Hlo : (1 # 3 <= next_random Demo.world)%Q) by (unfold Qle; cbn; lia).
  assert (Hhi : (next_random Demo.world <= (2 # 3) - thirds_margin)%Q)
    by (unfold thirds_margin, Qle, Qminus, Qplus, Qopp; cbn; lia).
  assert (Hk : k = k_intelligence) by (apply Hi; assumption).
  subst k. exists l, st.
  split; [exact H1|]. split; [|split; [exact H5|split; [exact H6|exact H7]]].
  apply Hf.
  - right. exists 4503599627370496%positive, (-53).
    split; [reflexivity|]. split; [unfold F64.normal; cbn|]; lia.
  - reflexivity.
  - right. left. split; assumption.
Defined.

Lemma generateDailyMissions_spec_witness :
  (exists i1 i2 i3 l,
      requests (exec (generateDailyMissions Demo.user Demo.hunter [] [Demo.week]) Demo.world)
      = [] ++ l
      /\ filter is_create_request l
         = [ReqMissionsInsert Demo.user i1; ReqMissionsInsert Demo.user i2;
            ReqMissionsInsert Demo.user i3]
      /\ generated_for Demo.hunter Demo.noon sport i1
      /\ generated_for Demo.hunter Demo.noon studies i2
      /\ generated_for Demo.hunter Demo.noon routine i3)
  /\ exec (generateDailyMissions Demo.user Demo.hunter [] [Demo.week]) Demo.night
     = Demo.night.
Proof.
  split.
  - apply (proj2 (generateDailyMissions_spec Demo.world Demo.user Demo.hunter []
                    [Demo.week])).
    + reflexivity.
    + repeat constructor; unfold Qle, Qlt; cbn; lia.
  - apply (proj1 (generateDailyMissions_spec Demo.night Demo.user Demo.hunter []
                    [Demo.week])); reflexivity.
Defined.

(** ** Binary64: the two readings compared

    The store theorems are stated over the exact reading of the
    arithmetic.  On the values the application stores, the binary64
    reading gives the same results: for [calculateLevel] on every xp of
    the 32-bit [xp] column, for [selectDifficulty] on all non-negative
    stats whose total is below [2^53], for [getXPReward] on every level
    from 1 to 5000 (level 4635 is the level of the largest 32-bit xp). *)

(** X4.  The two readings of the arithmetic agree on the values the
    specification names. *)
Theorem F64_named_values :
  F64.calculateLevel 0 = calculateLevel 0
  /\ F64.calculateLevel 100 = calculateLevel 100
  /\ F64.calculateLevel 400 = calculateLevel 400
  /\ F64.calculateLevel 102 = calculateLevel 102
  /\ F64.calculateLevel (-1) = calculateLevel (-1)
  /\ F64.calculateLevel (2 ^ 31 - 1) = Some 4635
  /\ F64.getXPReward easy 1 = Some 10
  /\ F64.getXPReward hard 1 = Some 102
  /\ F64.selectDifficulty 2 (mkStats 0 0 0) = easy
  /\ F64.selectDifficulty 10 (mkStats 10 10 10) = medium
  /\ F64.selectDifficulty 10 (mkStats 15 15 15) = hard.
Proof. vm_compute. repeat split. Qed.

(** X5.  The binary64 reward equals the exact one for every difficulty
    and every level from 1 to 5000. *)
Theorem F64_getXPReward_agrees :
  forall d l, 1 <= l <= 5000 -> F64.getXPReward d l = Some (getXPReward d l).
Proof. exact F64_getXPReward_exact. Qed.

(** X6.  Evaluated in binary64, [calculateLevel] gives the same level
    as in exact arithmetic for every xp from 0 to [2^31 - 1]. *)
Theorem F64_calculateLevel_agrees :
  forall xp, 0 <= xp < 2 ^ 31 -> F64.calculateLevel xp = calculateLevel xp.
Proof.
  intros xp Hxp. apply F64_calculateLevel_exact.
  change (2 ^ 31) with 2147483648 in *. lia.
Qed.

(** X7.  Evaluated in binary64, the two additions and the division
    included, [selectDifficulty] gives the same difficulty as in exact
    arithmetic for every level and all non-negative stats whose total
    is below [2^53]. *)
Theorem F64_selectDifficulty_agrees :
  forall l st,
    0 <= strength st -> 0 <= intelligence st -> 0 <= motivation st ->
    strength st + intelligence st + motivation st < 2 ^ 53 ->
    F64.selectDifficulty l st = selectDifficulty l st.
Proof.
  intros l st Hs Hi Hm Ht.
  unfold F64.selectDifficulty. rewrite (totalStats_of_Z st Hs Hi Hm Ht).
  set (t := strength st + intelligence st + motivation st) in *.
  assert (Ht0 : 0 <= t) by (subst t; lia).
  rewrite selectDifficulty_thresholds. fold t.
  assert (H : F64.ltb (F64.div (F64.of_Z t) (F64.of_Z 30)) F64.lit_0_5 = (t <? 15)
              /\ F64.ltb (F64.div (F64.of_Z t) (F64.of_Z 30)) F64.lit_1_5 = (t <? 45)).
  { destruct (Z.lt_ge_cases t 45) as [Hlt|Hge].
    - assert (H : F64.all_from
                    (fun t => Bool.eqb (F64.ltb (F64.div (F64.of_Z t) (F64.of_Z 30)) F64.lit_0_5)
                                (t <? 15)
                              && Bool.eqb (F64.ltb (F64.div (F64.of_Z t) (F64.of_Z 30)) F64.lit_1_5)
                                   (t <? 45))
                    0 45 = true) by (vm_compute; reflexivity).
      pose proof (all_from_spec _ _ _ H t ltac:(lia)) as Hall. cbv beta in Hall.
      apply andb_true_iff in Hall as [H1 H2].
      apply Bool.eqb_prop in H1, H2. now split.
    - destruct (Z.ltb_spec t 15); [lia|]. destruct (Z.ltb_spec t 45); [lia|].
      change F64.lit_0_5 with (S754_finite false 4503599627370496 (-53)).
      change F64.lit_1_5 with (S754_finite false 6755399441055744 (-52)).
      split.
      + apply (div_30_ge t 1); [lia | lia | left; repeat split].
      + apply (div_30_ge t 3); [lia | lia | right; repeat split]. }
  destruct H as [-> ->]. reflexivity.
Qed.

(** ** Witnesses of the further properties *)

Lemma handleCompleteMission_grants_twice_witness :
  exists l1 u1 l2 u2,
    requests (exec (handleCompleteMission [Demo.raid] 10%nat) Demo.world)
    = [] ++ l1 ++ ReqProfilesUpdate Demo.user u1 :: l2
         ++ [ReqProfilesUpdate Demo.user u2]
    /\ up_xp u1 = Some (0 + 102)
    /\ (up_xp u2 = Some (0 + 102 + 102) \/ up_xp u2 = Some (0 + 102)).
Proof.
  apply (handleCompleteMission_grants_twice Demo.world [Demo.raid] 10%nat
           Demo.raid Demo.hunter); reflexivity.
Defined.

Lemma markMissionComplete_grants_witness :
  exists l1 u l2,
    requests (exec (markMissionComplete 10%nat) Demo.world)
    = [] ++ l1 ++ ReqProfilesUpdate Demo.user u :: l2
    /\ up_xp u = Some (0 + 102)
    /\ (current_profile (exec (markMissionComplete 10%nat) Demo.world)
        = Some (merge_profile Demo.hunter u)
        \/ current_profile (exec (markMissionComplete 10%nat) Demo.world)
           = Some Demo.hunter).
Proof.
  apply (markMissionComplete_grants Demo.world 10%nat Demo.raid Demo.hunter);
    reflexivity.
Defined.

Lemma addXP_run_invariant_witness :
  exists p', current_profile (exec (for_each addXP [102; 0; 300]) Demo.world) = Some p'
             /\ level_matches_xp p'.
Proof.
  apply (addXP_run_invariant [102; 0; 300]) with (p := Demo.hunter).
  - repeat constructor; lia.
  - reflexivity.
  - reflexivity.
Defined.

Lemma F64_getXPReward_agrees_witness :
  F64.getXPReward medium 7 = Some (getXPReward medium 7).
Proof. apply F64_getXPReward_agrees. lia. Defined.

Lemma F64_calculateLevel_agrees_witness :
  F64.calculateLevel 2147483647 = calculateLevel 2147483647.
Proof. apply F64_calculateLevel_agrees. lia. Defined.

Lemma F64_selectDifficulty_agrees_witness :
  F64.selectDifficulty 9 (mkStats 20 15 10) = selectDifficulty 9 (mkStats 20 15 10).
Proof. apply F64_selectDifficulty_agrees; cbn; lia. Defined.

(** * Further properties

    The rest of the code of the stores, the properties of the numeric
    functions that the store theorems use, and the runs of the stores
    over the table-backed store. *)

(** ** The numeric functions *)

Lemma calculateLevel_inverse (xp l : Z) :
  calculateLevel xp = Some l
  <-> 1 <= l /\ 100 * ((l - 1) * (l - 1)) <= xp < 100 * (l * l).
Proof.
  destruct (Z.lt_ge_cases xp 0) as [Hneg | Hpos].
  - rewrite (calculateLevel_negative xp Hneg). split; [discriminate|]. nia.
  - rewrite (calculateLevel_isqrt xp Hpos).
    assert (Hq : 0 <= xp / 100) by (apply Z.div_pos; lia).
    pose proof (Z.sqrt_spec (xp / 100) Hq) as [Hlo Hhi].
    pose proof (Z.sqrt_nonneg (xp / 100)) as Hk.
    pose proof (Z.mod_pos_bound xp 100) as Hm.
    pose proof (Z.div_mod xp 100) as Hd.
    unfold Z.succ in Hhi.
    split.
    + intros E. injection E as <-. split; [lia|].
      replace (Z.sqrt (xp / 100) + 1 - 1) with (Z.sqrt (xp / 100)) by lia. lia.
    + intros (Hl & Hlo' & Hhi'). f_equal.
      assert (Hs : Z.sqrt (xp / 100) = l - 1).
      { apply Z.sqrt_unique. unfold Z.succ.
        replace (l - 1 + 1) with l by lia.
        split.
        - apply Z.div_le_lower_bound; lia.
        - apply Z.div_lt_upper_bound; lia. }
      lia.
Qed.

(** X8.  The leveling function inverted, as the source computes it in
    binary64, for every xp of the 32-bit [xp] column: level [l] is held
    exactly from [100 * (l - 1)^2] xp up to, and not including,
    [100 * l^2] xp; no xp gives a level below 1, and a negative xp gives
    no level. *)
Theorem calculateLevel_threshold :
  forall (xp l : Z),
    - 2 ^ 31 <= xp < 2 ^ 31 ->
    (F64.calculateLevel xp = Some l
     <-> 1 <= l /\ 100 * ((l - 1) * (l - 1)) <= xp < 100 * (l * l)).
Proof.
  intros xp l Hxp. rewrite (F64_calculateLevel_exact xp Hxp).
  apply calculateLevel_inverse.
Qed.



(** X10.  A higher level or a higher stat total never gives an easier
    mission. *)
Theorem selectDifficulty_monotone :
  forall (l l' : Z) (st st' : Stats),
    l <= l' -> total_stats st <= total_stats st' ->
    difficulty_rank (selectDifficulty l st) <= difficulty_rank (selectDifficulty l' st').
Proof.
  intros l l' st st' Hl Hs. unfold total_stats in Hs.
  rewrite !selectDifficulty_thresholds.
  destruct (Z.leb_spec l 3); destruct (Z.leb_spec l 7);
    destruct (Z.leb_spec l' 3); destruct (Z.leb_spec l' 7);
    destruct (Z.ltb_spec (strength st + intelligence st + motivation st) 15);
    destruct (Z.ltb_spec (strength st + intelligence st + motivation st) 45);
    destruct (Z.ltb_spec (strength st' + intelligence st' + motivation st') 15);
    destruct (Z.ltb_spec (strength st' + intelligence st' + motivation st') 45);
    cbn; lia.
Qed.

(** ** The availability gate *)

Lemma getHours_window (tza now : Z) :
  8 <= getHours tza now <= 20
  <-> 8 * msPerHour <= time_of_day tza now < 21 * msPerHour.
Proof.
  unfold getHours, time_of_day, msPerDay, msPerHour.
  set (t := now + tza).
  change (60 * 60 * 1000) with 3600000.
  change (24 * 60 * 60 * 1000) with (3600000 * 24).
  rewrite Z.rem_mul_r by lia.
  pose proof (Z.mod_pos_bound t 3600000).
  pose proof (Z.mod_pos_bound (t / 3600000) 24).
  lia.
Qed.

(** X11.  The gate by the clock: a schedule that is active, has started
    and has no end date opens the gate exactly from 08:00:00.000 to
    20:59:59.999 local time, every day. *)
Theorem checkScheduleAvailability_window :
  forall (tza now : Z) (s : Schedule),
    is_active s = true ->
    Date_parse (start_date s) <= now ->
    end_date s = None ->
    (checkScheduleAvailability tza now [s] = true
     <-> 8 * msPerHour <= time_of_day tza now < 21 * msPerHour).
Proof.
  intros tza now s Ha Hs He.
  rewrite <- getHours_window.
  unfold checkScheduleAvailability. cbn [existsb]. rewrite orb_false_r.
  unfold schedule_covers. rewrite Ha, He. cbn.
  destruct (Z.ltb_spec now (Date_parse (start_date s))); [lia|]. cbn.
  rewrite andb_true_iff, !Z.leb_le. tauto.
Qed.

(** X12.  The gate over a list of schedules: closed when there is no
    schedule at all; open for two lists together exactly when it is open
    for one of them; and unchanged when the inactive schedules are left
    out. *)
Theorem checkScheduleAvailability_lists :
  forall (tza now : Z) (a b : list Schedule),
    checkScheduleAvailability tza now [] = false
    /\ checkScheduleAvailability tza now (a ++ b)
       = checkScheduleAvailability tza now a || checkScheduleAvailability tza now b
    /\ checkScheduleAvailability tza now (filter is_active a)
       = checkScheduleAvailability tza now a.
Proof.
  intros tza now a b. unfold checkScheduleAvailability.
  split; [reflexivity|]. split; [apply existsb_app|].
  induction a as [|s a IH]; [reflexivity|]. cbn [filter existsb].
  destruct (is_active s) eqn:E.
  - cbn [existsb]. now rewrite IH.
  - rewrite IH. unfold schedule_covers at 2. rewrite E. reflexivity.
Qed.

(** ** Profile store *)

Section ProfileStoreTheorems.

Context {R : Type} {RS : RemoteStore R}.

Implicit Type w : World R.

Lemma total_stats_set (st : Stats) (k : StatKey) (v : Z) :
  total_stats (stat_set st k v) = total_stats st - stat_get st k + v.
Proof. destruct k; unfold total_stats; cbn; lia. Qed.

(** X13.  [addXP] raises the level exactly when the new xp reaches
    [100 * level^2], as long as the new xp fits the 32-bit [xp] column:
    below it the update carries the xp alone; from it on, the update
    carries the level of the new xp, which may be more than one level
    up, and stats whose total is one more than before.  On that range
    the levels are those binary64 arithmetic gives. *)
Theorem addXP_level_up_threshold :
  forall w p amount,
    current_profile w = Some p ->
    level_matches_xp p ->
    0 <= amount ->
    xp p + amount < 2 ^ 31 ->
    unit_interval (next_random w) ->
    let newXP := xp p + amount in
    let w' := exec (addXP amount) w in
    F64.calculateLevel (xp p) = Some (level p)
    /\ (newXP < 100 * (level p * level p) ->
        F64.calculateLevel newXP = Some (level p)
        /\ requests w' = requests w ++ [ReqProfilesUpdate (p_id p) (xp_only newXP)])
    /\ (100 * (level p * level p) <= newXP ->
        exists l newStats,
          requests w'
          = requests w ++ [ReqProfilesUpdate (p_id p) (level_up l newXP newStats)]
          /\ level p < l
          /\ F64.calculateLevel newXP = Some l
          /\ calculateLevel newXP = Some l
          /\ total_stats newStats = total_stats (stats p) + 1).
Proof.
  intros w p amount Hp Hinv Hamt Hrange Hr newXP w'. subst w'.
  pose proof (level_matches_xp_nonneg p Hinv) as Hxp.
  unfold level_matches_xp in Hinv.
  assert (H64 : forall x, 0 <= x <= newXP -> F64.calculateLevel x = calculateLevel x).
  { intros x Hx. apply F64_calculateLevel_exact.
    subst newXP. change (2 ^ 31) with 2147483648 in *. lia. }
  split; [rewrite H64 by (subst newXP; lia); exact Hinv|].
  apply calculateLevel_inverse in Hinv as (Hl & Hlo & Hhi).
  rewrite (addXP_run w p amount Hp). fold newXP.
  assert (HnewXP : 0 <= newXP) by (subst newXP; lia).
  pose proof (calculateLevel_isqrt newXP HnewXP) as Hb.
  set (lb := Z.sqrt (newXP / 100) + 1) in *.
  pose proof (proj1 (calculateLevel_inverse newXP lb) Hb) as (Hlb & Hlblo & Hlbhi).
  rewrite H64 by lia. rewrite Hb.
  destruct (after_random_frame w) as (Hrem & Hq & _ & _ & _ & Hps & _).
  assert (Hp' : current_profile (after_random w) = Some p).
  { unfold current_profile. now rewrite Hps. }
  split; intros Hcmp.
  - assert (Hle : lb <= level p) by nia.
    assert (Heq : lb = level p) by nia.
    destruct (Z.ltb_spec (level p) lb); [lia|].
    split; [now rewrite Heq|].
    now destruct (updateProfile_profile w p (xp_only newXP) Hp) as [_ ->].
  - assert (Hlt : level p < lb) by nia.
    destruct (Z.ltb_spec (level p) lb); [|lia].
    destruct (pick_stat_range (next_random w) Hr) as (k & Hk & _).
    rewrite Hk.
    set (newStats := stat_set (stats p) k (stat_get (stats p) k + 1)).
    destruct (updateProfile_profile _ p (level_up lb newXP newStats) Hp') as [_ Hreq].
    exists lb, newStats. rewrite Hreq, Hq.
    repeat split; try assumption.
    unfold newStats. rewrite total_stats_set. lia.
Qed.

Lemma updateStats_run w p stat value :
  current_profile w = Some p ->
  exec (updateStats stat value) w
  = exec (updateProfile
            (mkProfileUpdates None None None (Some (stat_set (stats p) stat value)))) w.
Proof.
  unfold current_profile. intros Hp.
  unfold updateStats. rewrite exec_bind. cbn [get_profile fst exec snd].
  now rewrite Hp.
Qed.

(** X14.  [updateStats] sends the stats alone, with the one stat
    replaced and the other two as they were; the local profile takes the
    new stats when the request succeeds and stays as it was when it
    fails; xp and level are never touched, so a profile whose level
    matches its xp stays so. *)
Theorem updateStats_sets_one_stat :
  forall w p stat value,
    current_profile w = Some p ->
    let newStats := stat_set (stats p) stat value in
    let u := mkProfileUpdates None None None (Some newStats) in
    let w' := exec (updateStats stat value) w in
    requests w' = requests w ++ [ReqProfilesUpdate (p_id p) u]
    /\ current_profile w'
       = match fst (profiles_update (p_id p) u (remote w)) with
         | Ok _ => Some (mkProfile (p_id p) (p_username p) (level p) (xp p) newStats)
         | Err _ => Some p
         end
    /\ stat_get newStats stat = value
    /\ (forall k, k <> stat -> stat_get newStats k = stat_get (stats p) k)
    /\ (level_matches_xp p ->
        exists p', current_profile w' = Some p' /\ level_matches_xp p').
Proof.
  intros w p stat value Hp newStats u w'. subst w'.
  rewrite (updateStats_run w p stat value Hp). fold newStats. fold u.
  destruct (updateProfile_profile w p u Hp) as [Hcur Hreq].
  rewrite Hreq, Hcur.
  split; [reflexivity|]. split; [reflexivity|]. split; [|split].
  - unfold newStats. rewrite stat_set_get. now destruct stat.
  - intros k Hk. unfold newStats. rewrite stat_set_get.
    destruct stat, k; try reflexivity; contradiction.
  - intros Hinv. destruct (fst _); eexists; (split; [reflexivity|]); exact Hinv.
Qed.

End ProfileStoreTheorems.

(** ** Missions store *)

Section MissionsStoreTheorems.

Context {R : Type} {RS : RemoteStore R}.

Implicit Type w : World R.

(** X15.  With nothing to act on, nothing happens.  Without a loaded
    profile, [addXP], [updateProfile] and [updateStats] send nothing and
    change nothing; so do [markMissionComplete] for an id that is not in
    the local missions and [incrementProgress] for an id that is not in
    the local objectives. *)
Theorem nothing_to_act_on :
  forall w,
    (current_profile w = None ->
     forall amount updates stat value,
       addXP amount w = (tt, w)
       /\ updateProfile updates w = (tt, w)
       /\ updateStats stat value w = (tt, w))
    /\ (forall id,
          find (fun m => Nat.eqb (m_id m) id) (missions (missionsStore w)) = None ->
          markMissionComplete id w = (tt, w))
    /\ (forall id,
          find (fun obj => Nat.eqb (o_id obj) id) (objectives (objectivesStore w)) = None ->
          forall amount, incrementProgress id amount w = (tt, w)).
Proof.
  intros w. split; [|split].
  - unfold current_profile. intros Hp amount updates stat value.
    unfold addXP, updateProfile, updateStats, bind, get_profile.
    rewrite Hp. repeat split.
  - intros id Hf. unfold markMissionComplete, bind, get_missions. now rewrite Hf.
  - intros id Hf amount. unfold incrementProgress, bind, get_objectives. now rewrite Hf.
Qed.

(** [trackMissionHistory] sends the row, then reads the history back
    when the row was accepted; of the containers, only the history, the
    loading flag and the error of the missions store may change. *)
Lemma trackMissionHistory_requests mid uid act old new gained notes w :
  exists l',
    missions_kept w (exec (trackMissionHistory mid uid act old new gained notes) w)
      (ReqHistoryInsert (mkHistoryInsert mid uid act old new gained notes) :: l')
    /\ (l' = [] \/ l' = [ReqHistorySelect uid]).
Proof.
  unfold missions_kept, exec, trackMissionHistory, fetchMissionHistory, bind, call,
    set_missions, m_start, m_fail, ret. cbn.
  destruct (mission_history_insert _ (remote w)) as [[[]|msg] r']; cbn.
  - destruct (mission_history_select uid r') as [[data|msg] r'']; cbn;
      exists [ReqHistorySelect uid]; rewrite <- ?app_assoc; cbn; repeat split; now right.
  - exists []. repeat split. now left.
Qed.

Lemma updateMission_found w id updates m :
  find (fun x => Nat.eqb (m_id x) id) (missions (missionsStore w)) = Some m ->
  exec (updateMission id updates) w
  = match missions_update id updates (remote w) with
    | (Err msg, r') =>
        mkWorld r' (requests w ++ [ReqMissionsUpdate id updates])
          (random w) (clock w) (tza w)
          (mkMissionsState (missions (missionsStore w))
             (missionHistory (missionsStore w)) false (Some msg))
          (profileStore w) (objectivesStore w)
    | (Ok data, r') =>
        exec (match um_status updates with
              | Some s =>
                  if negb (MissionStatus_eqb s (m_status m))
                  then trackMissionHistory id (m_user_id m) act_updated
                         (Some (m_status m)) (Some s) 0 None
                  else ret tt
              | None => ret tt
              end)
          (mkWorld r' (requests w ++ [ReqMissionsUpdate id updates])
             (random w) (clock w) (tza w)
             (mkMissionsState
                (map (fun x => if Nat.eqb (m_id x) id then data else x)
                     (missions (missionsStore w)))
                (missionHistory (missionsStore w)) false None)
             (profileStore w) (objectivesStore w))
    end.
Proof.
  intros Hf.
  unfold exec at 1.
  unfold updateMission, bind, get_missions, set_missions, call, m_start, m_fail.
  cbn. rewrite Hf. cbn.
  destruct (missions_update id updates (remote w)) as [[data|msg] r']; cbn;
    [|reflexivity].
  unfold exec. destruct (um_status updates) as [s|]; [|reflexivity].
  destruct (negb (MissionStatus_eqb s (m_status m))); reflexivity.
Qed.

Lemma updateMission_accepted w id updates m data :
  find (fun x => Nat.eqb (m_id x) id) (missions (missionsStore w)) = Some m ->
  fst (missions_update id updates (remote w)) = Ok data ->
  exists l',
    requests (exec (updateMission id updates) w)
    = requests w ++ ReqMissionsUpdate id updates :: status_rows id m updates ++ l'
    /\ (l' = [] \/ (status_rows id m updates <> [] /\ l' = [ReqHistorySelect (m_user_id m)]))
    /\ missions (missionsStore (exec (updateMission id updates) w))
       = map (fun x => if Nat.eqb (m_id x) id then data else x) (missions (missionsStore w))
    /\ profileStore (exec (updateMission id updates) w) = profileStore w
    /\ objectivesStore (exec (updateMission id updates) w) = objectivesStore w
    /\ random (exec (updateMission id updates) w) = random w.
Proof.
  intros Hf Hok. rewrite (updateMission_found w id updates m Hf).
  destruct (missions_update id updates (remote w)) as [[data'|msg] r']; [|discriminate].
  cbn in Hok. injection Hok as ->.
  unfold status_rows.
  destruct (um_status updates) as [s|].
  - destruct (MissionStatus_eqb s (m_status m)); cbn [negb].
    + exists []. cbn. repeat split. now left.
    + match goal with
      | |- context [exec (trackMissionHistory ?a ?b ?c ?d ?e ?f ?g) ?w0] =>
          destruct (trackMissionHistory_requests a b c d e f g w0)
            as (l' & (Hq & Hr & _ & _ & Hm & Hp & Ho) & Hl')
      end.
      exists l'. rewrite Hq, Hm, Hp, Ho, Hr. cbn. rewrite <- app_assoc. cbn.
      repeat split.
      destruct Hl' as [-> | ->]; [now left | right; split; [discriminate | reflexivity]].
  - exists []. cbn. repeat split. now left.
Qed.

(** X16.  What [updateMission] does.  For an id that is not in the
    local list it sends nothing and leaves the missions as they are.
    Otherwise it sends the update; a refusal leaves the missions as they
    were and records the message; an acceptance replaces the mission by
    the record returned and, exactly when the update carries a status
    other than the mission's, records the change of status in the
    history. *)
Theorem updateMission_outcome :
  forall w id updates,
    let w' := exec (updateMission id updates) w in
    match find (fun x => Nat.eqb (m_id x) id) (missions (missionsStore w)) with
    | None =>
        requests w' = requests w
        /\ missions (missionsStore w') = missions (missionsStore w)
    | Some m =>
        match fst (missions_update id updates (remote w)) with
        | Err msg =>
            requests w' = requests w ++ [ReqMissionsUpdate id updates]
            /\ missions (missionsStore w') = missions (missionsStore w)
            /\ m_error (missionsStore w') = Some msg
        | Ok data =>
            missions (missionsStore w')
            = map (fun x => if Nat.eqb (m_id x) id then data else x)
                  (missions (missionsStore w))
            /\ exists l',
                 requests w'
                 = requests w ++ ReqMissionsUpdate id updates :: status_rows id m updates ++ l'
                 /\ (l' = [] \/ l' = [ReqHistorySelect (m_user_id m)])
        end
    end.
Proof.
  intros w id updates w'. subst w'.
  destruct (find _ (missions (missionsStore w))) as [m|] eqn:Hf.
  - destruct (fst (missions_update id updates (remote w))) as [data|msg] eqn:Hres.
    + destruct (updateMission_accepted w id updates m data Hf Hres)
        as (l' & Hq & Hl' & Hm & _).
      split; [exact Hm|]. exists l'. split; [exact Hq|].
      destruct Hl' as [-> | [_ ->]]; [now left | now right].
    + rewrite (updateMission_found w id updates m Hf).
      destruct (missions_update id updates (remote w)) as [[data'|msg'] r']; [discriminate|].
      cbn in Hres. injection Hres as ->. repeat split.
  - unfold exec, updateMission, bind, get_missions, set_missions, m_start, ret. cbn.
    rewrite Hf. repeat split.
Qed.

(** X17.  What [createMission] does: a refusal leaves the missions as
    they were and records the message; an acceptance puts the record
    returned at the head of the list and records its creation in the
    history, with [pending] as new status and no xp; the profile and the
    objectives are never touched. *)
Theorem createMission_outcome :
  forall w userId input,
    let w' := exec (createMission userId input) w in
    profileStore w' = profileStore w
    /\ objectivesStore w' = objectivesStore w
    /\ match fst (missions_insert userId input (remote w)) with
       | Err msg =>
           requests w' = requests w ++ [ReqMissionsInsert userId input]
           /\ missions (missionsStore w') = missions (missionsStore w)
           /\ m_error (missionsStore w') = Some msg
       | Ok data =>
           missions (missionsStore w') = data :: missions (missionsStore w)
           /\ exists l',
                requests w'
                = requests w
                  ++ ReqMissionsInsert userId input
                  :: ReqHistoryInsert
                       (mkHistoryInsert (m_id data) userId act_created None
                          (Some pending) 0 None)
                  :: l'
                /\ (l' = [] \/ l' = [ReqHistorySelect userId])
       end.
Proof.
  intros w userId input w'. subst w'.
  unfold exec, createMission, bind, call, set_missions, m_start, m_fail. cbn.
  destruct (missions_insert userId input (remote w)) as [[data|msg] r']; cbn.
  - match goal with
    | |- context [trackMissionHistory ?a ?b ?c ?d ?e ?f ?g ?w0] =>
        destruct (trackMissionHistory_requests a b c d e f g w0)
          as (l' & (Hq & _ & _ & _ & Hm & Hp & Ho) & Hl')
    end.
    unfold exec in Hq, Hm, Hp, Ho. cbn in Hq, Hm, Hp, Ho.
    rewrite Hm, Hp, Ho, Hq. repeat split.
    exists l'. rewrite <- app_assoc. cbn. split; [reflexivity | exact Hl'].
  - repeat split.
Qed.

Lemma addXP_frame amount w :
  missionsStore (exec (addXP amount) w) = missionsStore w
  /\ objectivesStore (exec (addXP amount) w) = objectivesStore w
  /\ exists l, requests (exec (addXP amount) w) = requests w ++ l
       /\ match current_profile w with
          | Some p => exists u, l = [ReqProfilesUpdate (p_id p) u]
                                /\ up_xp u = Some (xp p + amount)
          | None => l = []
          end.
Proof.
  destruct (current_profile w) as [p|] eqn:Hp.
  - destruct (after_random_frame w) as (Hrem & Hq & _ & _ & Hms & Hps & Hos).
    assert (Hp' : current_profile (after_random w) = Some p).
    { unfold current_profile. now rewrite Hps. }
    rewrite (addXP_run w p amount Hp).
    assert (Hplain :
      missionsStore (exec (updateProfile (xp_only (xp p + amount))) w) = missionsStore w
      /\ objectivesStore (exec (updateProfile (xp_only (xp p + amount))) w) = objectivesStore w
      /\ exists l, requests (exec (updateProfile (xp_only (xp p + amount))) w) = requests w ++ l
           /\ exists u, l = [ReqProfilesUpdate (p_id p) u] /\ up_xp u = Some (xp p + amount)).
    { rewrite (updateProfile_run w p _ Hp).
      destruct (profiles_update _ _ (remote w)) as [res r']. cbn.
      split; [reflexivity|]. split; [reflexivity|].
      eexists. split; [reflexivity|]. eexists. split; reflexivity. }
    destruct (calculateLevel (xp p + amount)) as [l|]; [|exact Hplain].
    destruct (level p <? l); [|exact Hplain].
    match goal with
    | |- context [updateProfile ?u0] => rewrite (updateProfile_run (after_random w) p u0 Hp')
    end.
    destruct (profiles_update _ _ (remote (after_random w))) as [res r']. cbn.
    rewrite Hms, Hos, Hq.
    split; [reflexivity|]. split; [reflexivity|].
    eexists. split; [reflexivity|]. eexists. split; reflexivity.
  - unfold current_profile in Hp.
    unfold exec, addXP, bind, get_profile. rewrite Hp. cbn.
    repeat split. exists []. now rewrite app_nil_r.
Qed.

Lemma markMissionComplete_run w id m :
  find (fun x => Nat.eqb (m_id x) id) (missions (missionsStore w)) = Some m ->
  exec (markMissionComplete id) w
  = exec (trackMissionHistory id (m_user_id m) act_completed
            (Some (m_status m)) (Some completed) (xp_reward m) None)
      (exec (addXP (xp_reward m))
         (exec (updateMission id (update_status completed)) w)).
Proof.
  intros Hm. unfold markMissionComplete. rewrite exec_bind.
  cbn [get_missions fst exec snd].
  rewrite Hm. now rewrite !exec_bind.
Qed.

Lemma pendingMissions_replace (id : Id) (data : Mission) (ms : list Mission) :
  m_status data = completed ->
  pendingMissions (map (fun x => if Nat.eqb (m_id x) id then data else x) ms)
  = filter (fun x => negb (Nat.eqb (m_id x) id)) (pendingMissions ms).
Proof.
  intros Hd. unfold pendingMissions.
  induction ms as [|x ms IH]; [reflexivity|]. cbn [map filter].
  destruct (Nat.eqb (m_id x) id) eqn:E.
  - rewrite Hd. cbn [MissionStatus_eqb orb]. rewrite IH.
    destruct (MissionStatus_eqb (m_status x) pending
              || MissionStatus_eqb (m_status x) in_progress);
      [cbn [filter]; now rewrite E | reflexivity].
  - rewrite IH.
    destruct (MissionStatus_eqb (m_status x) pending
              || MissionStatus_eqb (m_status x) in_progress);
      [cbn [filter]; now rewrite E | reflexivity].
Qed.

(** X18.  Once the remote store has accepted the completion and
    returned the mission as completed, the mission is no longer among
    those offered for completion; the other ones are offered as before,
    in the same order. *)
Theorem markMissionComplete_leaves_pending :
  forall w id m data,
    find (fun x => Nat.eqb (m_id x) id) (missions (missionsStore w)) = Some m ->
    fst (missions_update id (update_status completed) (remote w)) = Ok data ->
    m_status data = completed ->
    let w' := exec (markMissionComplete id) w in
    pendingMissions (missions (missionsStore w'))
    = filter (fun x => negb (Nat.eqb (m_id x) id)) (pendingMissions (missions (missionsStore w)))
    /\ forall x, In x (pendingMissions (missions (missionsStore w'))) -> m_id x <> id.
Proof.
  intros w id m data Hf Hok Hd w'. subst w'.
  rewrite (markMissionComplete_run w id m Hf).
  destruct (updateMission_accepted w id (update_status completed) m data Hf Hok)
    as (_ & _ & _ & Hms & _).
  set (w1 := exec (updateMission id (update_status completed)) w) in *.
  destruct (addXP_frame (xp_reward m) w1) as (Hms2 & _).
  set (w2 := exec (addXP (xp_reward m)) w1) in *.
  destruct (trackMissionHistory_requests id (m_user_id m) act_completed
              (Some (m_status m)) (Some completed) (xp_reward m) None w2)
    as (l' & (_ & _ & _ & _ & Hms3 & _) & _).
  rewrite Hms3, Hms2, Hms.
  rewrite (pendingMissions_replace id data _ Hd).
  split; [reflexivity|].
  intros x Hin. apply filter_In in Hin as [_ Hx].
  apply negb_true_iff, Nat.eqb_neq in Hx. exact Hx.
Qed.


End MissionsStoreTheorems.

(** ** The stores over the table-backed store *)

Lemma find_replace {A} (f : A -> bool) (row : A) (l : list A) (a : A) :
  find f l = Some a -> f row = true ->
  find f (map (fun x => if f x then row else x) l) = Some row.
Proof.
  intros Hf Hrow. induction l as [|x l IH]; [discriminate|].
  cbn in *. destruct (f x) eqn:E.
  - now rewrite Hrow.
  - rewrite E. now apply IH.
Qed.

Lemma map_replace_twice {A} (f : A -> bool) (row row' : A) (l : list A) :
  f row = true ->
  map (fun x => if f x then row' else x) (map (fun x => if f x then row else x) l)
  = map (fun x => if f x then row' else x) l.
Proof.
  intros Hrow. rewrite map_map. apply map_ext. intros x.
  destruct (f x) eqn:E; [now rewrite Hrow | now rewrite E].
Qed.

Lemma map_replace_same {A} (f : A -> bool) (row : A) (l : list A) :
  (forall x, In x l -> f x = true -> x = row) ->
  map (fun x => if f x then row else x) l = l.
Proof.
  intros H. induction l as [|x l IH]; [reflexivity|]. cbn.
  rewrite IH by (intros y Hy; apply H; now right).
  destruct (f x) eqn:E; [|reflexivity].
  now rewrite (H x (or_introl eq_refl) E).
Qed.

Lemma find_filter_out {A} (f : A -> bool) (l : list A) :
  find f (filter (fun x => negb (f x)) l) = None.
Proof.
  induction l as [|x l IH]; [reflexivity|]. cbn.
  destruct (f x) eqn:E; cbn; [exact IH | now rewrite E].
Qed.

Lemma incrementProgress_on_tables (w : World Tables) id o amount :
  tb_online (remote w) = true ->
  find (fun obj => Nat.eqb (o_id obj) id) (objectives (objectivesStore w)) = Some o ->
  find (fun obj => Nat.eqb (o_id obj) id) (tb_objectives (remote w)) = Some o ->
  let row := apply_objective_update o
               (update_current_value (Z.min (current_value o + amount) (target_value o))) in
  let w' := exec (incrementProgress id amount) w in
  tb_online (remote w') = true
  /\ find (fun obj => Nat.eqb (o_id obj) id) (objectives (objectivesStore w')) = Some row
  /\ find (fun obj => Nat.eqb (o_id obj) id) (tb_objectives (remote w')) = Some row.
Proof.
  intros Hon Hl Hr row w'. subst w'.
  rewrite (incrementProgress_run id amount w o Hl), updateObjective_run.
  change (objectives_update id ?u (remote w))
    with (TableStore.objectives_update id u (remote w)).
  unfold TableStore.objectives_update. rewrite Hon, Hr. fold row. cbn.
  assert (Hid : Nat.eqb (o_id row) id = true).
  { apply find_some in Hl as [_ Hid]. exact Hid. }
  split; [reflexivity|].
  split; apply (find_replace (fun obj => Nat.eqb (o_id obj) id) row _ o); assumption.
Qed.

(** X20.  Increments add up on the table-backed store: after any
    sequence of [incrementProgress] calls with non-negative amounts, on
    an objective that does not exceed its target and that the local list
    and the table hold alike, the objective stands at
    [min(current_value + sum of the amounts, target_value)], in the
    local list and in the table, with its other fields unchanged. *)
Theorem incrementProgress_accumulates :
  forall (amounts : list Z) (w : World Tables) (id : Id) (o : Objective),
    Forall (fun a => 0 <= a) amounts ->
    tb_online (remote w) = true ->
    find (fun obj => Nat.eqb (o_id obj) id) (objectives (objectivesStore w)) = Some o ->
    find (fun obj => Nat.eqb (o_id obj) id) (tb_objectives (remote w)) = Some o ->
    current_value o <= target_value o ->
    let total := fold_right Z.add 0 amounts in
    let row := apply_objective_update o
                 (update_current_value (Z.min (current_value o + total) (target_value o))) in
    let w' := exec (for_each (incrementProgress id) amounts) w in
    find (fun obj => Nat.eqb (o_id obj) id) (objectives (objectivesStore w')) = Some row
    /\ find (fun obj => Nat.eqb (o_id obj) id) (tb_objectives (remote w')) = Some row.
Proof.
  induction amounts as [|a amounts IH]; intros w id o Hall Hon Hl Hr Hb total row w'.
  - subst w' row total. cbn [fold_right for_each exec ret snd].
    rewrite Z.add_0_r, Z.min_l by assumption.
    assert (E : apply_objective_update o (update_current_value (current_value o)) = o)
      by (destruct o; reflexivity).
    rewrite E. split; assumption.
  - inversion Hall as [|? ? Ha Hall']; subst.
    subst w'. cbn [for_each]. rewrite exec_bind.
    destruct (incrementProgress_on_tables w id o a Hon Hl Hr) as (Hon1 & Hl1 & Hr1).
    set (w1 := exec (incrementProgress id a) w) in *.
    set (o1 := apply_objective_update o
                 (update_current_value (Z.min (current_value o + a) (target_value o)))) in *.
    assert (Hsum : 0 <= fold_right Z.add 0 amounts).
    { clear -Hall'. induction Hall'; cbn; lia. }
    assert (Hb1 : current_value o1 <= target_value o1) by (subst o1; cbn; lia).
    destruct (IH w1 id o1 Hall' Hon1 Hl1 Hr1 Hb1) as [H1 H2].
    assert (E : apply_objective_update o1
                  (update_current_value
                     (Z.min (current_value o1 + fold_right Z.add 0 amounts) (target_value o1)))
                = row).
    { subst row total o1. unfold apply_objective_update; cbn. f_equal. lia. }
    rewrite E in H1, H2. split; assumption.
Qed.

Lemma createMission_on_tables (w : World Tables) userId input :
  tb_online (remote w) = true ->
  let w' := exec (createMission userId input) w in
  exists row,
    created_from userId input row
    /\ missions (missionsStore w') = row :: missions (missionsStore w)
    /\ m_loading (missionsStore w') = false
    /\ m_error (missionsStore w') = None
    /\ tb_online (remote w') = true.
Proof.
  intros Hon w'. subst w'.
  unfold exec, createMission, trackMissionHistory, fetchMissionHistory, bind, call,
    set_missions, m_start, m_fail, ret.
  cbn. unfold TableStore.missions_insert. rewrite Hon. cbn.
  eexists. split; [|repeat split]. repeat split.
Qed.

Lemma for_each_createMission_on_tables userId (inputs : list CreateMissionInput) :
  forall (w : World Tables),
    tb_online (remote w) = true ->
    let w' := exec (for_each (createMission userId) inputs) w in
    exists rows,
      Forall2 (created_from userId) inputs rows
      /\ missions (missionsStore w') = rev rows ++ missions (missionsStore w)
      /\ tb_online (remote w') = true
      /\ (inputs <> [] ->
          m_loading (missionsStore w') = false /\ m_error (missionsStore w') = None).
Proof.
  induction inputs as [|i inputs IH]; intros w Hon w'; subst w'.
  - exists []. split; [constructor|]. split; [reflexivity|]. split; [exact Hon|].
    intros Hne. now contradiction Hne.
  - cbn [for_each]. rewrite exec_bind.
    destruct (createMission_on_tables w userId i Hon) as (row & Hrow & Hm & Hl & He & Hon1).
    set (w1 := exec (createMission userId i) w) in *.
    destruct (IH w1 Hon1) as (rows & Hrows & Hms & Hon2 & Hflags).
    exists (row :: rows). split; [now constructor|]. split; [|split; [exact Hon2|]].
    + rewrite Hms, Hm. cbn [rev]. now rewrite <- app_assoc.
    + intros _. destruct inputs as [|i' inputs'].
      * cbn [for_each exec ret snd]. split; assumption.
      * apply Hflags. discriminate.
Qed.

Lemma generateDailyMissions_open_run {R : Type} {RS : RemoteStore R}
    (w : World R) userId p objs schedules :
  checkScheduleAvailability (tza w) (clock w) schedules = true ->
  Forall unit_interval (random w) ->
  exists i1 i2 i3,
    generated_for p (clock w) sport i1
    /\ generated_for p (clock w) studies i2
    /\ generated_for p (clock w) routine i3
    /\ exec (generateDailyMissions userId p objs schedules) w
       = exec (set_missions m_done)
           (exec (for_each (createMission userId) [i1; i2; i3])
              (after_randoms (List.length categories) (exec (set_missions m_start) w))).
Proof.
  intros Hgate Hr.
  unfold exec at 1. unfold generateDailyMissions.
  unfold bind at 1. unfold set_missions at 1.
  set (w0 := mkWorld (remote w) (requests w) (random w) (clock w) (tza w)
               (m_start (missionsStore w)) (profileStore w) (objectivesStore w)).
  unfold bind at 1. unfold Date_now at 1. unfold bind at 1.
  change (clock w0) with (clock w). change (tza w0) with (tza w).
  rewrite Hgate. cbn [negb].
  destruct (draft_missions_run p categories w0 Hr) as (inputs & Hd & Hg).
  unfold bind at 1. rewrite Hd.
  change (clock w0) with (clock w) in Hg.
  inversion Hg as [|c1 i1 cs1 is1 G1 Hg1]; subst.
  inversion Hg1 as [|c2 i2 cs2 is2 G2 Hg2]; subst.
  inversion Hg2 as [|c3 i3 cs3 is3 G3 Hg3]; subst.
  inversion Hg3; subst.
  exists i1, i2, i3. do 3 (split; [assumption|]).
  change (exec (set_missions m_start) w) with w0.
  unfold exec, bind.
  destruct (for_each (createMission userId) [i1; i2; i3] _) as [[] w2].
  reflexivity.
Qed.

(** X21.  Generation on the table-backed store, end to end: with the
    store reachable and the gate open, three missions come to the head
    of the local list, the newest first (routine, studies, sport); each
    is the record of the mission generated for its category, with status
    [pending], so that all three are offered for completion; and the
    store ends idle with no error. *)
Theorem generateDailyMissions_on_tables :
  forall (w : World Tables) userId p objs schedules,
    tb_online (remote w) = true ->
    checkScheduleAvailability (tza w) (clock w) schedules = true ->
    Forall unit_interval (random w) ->
    let w' := exec (generateDailyMissions userId p objs schedules) w in
    exists i1 i2 i3 r1 r2 r3,
      generated_for p (clock w) sport i1
      /\ generated_for p (clock w) studies i2
      /\ generated_for p (clock w) routine i3
      /\ created_from userId i1 r1
      /\ created_from userId i2 r2
      /\ created_from userId i3 r3
      /\ missions (missionsStore w') = r3 :: r2 :: r1 :: missions (missionsStore w)
      /\ pendingMissions (missions (missionsStore w'))
         = r3 :: r2 :: r1 :: pendingMissions (missions (missionsStore w))
      /\ m_loading (missionsStore w') = false
      /\ m_error (missionsStore w') = None.
Proof.
  intros w userId p objs schedules Hon Hgate Hr w'. subst w'.
  destruct (generateDailyMissions_open_run w userId p objs schedules Hgate Hr)
    as (i1 & i2 & i3 & G1 & G2 & G3 & ->).
  set (w0 := exec (set_missions m_start) w).
  destruct (after_randoms_frame (List.length categories) w0)
    as (Hrem & _ & _ & _ & Hms & _).
  set (w1 := after_randoms (List.length categories) w0) in *. clearbody w1.
  assert (Hon1 : tb_online (remote w1) = true) by (rewrite Hrem; exact Hon).
  destruct (for_each_createMission_on_tables userId [i1; i2; i3] w1 Hon1)
    as (rows & Hrows & Hmis & _ & Hflags).
  destruct Hflags as [Hl He]; [discriminate|].
  inversion Hrows as [|? r1 ? rs1 C1 Hrows1]; subst.
  inversion Hrows1 as [|? r2 ? rs2 C2 Hrows2]; subst.
  inversion Hrows2 as [|? r3 ? rs3 C3 Hrows3]; subst.
  inversion Hrows3; subst.
  set (w2 := exec (for_each (createMission userId) [i1; i2; i3]) w1) in *. clearbody w2.
  rewrite Hms in Hmis. cbn in Hmis.
  exists i1, i2, i3, r1, r2, r3.
  do 6 (split; [assumption|]).
  cbn. split; [exact Hmis|].
  split; [|split; [reflexivity | exact He]].
  rewrite Hmis. unfold pendingMissions. cbn [filter].
  destruct C1 as (_ & _ & _ & _ & _ & _ & _ & ->).
  destruct C2 as (_ & _ & _ & _ & _ & _ & _ & ->).
  destruct C3 as (_ & _ & _ & _ & _ & _ & _ & ->).
  reflexivity.
Qed.

(** ** The application: reads, creations, deletions, schedules *)

Ltac crud :=
  unfold run, act_bind, lift, query, set_missions, set_objectives, set_schedules,
    m_start, m_fail, o_start, o_fail, s_start, s_fail;
  cbn.

Section ApplicationTheorems.

Context {R : Type} {RS : RemoteStore R} {RQ : RemoteQueries R}.

Implicit Type s : App R.

Lemma run_bind {A B} (c : Act A) (k : A -> Act B) s :
  run (act_bind c k) s = run (k (fst (c s))) (run c s).
Proof. unfold run, act_bind. destruct (c s); reflexivity. Qed.

(** *** Missions store *)

(** X22.  [deleteMission] sends one deletion.  When it is accepted, the
    local list loses the missions with that id and keeps the other ones
    in order, and a later [markMissionComplete] of that id does nothing;
    when it is refused, the list is unchanged and the message is
    recorded.  Nothing else changes. *)
Theorem deleteMission_outcome :
  forall s id,
    let s' := run (deleteMission id) s in
    let before := missions (missionsStore (app_world s)) in
    let after := missions (missionsStore (app_world s')) in
    queries s' = queries s ++ [QMissionsDelete id]
    /\ only_missions_differ s s'
    /\ match fst (missions_delete id (remote (app_world s))) with
       | Ok _ =>
           after = filter (fun m => negb (Nat.eqb (m_id m) id)) before
           /\ (forall m, In m after <-> In m before /\ m_id m <> id)
           /\ markMissionComplete id (app_world s') = (tt, app_world s')
       | Err msg =>
           after = before
           /\ m_error (missionsStore (app_world s')) = Some msg
       end.
Proof.
  intros s id s' before after. subst s' before after.
  unfold deleteMission. crud.
  destruct (missions_delete id (remote (app_world s))) as [[[]|msg] r']; cbn.
  - split; [reflexivity|]. split; [repeat split|].
    split; [reflexivity|]. split.
    + intros m. rewrite filter_In, negb_true_iff, Nat.eqb_neq. tauto.
    + unfold markMissionComplete, bind, get_missions. cbn.
      now rewrite (find_filter_out (fun m => Nat.eqb (m_id m) id)).
  - repeat split.
Qed.

Lemma fetchMissions_run s userId :
  let s' := run (fetchMissions userId) s in
  queries s' = queries s ++ [QMissionsSelect userId]
  /\ only_missions_differ s s'
  /\ missionHistory (missionsStore (app_world s')) = missionHistory (missionsStore (app_world s))
  /\ match fst (missions_select userId (remote (app_world s))) with
     | Ok data =>
         missions (missionsStore (app_world s')) = data
         /\ m_error (missionsStore (app_world s')) = None
     | Err msg =>
         missions (missionsStore (app_world s')) = missions (missionsStore (app_world s))
         /\ m_error (missionsStore (app_world s')) = Some msg
     end.
Proof.
  intros s'. subst s'. unfold fetchMissions. crud.
  destruct (missions_select userId (remote (app_world s))) as [[data|msg] r']; cbn;
    repeat split.
Qed.

(** X23.  [handleGenerateMissions]: nothing happens while no profile is
    loaded.  With a profile, the missions are generated and the list is
    then read back ([fetchMissions]), which is its only request beside
    those of the generation; the list ends as the remote store's answer,
    or, if the read fails, as generation left it, with the message
    recorded; and when the gate is closed the read is the only
    request. *)
Theorem handleGenerateMissions_reads_back :
  forall s userId objs scheds,
    handleGenerateMissions userId None objs scheds s = (tt, s)
    /\ forall p,
         let w1 := exec (generateDailyMissions userId p objs scheds) (app_world s) in
         let s' := run (handleGenerateMissions userId (Some p) objs scheds) s in
         queries s' = queries s ++ [QMissionsSelect userId]
         /\ requests (app_world s') = requests w1
         /\ match fst (missions_select userId (remote w1)) with
            | Ok data =>
                missions (missionsStore (app_world s')) = data
                /\ m_error (missionsStore (app_world s')) = None
            | Err msg =>
                missions (missionsStore (app_world s')) = missions (missionsStore w1)
                /\ m_error (missionsStore (app_world s')) = Some msg
            end
         /\ (checkScheduleAvailability (tza (app_world s)) (clock (app_world s)) scheds = false ->
             requests (app_world s') = requests (app_world s)).
Proof.
  intros s userId objs scheds. split; [reflexivity|].
  intros p w1 s'. subst s'.
  unfold handleGenerateMissions. rewrite run_bind.
  set (s1 := run (lift (generateDailyMissions userId p objs scheds)) s).
  assert (Hs1 : app_world s1 = w1 /\ queries s1 = queries s).
  { subst s1 w1. unfold run, lift, exec.
    destruct (generateDailyMissions userId p objs scheds (app_world s)); split; reflexivity. }
  destruct Hs1 as [Hw Hq].
  destruct (fetchMissions_run s1 userId) as (Hq' & (Hreq & _) & _ & Hres).
  rewrite Hw in Hres, Hreq.
  rewrite Hq', Hq. split; [reflexivity|]. split; [exact Hreq|]. split; [exact Hres|].
  intros Hgate. rewrite Hreq. subst w1.
  now rewrite (generateDailyMissions_closed userId p objs scheds (app_world s) Hgate).
Qed.

(** *** Objectives store *)

(** X24.  The objectives store beside [updateObjective].  A fetch
    replaces the list by the answer; a creation puts the record returned
    at the head of the list, where its id finds it; a deletion removes
    the objectives with the id and keeps the other ones in order, after
    which [incrementProgress] of that id does nothing.  Each sends one
    request; a refused request leaves the list as it was and records the
    message; nothing else changes. *)
Theorem objectives_store_outcomes :
  forall s userId input id,
    let before := objectives (objectivesStore (app_world s)) in
    let fetched := run (fetchObjectives userId) s in
    let created := run (createObjective userId input) s in
    let deleted := run (deleteObjective id) s in
    (queries fetched = queries s ++ [QObjectivesSelect userId]
     /\ only_objectives_differ s fetched
     /\ match fst (objectives_select userId (remote (app_world s))) with
        | Ok data => objectives (objectivesStore (app_world fetched)) = data
        | Err msg =>
            objectives (objectivesStore (app_world fetched)) = before
            /\ o_error (objectivesStore (app_world fetched)) = Some msg
        end)
    /\ (queries created = queries s ++ [QObjectivesInsert userId input]
        /\ only_objectives_differ s created
        /\ match fst (objectives_insert userId input (remote (app_world s))) with
           | Ok data =>
               objectives (objectivesStore (app_world created)) = data :: before
               /\ find (fun obj => Nat.eqb (o_id obj) (o_id data))
                    (objectives (objectivesStore (app_world created))) = Some data
           | Err msg =>
               objectives (objectivesStore (app_world created)) = before
               /\ o_error (objectivesStore (app_world created)) = Some msg
           end)
    /\ (queries deleted = queries s ++ [QObjectivesDelete id]
        /\ only_objectives_differ s deleted
        /\ match fst (objectives_delete id (remote (app_world s))) with
           | Ok _ =>
               objectives (objectivesStore (app_world deleted))
               = filter (fun obj => negb (Nat.eqb (o_id obj) id)) before
               /\ forall amount,
                    incrementProgress id amount (app_world deleted) = (tt, app_world deleted)
           | Err msg =>
               objectives (objectivesStore (app_world deleted)) = before
               /\ o_error (objectivesStore (app_world deleted)) = Some msg
           end).
Proof.
  intros s userId input id before fetched created deleted.
  subst before fetched created deleted. split; [|split].
  - unfold fetchObjectives. crud.
    destruct (objectives_select userId (remote (app_world s))) as [[data|msg] r']; cbn;
      repeat split.
  - unfold createObjective. crud.
    destruct (objectives_insert userId input (remote (app_world s))) as [[data|msg] r']; cbn;
      repeat split.
    now rewrite Nat.eqb_refl.
  - unfold deleteObjective. crud.
    destruct (objectives_delete id (remote (app_world s))) as [[[]|msg] r']; cbn;
      repeat split.
    intros amount. unfold incrementProgress, bind, get_objectives. cbn.
    now rewrite (find_filter_out (fun obj => Nat.eqb (o_id obj) id)).
Qed.

(** *** Schedules store *)

Lemma updateSchedule_run s id updates :
  run (updateSchedule id updates) s
  = let w := app_world s in
    let (res, r') := schedules_update id updates (remote w) in
    mkApp (mkWorld r' (requests w) (random w) (clock w) (tza w)
             (missionsStore w) (profileStore w) (objectivesStore w))
      (queries s ++ [QSchedulesUpdate id updates])
      (match res with
       | Ok data =>
           mkSchedulesState
             (map (fun x => if Nat.eqb (s_id x) id then data else x)
                  (schedules (schedulesStore s)))
             false None
       | Err msg => mkSchedulesState (schedules (schedulesStore s)) false (Some msg)
       end).
Proof.
  unfold updateSchedule. crud.
  destruct (schedules_update id updates (remote (app_world s))) as [[data|msg] r']; reflexivity.
Qed.

Lemma toggleSchedule_run s id sc :
  find (fun x => Nat.eqb (s_id x) id) (schedules (schedulesStore s)) = Some sc ->
  run (toggleSchedule id) s
  = run (updateSchedule id (update_is_active (negb (is_active sc)))) s.
Proof.
  intros Hf. unfold toggleSchedule. rewrite run_bind.
  cbn [get_schedules fst run snd]. now rewrite Hf.
Qed.

(** X25.  The schedules store beside [toggleSchedule]: fetch, creation
    and deletion as in the objectives store; an update replaces the
    schedules with the id by the record returned; after a deletion
    [toggleSchedule] of that id does nothing.  Each sends one request; a
    refused request leaves the list as it was and records the message;
    nothing else changes. *)
Theorem schedules_store_outcomes :
  forall s userId input id updates,
    let before := schedules (schedulesStore s) in
    let fetched := run (fetchSchedules userId) s in
    let created := run (createSchedule userId input) s in
    let updated := run (updateSchedule id updates) s in
    let deleted := run (deleteSchedule id) s in
    (queries fetched = queries s ++ [QSchedulesSelect userId]
     /\ only_schedules_differ s fetched
     /\ match fst (schedules_select userId (remote (app_world s))) with
        | Ok data => schedules (schedulesStore fetched) = data
        | Err msg =>
            schedules (schedulesStore fetched) = before
            /\ s_error (schedulesStore fetched) = Some msg
        end)
    /\ (queries created = queries s ++ [QSchedulesInsert userId input]
        /\ only_schedules_differ s created
        /\ match fst (schedules_insert userId input (remote (app_world s))) with
           | Ok data =>
               schedules (schedulesStore created) = data :: before
               /\ find (fun x => Nat.eqb (s_id x) (s_id data)) (schedules (schedulesStore created))
                  = Some data
           | Err msg =>
               schedules (schedulesStore created) = before
               /\ s_error (schedulesStore created) = Some msg
           end)
    /\ (queries updated = queries s ++ [QSchedulesUpdate id updates]
        /\ only_schedules_differ s updated
        /\ match fst (schedules_update id updates (remote (app_world s))) with
           | Ok data =>
               schedules (schedulesStore updated)
               = map (fun x => if Nat.eqb (s_id x) id then data else x) before
           | Err msg =>
               schedules (schedulesStore updated) = before
               /\ s_error (schedulesStore updated) = Some msg
           end)
    /\ (queries deleted = queries s ++ [QSchedulesDelete id]
        /\ only_schedules_differ s deleted
        /\ match fst (schedules_delete id (remote (app_world s))) with
           | Ok _ =>
               schedules (schedulesStore deleted)
               = filter (fun x => negb (Nat.eqb (s_id x) id)) before
               /\ toggleSchedule id deleted = (tt, deleted)
           | Err msg =>
               schedules (schedulesStore deleted) = before
               /\ s_error (schedulesStore deleted) = Some msg
           end).
Proof.
  intros s userId input id updates before fetched created updated deleted.
  subst before fetched created updated deleted. split; [|split; [|split]].
  - unfold fetchSchedules. crud.
    destruct (schedules_select userId (remote (app_world s))) as [[data|msg] r']; cbn;
      repeat split.
  - unfold createSchedule. crud.
    destruct (schedules_insert userId input (remote (app_world s))) as [[data|msg] r']; cbn;
      repeat split.
    now rewrite Nat.eqb_refl.
  - unfold updateSchedule. crud.
    destruct (schedules_update id updates (remote (app_world s))) as [[data|msg] r']; cbn;
      repeat split.
  - unfold deleteSchedule. crud.
    destruct (schedules_delete id (remote (app_world s))) as [[[]|msg] r']; cbn;
      repeat split.
    unfold toggleSchedule, act_bind, get_schedules. cbn.
    now rewrite (find_filter_out (fun x => Nat.eqb (s_id x) id)).
Qed.

(** X26.  [toggleSchedule] ignores an id that is not in the local list;
    for a schedule of the list it sends one update, which carries
    [is_active] alone, negated, and the list takes the record returned,
    or stays as it was when the update is refused. *)
Theorem toggleSchedule_request :
  forall s id,
    match find (fun x => Nat.eqb (s_id x) id) (schedules (schedulesStore s)) with
    | None => toggleSchedule id s = (tt, s)
    | Some sc =>
        let s' := run (toggleSchedule id) s in
        let updates := update_is_active (negb (is_active sc)) in
        queries s' = queries s ++ [QSchedulesUpdate id updates]
        /\ only_schedules_differ s s'
        /\ match fst (schedules_update id updates (remote (app_world s))) with
           | Ok data =>
               schedules (schedulesStore s')
               = map (fun x => if Nat.eqb (s_id x) id then data else x)
                     (schedules (schedulesStore s))
           | Err msg =>
               schedules (schedulesStore s') = schedules (schedulesStore s)
               /\ s_error (schedulesStore s') = Some msg
           end
    end.
Proof.
  intros s id.
  destruct (find _ (schedules (schedulesStore s))) as [sc|] eqn:Hf.
  - intros s' updates. subst s'.
    rewrite (toggleSchedule_run s id sc Hf), updateSchedule_run. fold updates.
    cbn. destruct (schedules_update id updates (remote (app_world s))) as [[data|msg] r'];
      cbn; repeat split.
  - unfold toggleSchedule, act_bind, get_schedules. now rewrite Hf.
Qed.

Lemma gate_replace (tza now : Z) (id : Id) (data : Schedule) (l : list Schedule) :
  is_active data = false ->
  checkScheduleAvailability tza now
    (map (fun x => if Nat.eqb (s_id x) id then data else x) l)
  = checkScheduleAvailability tza now (filter (fun x => negb (Nat.eqb (s_id x) id)) l).
Proof.
  intros Hd. unfold checkScheduleAvailability.
  induction l as [|x l IH]; [reflexivity|]. cbn [map filter existsb].
  destruct (Nat.eqb (s_id x) id); cbn [negb existsb].
  - rewrite IH. unfold schedule_covers at 1. now rewrite Hd.
  - now rewrite IH.
Qed.

(** X27.  Switching a schedule off takes it out of the gate: once the
    remote store has accepted the toggle of an active schedule and
    returned it inactive, the availability gate over the local schedules
    is the gate over the other schedules. *)
Theorem toggleSchedule_closes_gate :
  forall s id sc data tza now,
    find (fun x => Nat.eqb (s_id x) id) (schedules (schedulesStore s)) = Some sc ->
    is_active sc = true ->
    fst (schedules_update id (update_is_active false) (remote (app_world s))) = Ok data ->
    is_active data = false ->
    let s' := run (toggleSchedule id) s in
    checkScheduleAvailability tza now (schedules (schedulesStore s'))
    = checkScheduleAvailability tza now
        (filter (fun x => negb (Nat.eqb (s_id x) id)) (schedules (schedulesStore s))).
Proof.
  intros s id sc data tza now Hf Ha Hok Hd s'. subst s'.
  rewrite (toggleSchedule_run s id sc Hf), updateSchedule_run. rewrite Ha. cbn [negb].
  cbn. destruct (schedules_update id (update_is_active false) (remote (app_world s)))
    as [[data'|msg] r']; [|discriminate].
  cbn in Hok. injection Hok as ->. cbn.
  now apply gate_replace.
Qed.

End ApplicationTheorems.

(** *** Schedules over the table-backed store *)

Lemma toggleSchedule_on_database (s : App Database) id sc :
  DatabaseStore.online (remote (app_world s)) = true ->
  find (fun x => Nat.eqb (s_id x) id) (schedules (schedulesStore s)) = Some sc ->
  find (fun x => Nat.eqb (s_id x) id) (db_schedules (remote (app_world s))) = Some sc ->
  let row := apply_schedule_update sc (update_is_active (negb (is_active sc))) in
  let s' := run (toggleSchedule id) s in
  DatabaseStore.online (remote (app_world s')) = true
  /\ schedules (schedulesStore s')
     = map (fun x => if Nat.eqb (s_id x) id then row else x) (schedules (schedulesStore s))
  /\ db_schedules (remote (app_world s'))
     = map (fun x => if Nat.eqb (s_id x) id then row else x)
           (db_schedules (remote (app_world s))).
Proof.
  intros Hon Hl Hr row s'. subst s'.
  rewrite (toggleSchedule_run s id sc Hl).
  unfold run, updateSchedule, act_bind, query, set_schedules, s_start, s_fail. cbn.
  unfold DatabaseStore.schedules_update. rewrite Hon, Hr. fold row. cbn.
  repeat split. exact Hon.
Qed.

(** X28.  Toggling twice restores the schedule, on the table-backed
    store: after one toggle the schedule found under the id has the
    opposite [is_active] and is otherwise the same; after two it is the
    schedule found at the start, in the local list and in the table; and
    the local list is the one of the start when the id names one
    schedule only. *)
Theorem toggleSchedule_twice :
  forall (s : App Database) (id : Id) (sc : Schedule),
    DatabaseStore.online (remote (app_world s)) = true ->
    find (fun x => Nat.eqb (s_id x) id) (schedules (schedulesStore s)) = Some sc ->
    find (fun x => Nat.eqb (s_id x) id) (db_schedules (remote (app_world s))) = Some sc ->
    let s1 := run (toggleSchedule id) s in
    let s2 := run (toggleSchedule id) s1 in
    find (fun x => Nat.eqb (s_id x) id) (schedules (schedulesStore s1))
    = Some (apply_schedule_update sc (update_is_active (negb (is_active sc))))
    /\ find (fun x => Nat.eqb (s_id x) id) (schedules (schedulesStore s2)) = Some sc
    /\ find (fun x => Nat.eqb (s_id x) id) (db_schedules (remote (app_world s2))) = Some sc
    /\ ((forall x, In x (schedules (schedulesStore s)) -> s_id x = id -> x = sc) ->
        schedules (schedulesStore s2) = schedules (schedulesStore s)).
Proof.
  intros s id sc Hon Hl Hr s1 s2.
  set (f := fun x : Schedule => Nat.eqb (s_id x) id) in *.
  set (row := apply_schedule_update sc (update_is_active (negb (is_active sc)))).
  assert (Hid : f sc = true) by (apply find_some in Hl as [_ H]; exact H).
  assert (Hrow : f row = true) by exact Hid.
  destruct (toggleSchedule_on_database s id sc Hon Hl Hr) as (Hon1 & Hl1 & Hr1).
  fold s1 row f in Hon1, Hl1, Hr1.
  assert (Hf1 : find f (schedules (schedulesStore s1)) = Some row).
  { rewrite Hl1. now apply (find_replace f row _ sc). }
  assert (Hf1' : find f (db_schedules (remote (app_world s1))) = Some row).
  { rewrite Hr1. now apply (find_replace f row _ sc). }
  destruct (toggleSchedule_on_database s1 id row Hon1 Hf1 Hf1') as (_ & Hl2 & Hr2).
  fold s2 f in Hl2, Hr2.
  assert (Eback : apply_schedule_update row (update_is_active (negb (is_active row))) = sc).
  { subst row. destruct sc as [i u t d fr sd ed a]. cbn. now rewrite negb_involutive. }
  rewrite Eback in Hl2, Hr2.
  split; [exact Hf1|].
  rewrite Hl2, Hr2, Hl1, Hr1, !(map_replace_twice f row sc) by exact Hrow.
  split; [now apply (find_replace f sc _ sc)|].
  split; [now apply (find_replace f sc _ sc)|].
  intros Huniq. apply map_replace_same.
  intros x Hin Hx. apply Huniq; [exact Hin|]. now apply Nat.eqb_eq.
Qed.

(** ** Witnesses: the further properties on the concrete worlds *)


Lemma selectDifficulty_monotone_witness :
  difficulty_rank (selectDifficulty 2 (mkStats 0 0 0))
  <= difficulty_rank (selectDifficulty 10 (mkStats 15 15 15)).
Proof.
  apply (selectDifficulty_monotone 2 10 (mkStats 0 0 0) (mkStats 15 15 15));
    [lia | unfold total_stats; cbn; lia].
Defined.

Lemma checkScheduleAvailability_window_witness :
  checkScheduleAvailability 0 Demo.noon [Demo.week] = true
  <-> 8 * msPerHour <= time_of_day 0 Demo.noon < 21 * msPerHour.
Proof.
  apply (checkScheduleAvailability_window 0 Demo.noon Demo.week).
  - reflexivity.
  - unfold Demo.noon, Date_parse, msPerDay, msPerHour. cbn. lia.
  - reflexivity.
Defined.

Lemma addXP_level_up_threshold_witness :
  exists l newStats,
    requests (exec (addXP 102) Demo.world)
    = [] ++ [ReqProfilesUpdate Demo.user (level_up l (0 + 102) newStats)]
    /\ 1 < l
    /\ F64.calculateLevel (0 + 102) = Some l
    /\ calculateLevel (0 + 102) = Some l
    /\ total_stats newStats = total_stats (mkStats 0 0 0) + 1.
Proof.
  assert (Hr : unit_interval (next_random Demo.world)).
  { split; [unfold Qle | unfold Qlt]; cbn; lia. }
  apply (proj2 (proj2 (addXP_level_up_threshold Demo.world Demo.hunter 102 eq_refl eq_refl
                         ltac:(lia) ltac:(cbn; lia) Hr))).
  cbn. lia.
Defined.

Lemma calculateLevel_threshold_witness :
  F64.calculateLevel 102 = Some 2
  <-> 1 <= 2 /\ 100 * ((2 - 1) * (2 - 1)) <= 102 < 100 * (2 * 2).
Proof. apply (calculateLevel_threshold 102 2). cbn. lia. Defined.

Lemma updateStats_sets_one_stat_witness :
  requests (exec (updateStats k_strength 5) Demo.world)
  = [] ++ [ReqProfilesUpdate Demo.user
             (mkProfileUpdates None None None (Some (mkStats 5 0 0)))]
  /\ current_profile (exec (updateStats k_strength 5) Demo.world)
     = Some (mkProfile Demo.user (Some "hunter"%string) 1 0 (mkStats 5 0 0)).
Proof.
  pose proof (updateStats_sets_one_stat Demo.world Demo.hunter k_strength 5 eq_refl)
    as (Hreq & Hcur & _).
  split; [exact Hreq | exact Hcur].
Defined.

Lemma nothing_to_act_on_witness :
  (addXP 102 DemoApp.signed_out = (tt, DemoApp.signed_out)
   /\ updateProfile (xp_only 102) DemoApp.signed_out = (tt, DemoApp.signed_out)
   /\ updateStats k_strength 5 DemoApp.signed_out = (tt, DemoApp.signed_out))
  /\ markMissionComplete 10%nat DemoApp.signed_out = (tt, DemoApp.signed_out)
  /\ (forall amount,
        incrementProgress 20%nat amount DemoApp.signed_out = (tt, DemoApp.signed_out)).
Proof.
  destruct (nothing_to_act_on DemoApp.signed_out) as (Hp & Hm & Ho).
  split; [apply Hp | split; [apply Hm | apply Ho]]; reflexivity.
Defined.

Lemma markMissionComplete_leaves_pending_witness :
  pendingMissions (missions (missionsStore (exec (markMissionComplete 10%nat) Demo.world)))
  = filter (fun x => negb (Nat.eqb (m_id x) 10%nat)) (pendingMissions [Demo.raid])
  /\ forall x,
       In x (pendingMissions
               (missions (missionsStore (exec (markMissionComplete 10%nat) Demo.world)))) ->
       m_id x <> 10%nat.
Proof.
  apply (markMissionComplete_leaves_pending Demo.world 10%nat Demo.raid
           (apply_mission_update Demo.raid (update_status completed)));
    reflexivity.
Defined.


Lemma incrementProgress_accumulates_witness :
  find (fun obj => Nat.eqb (o_id obj) 20%nat)
    (objectives (objectivesStore
       (exec (for_each (incrementProgress 20%nat) [1; 1; 1; 1; 1]) Demo.world)))
  = Some (apply_objective_update Demo.reading (update_current_value (Z.min (2 + 5) 5)))
  /\ find (fun obj => Nat.eqb (o_id obj) 20%nat)
       (tb_objectives (remote
          (exec (for_each (incrementProgress 20%nat) [1; 1; 1; 1; 1]) Demo.world)))
     = Some (apply_objective_update Demo.reading (update_current_value (Z.min (2 + 5) 5))).
Proof.
  apply (incrementProgress_accumulates [1; 1; 1; 1; 1] Demo.world 20%nat Demo.reading).
  - repeat constructor; lia.
  - reflexivity.
  - reflexivity.
  - reflexivity.
  - cbn. lia.
Defined.

Lemma generateDailyMissions_on_tables_witness :
  exists i1 i2 i3 r1 r2 r3,
    generated_for Demo.hunter Demo.noon sport i1
    /\ generated_for Demo.hunter Demo.noon studies i2
    /\ generated_for Demo.hunter Demo.noon routine i3
    /\ created_from Demo.user i1 r1
    /\ created_from Demo.user i2 r2
    /\ created_from Demo.user i3 r3
    /\ missions (missionsStore
         (exec (generateDailyMissions Demo.user Demo.hunter [] [Demo.week]) Demo.world))
       = r3 :: r2 :: r1 :: [Demo.raid]
    /\ pendingMissions (missions (missionsStore
         (exec (generateDailyMissions Demo.user Demo.hunter [] [Demo.week]) Demo.world)))
       = r3 :: r2 :: r1 :: pendingMissions [Demo.raid]
    /\ m_loading (missionsStore
         (exec (generateDailyMissions Demo.user Demo.hunter [] [Demo.week]) Demo.world))
       = false
    /\ m_error (missionsStore
         (exec (generateDailyMissions Demo.user Demo.hunter [] [Demo.week]) Demo.world))
       = None.
Proof.
  apply (generateDailyMissions_on_tables Demo.world Demo.user Demo.hunter [] [Demo.week]).
  - reflexivity.
  - reflexivity.
  - repeat constructor; unfold Qle, Qlt; cbn; lia.
Defined.

Lemma toggleSchedule_closes_gate_witness :
  checkScheduleAvailability 0 Demo.noon
    (schedules (schedulesStore (run (toggleSchedule 30%nat) DemoApp.app)))
  = checkScheduleAvailability 0 Demo.noon
      (filter (fun x => negb (Nat.eqb (s_id x) 30%nat)) [Demo.week]).
Proof.
  apply (toggleSchedule_closes_gate DemoApp.app 30%nat Demo.week
           (apply_schedule_update Demo.week (update_is_active false)) 0 Demo.noon);
    reflexivity.
Defined.

Lemma toggleSchedule_twice_witness :
  find (fun x => Nat.eqb (s_id x) 30%nat)
    (schedules (schedulesStore (run (toggleSchedule 30%nat) DemoApp.app)))
  = Some (apply_schedule_update Demo.week (update_is_active (negb true)))
  /\ find (fun x => Nat.eqb (s_id x) 30%nat)
       (schedules (schedulesStore
          (run (toggleSchedule 30%nat) (run (toggleSchedule 30%nat) DemoApp.app))))
     = Some Demo.week
  /\ find (fun x => Nat.eqb (s_id x) 30%nat)
       (db_schedules (remote (app_world
          (run (toggleSchedule 30%nat) (run (toggleSchedule 30%nat) DemoApp.app)))))
     = Some Demo.week
  /\ ((forall x, In x [Demo.week] -> s_id x = 30%nat -> x = Demo.week) ->
      schedules (schedulesStore
        (run (toggleSchedule 30%nat) (run (toggleSchedule 30%nat) DemoApp.app)))
      = [Demo.week]).
Proof.
  apply (toggleSchedule_twice DemoApp.app 30%nat Demo.week); reflexivity.
Defined.

(** ** The objectives manager *)

(** X29.  The "+1 Progress" button never needs the clamp: for the
    objective found under the id of a button that is rendered (status
    active, [current_value < target_value]), [handleIncrement] requests
    exactly [current_value + 1], which does not exceed the target. *)
Theorem handleIncrement_adds_one :
  forall {R : Type} {RS : RemoteStore R} (s : App R) (id : Id) (o : Objective),
    find (fun obj => Nat.eqb (o_id obj) id) (objectives (objectivesStore (app_world s)))
    = Some o ->
    canIncrement o = true ->
    let s' := run (handleIncrement id) s in
    requests (app_world s')
    = requests (app_world s)
      ++ [ReqObjectivesUpdate id (update_current_value (current_value o + 1))]
    /\ current_value o + 1 <= target_value o
    /\ queries s' = queries s.
Proof.
  intros R RS s id o Hf Hc s'. subst s'.
  unfold canIncrement in Hc. apply andb_true_iff in Hc as [_ Hlt].
  apply Z.ltb_lt in Hlt.
  unfold handleIncrement, run, lift.
  pose proof (incrementProgress_run id 1 (app_world s) o Hf) as Hrun.
  rewrite updateObjective_run, Z.min_l in Hrun by lia. unfold exec in Hrun.
  destruct (objectives_update id _ (remote (app_world s))) as [res r'].
  destruct (incrementProgress id 1 (app_world s)) as [[] w']. cbn in Hrun |- *.
  subst w'. cbn. split; [reflexivity|]. split; [lia | reflexivity].
Qed.

Lemma run_act_bind {R A B} (c : @Act R A) (k : A -> @Act R B) s :
  run (act_bind c k) s = run (k (fst (c s))) (run c s).
Proof. unfold run, act_bind. destruct (c s); reflexivity. Qed.

Lemma Forall_replace {A} (P : A -> Prop) (f : A -> bool) (row : A) (l : list A) :
  P row -> Forall P l -> Forall P (map (fun x => if f x then row else x) l).
Proof.
  intros Hrow Hall. apply Forall_map. rewrite Forall_forall in Hall |- *.
  intros x Hin. destruct (f x); [exact Hrow | now apply Hall].
Qed.

Lemma Forall_filter {A} (P : A -> Prop) (f : A -> bool) (l : list A) :
  Forall P l -> Forall P (filter f l).
Proof.
  intros Hall. rewrite Forall_forall in Hall |- *.
  intros x Hin. apply filter_In in Hin as [Hin _]. now apply Hall.
Qed.

Lemma updateObjective_on_database (s : App Database) id u :
  manager_invariant s ->
  (forall o, find (fun obj => Nat.eqb (o_id obj) id)
               (objectives (objectivesStore (app_world s))) = Some o ->
             within_bounds (apply_objective_update o u)) ->
  manager_invariant (run (lift (updateObjective id u)) s).
Proof.
  intros [Hsync Hall] Hrow.
  unfold run, lift.
  pose proof (updateObjective_run id u (app_world s)) as Hrun. unfold exec in Hrun.
  destruct (updateObjective id u (app_world s)) as [[] w'] eqn:E. cbn in Hrun |- *.
  unfold manager_invariant. cbn. rewrite Hrun. clear Hrun E w'.
  change (objectives_update id u (remote (app_world s)))
    with (DatabaseStore.on_tables (TableStore.objectives_update id u) (remote (app_world s))).
  unfold DatabaseStore.on_tables, TableStore.objectives_update, TableStore.offline.
  destruct (tb_online (db_tables (remote (app_world s)))); [|cbn; split; assumption].
  rewrite <- Hsync.
  destruct (find _ (objectives (objectivesStore (app_world s)))) as [o|] eqn:Hf;
    [|cbn; split; assumption].
  cbn. split; [reflexivity|].
  apply Forall_replace; [|exact Hall].
  now apply Hrow.
Qed.

Lemma perform_keeps_bounds String_trim userId (a : ManagerAction) (s : App Database) :
  manager_invariant s -> manager_invariant (run (perform String_trim userId a) s).
Proof.
  intros Hinv. destruct a as [formData | id | id status | id confirmed]; cbn [perform].
  - unfold handleSubmit. rewrite run_act_bind.
    assert (Es : run (lift Date_now) s = s) by (destruct s; reflexivity).
    rewrite Es.
    change (fst (lift Date_now s)) with (clock (app_world s)).
    destruct (validateForm String_trim (clock (app_world s)) formData) eqn:Hv; cbn [negb];
      [|exact Hinv].
    assert (Ht : 1 <= co_target_value formData).
    { unfold validateForm in Hv. apply negb_true_iff in Hv.
      apply orb_false_iff in Hv as [Hv _]. apply orb_false_iff in Hv as [_ Hv].
      apply Z.ltb_ge in Hv. exact Hv. }
    destruct Hinv as [Hsync Hall].
    unfold manager_invariant, run, createObjective, act_bind, lift, query, set_objectives,
      o_start, o_fail. cbn.
    unfold DatabaseStore.objectives_insert, DatabaseStore.online, DatabaseStore.offline.
    destruct (tb_online (db_tables (remote (app_world s)))); cbn; [|split; assumption].
    split; [now rewrite Hsync|].
    constructor; [|exact Hall]. unfold within_bounds; cbn. lia.
  - unfold handleIncrement.
    destruct (find (fun obj => Nat.eqb (o_id obj) id)
                (objectives (objectivesStore (app_world s)))) as [o|] eqn:Hf.
    + assert (E : incrementProgress id 1 (app_world s)
                  = updateObjective id
                      (update_current_value
                         (Z.min (current_value o + 1) (target_value o))) (app_world s)).
      { unfold incrementProgress, bind, get_objectives. now rewrite Hf. }
      unfold run, lift. rewrite E.
      apply (updateObjective_on_database s id _ Hinv).
      intros o' Hf'. rewrite Hf in Hf'. injection Hf' as <-.
      destruct Hinv as [_ Hall]. rewrite Forall_forall in Hall.
      apply find_some in Hf as [Hin _]. specialize (Hall o Hin).
      unfold within_bounds in *. cbn. lia.
    + unfold run, lift, incrementProgress, bind, get_objectives. rewrite Hf. exact Hinv.
  - unfold handleStatusChange. apply (updateObjective_on_database s id _ Hinv).
    intros o Hf. destruct Hinv as [_ Hall]. rewrite Forall_forall in Hall.
    apply find_some in Hf as [Hin _]. exact (Hall o Hin).
  - unfold handleDelete. destruct confirmed; [|exact Hinv].
    destruct Hinv as [Hsync Hall].
    unfold manager_invariant, run, deleteObjective, act_bind, lift, query, set_objectives,
      o_start, o_fail. cbn.
    unfold DatabaseStore.objectives_delete, DatabaseStore.online, DatabaseStore.offline.
    destruct (tb_online (db_tables (remote (app_world s)))); cbn; [|split; assumption].
    split; [now rewrite Hsync | now apply Forall_filter].
Qed.

(** X30.  Through the objectives manager the bounds are kept, on the
    table-backed store: when the objectives shown are those of the
    table and each has [0 <= current_value <= target_value], they are so
    again after any session of submitting the form, clicking
    "+1 Progress", changing a status and deleting, whatever the forms
    and the ids, and whether the store is reachable or not.  (The form
    is refused unless [target_value >= 1], and a new objective starts at
    0.) *)
Theorem objectives_manager_keeps_bounds :
  forall (String_trim : string -> string) (userId : Id)
         (actions : list ManagerAction) (s : App Database),
    manager_invariant s ->
    manager_invariant (run (session String_trim userId actions) s).
Proof.
  intros String_trim userId actions.
  induction actions as [|a actions IH]; intros s Hinv.
  - exact Hinv.
  - cbn [session]. rewrite run_act_bind. apply IH.
    now apply perform_keeps_bounds.
Qed.

Lemma handleIncrement_adds_one_witness :
  requests (app_world (run (handleIncrement 20%nat) DemoApp.app))
  = [] ++ [ReqObjectivesUpdate 20%nat (update_current_value (2 + 1))]
  /\ 2 + 1 <= 5
  /\ queries (run (handleIncrement 20%nat) DemoApp.app) = [].
Proof.
  apply (handleIncrement_adds_one DemoApp.app 20%nat Demo.reading); reflexivity.
Defined.

Lemma objectives_manager_keeps_bounds_witness :
  manager_invariant
    (run (session (fun title => title) Demo.user
            [Submit (mkCreateObjective "Run"%string None 3 None None);
             ClickIncrement 20%nat; ClickIncrement 20%nat; ClickIncrement 20%nat;
             ClickIncrement 20%nat; ChangeStatus 20%nat obj_completed;
             ClickDelete 20%nat true])
       DemoApp.app).
Proof.
  apply (objectives_manager_keeps_bounds (fun title => title) Demo.user _ DemoApp.app).
  split; [reflexivity|].
  repeat constructor; unfold within_bounds; cbn; lia.
Defined.
